(** * Timetable extractor: validation, enrichment and routing

    A shallow embedding of the backend of the timetable extractor
    (schemas/timetable.js, services/fileProcessor.js, services/pdfProcessor.js,
    services/imageProcessor.js, the two LLM clients, middleware/upload.js and
    controllers/extractController.js) and the properties of its specification.

    Conventions of the embedding
    - A JavaScript value that came out of [JSON.parse] is a [JSON] term; a
      property that is absent (JavaScript [undefined]) is [None].
    - A JavaScript number is the rational it denotes (every finite double is a
      rational).  The only arithmetic the code performs is on hours and minutes
      of at most fifteen decimal digits, where double arithmetic is exact.
    - Strings that are compared with literals or matched against the digit
      patterns are byte strings ([string]); texts whose length is measured
      ([trim().length]) are lists of UTF-16 code units.
    - Calls to the logger and wall-clock measurements have no influence on
      control flow and are left out.
    - What the program reaches outside itself (pdf-parse, tesseract, sharp,
      the LLM endpoints, [JSON.parse], double arithmetic) is a field of a
      [World]; every call to a library or an endpoint is recorded in a trace
      of [Event]s. *)

From Stdlib Require Import List String Ascii ZArith QArith Bool Lia DecimalString.
Import ListNotations.

Open Scope string_scope.
Open Scope Z_scope.
Open Scope list_scope.

(* ================================================================== *)
(** * JavaScript values *)
(* ================================================================== *)

Module Js.

Unset Elimination Schemes.

(** The result of [JSON.parse]. An object keeps its properties in insertion
    order. *)
Inductive JSON : Type :=
| JNull
| JBool (b : bool)
| JNum (x : Q)
| JStr (s : string)
| JArr (items : list JSON)
| JObj (props : list (string * JSON)).

Set Elimination Schemes.

Fixpoint assoc (k : string) (ps : list (string * JSON)) : option JSON :=
  match ps with
  | [] => None
  | (k', v) :: rest => if String.eqb k' k then Some v else assoc k rest
  end.

(** [o.k]: [None] is [undefined]. Among the values of [JSON] only objects
    carry the properties the program reads; it reads them from values the
    schema has accepted as objects (reading a property of [null] would
    throw). *)
Definition prop (k : string) (o : JSON) : option JSON :=
  match o with
  | JObj ps => assoc k ps
  | _ => None
  end.

Fixpoint assoc_set (k : string) (v : JSON) (ps : list (string * JSON))
  : list (string * JSON) :=
  match ps with
  | [] => [(k, v)]
  | (k', v') :: rest =>
      if String.eqb k' k then (k', v) :: rest else (k', v') :: assoc_set k v rest
  end.

(** [o.k = v] on an object; assignment to a property of a primitive is a
    TypeError in module code and is outside the model ([None]). *)
Definition set_prop (k : string) (v : JSON) (o : JSON) : option JSON :=
  match o with
  | JObj ps => Some (JObj (assoc_set k v ps))
  | _ => None
  end.

(** [!v] *)
Definition falsy (v : option JSON) : bool :=
  match v with
  | None => true
  | Some JNull => true
  | Some (JBool b) => negb b
  | Some (JNum x) => Qeq_bool x 0
  | Some (JStr s) => String.eqb s EmptyString
  | Some (JArr _) => false
  | Some (JObj _) => false
  end.

(** [Number.isInteger] *)
Definition isInteger (x : Q) : bool :=
  (Qnum x mod Zpos (Qden x) =? 0)%Z.

Definition is_digit (c : ascii) : bool :=
  (48 <=? nat_of_ascii c)%nat && (nat_of_ascii c <=? 57)%nat.

Definition is_hex_digit (c : ascii) : bool :=
  is_digit c
  || ((65 <=? nat_of_ascii c)%nat && (nat_of_ascii c <=? 70)%nat)
  || ((97 <=? nat_of_ascii c)%nat && (nat_of_ascii c <=? 102)%nat).

Definition digit_value (c : ascii) : Z := Z.of_nat (nat_of_ascii c) - 48.

Fixpoint digits_acc (s : string) (acc : Z) : option Z :=
  match s with
  | EmptyString => Some acc
  | String c r =>
      if is_digit c then digits_acc r (10 * acc + digit_value c) else None
  end.

(** [Number(s)] for a string of one to fifteen decimal digits, where the
    result is the decimal value and is exact. Other strings are outside the
    model ([None]): JavaScript would produce some number or NaN. *)
Definition Number (s : string) : option Z :=
  if ((1 <=? String.length s) && (String.length s <=? 15))%nat
  then digits_acc s 0 else None.

(** [s.split(sep)] for a one-character separator. *)
Fixpoint split (sep : ascii) (s : string) : list string :=
  match s with
  | EmptyString => [EmptyString]
  | String c r =>
      if Ascii.eqb c sep then EmptyString :: split sep r
      else match split sep r with
           | h :: t => String c h :: t
           | [] => [String c EmptyString]
           end
  end.

(** [parts.join(sep)] *)
Fixpoint join (sep : string) (parts : list string) : string :=
  match parts with
  | [] => EmptyString
  | [p] => p
  | p :: rest => (p ++ sep ++ join sep rest)%string
  end.

(** [s.includes(t)] *)
Fixpoint includes (t s : string) : bool :=
  String.prefix t s
  || match s with
     | EmptyString => false
     | String _ r => includes t r
     end.

(** Whether the character occurs in the string. *)
Fixpoint has_char (c : ascii) (s : string) : bool :=
  match s with
  | EmptyString => false
  | String c' r => Ascii.eqb c' c || has_char c r
  end.

(** [s.startsWith(t)] *)
Definition startsWith (t s : string) : bool := String.prefix t s.

Definition string_of_nat (n : nat) : string :=
  NilEmpty.string_of_uint (Nat.to_uint n).

(** [x < y] on numbers. *)
Definition number_lt (x y : Q) : bool := negb (Qle_bool y x).

(** A text whose length the program measures: UTF-16 code units. *)
Definition Text := list N.

(** White space and line terminators removed by [String.prototype.trim]. *)
Definition is_space (u : N) : bool :=
  ((9 <=? u) && (u <=? 13)
   || (u =? 32) || (u =? 160) || (u =? 5760)
   || ((8192 <=? u) && (u <=? 8202))
   || (u =? 8232) || (u =? 8233) || (u =? 8239) || (u =? 8287)
   || (u =? 12288) || (u =? 65279))%N.

Fixpoint trimStart (t : Text) : Text :=
  match t with
  | [] => []
  | u :: r => if is_space u then trimStart r else t
  end.

Definition trim (t : Text) : Text := rev (trimStart (rev (trimStart t))).

(** Code units of an ASCII literal. *)
Fixpoint text (s : string) : Text :=
  match s with
  | EmptyString => []
  | String c r => N_of_ascii c :: text r
  end.

End Js.
Import Js.

(* ================================================================== *)
(** * The schema library (zod), as far as the schemas use it *)
(* ================================================================== *)

Module Zod.

Inductive PathSeg := Key (k : string) | Index (i : nat).

Inductive IssueCode :=
| invalid_type | invalid_enum_value | invalid_string | too_small | too_big.

(** An issue of a failed parse. [issue_message] is the message given in the
    schema, or [None] for the library's default text. *)
Record ZodIssue := mkIssue {
  issue_code : IssueCode;
  issue_path : list PathSeg;
  issue_message : option string
}.

Inductive StringCheck :=
| SRegex (re : string -> bool) (msg : option string)
| SMin (n : nat) (msg : option string).

Inductive NumberCheck :=
| NInt
| NMin (v : Q)
| NMax (v : Q).

Unset Elimination Schemes.

Inductive Schema :=
| ZString (checks : list StringCheck)
| ZNumber (checks : list NumberCheck)
| ZEnum (values : list string)
| ZOptional (inner : Schema)
| ZNullable (inner : Schema)
| ZDefault (inner : Schema) (dflt : JSON)
| ZArray (element : Schema) (minLength : option (nat * option string))
| ZObject (shape : list (string * Schema)).

Set Elimination Schemes.

Definition string_check (path : list PathSeg) (s : string) (c : StringCheck)
  : list ZodIssue :=
  match c with
  | SRegex re msg => if re s then [] else [mkIssue invalid_string path msg]
  | SMin n msg =>
      if (String.length s <? n)%nat then [mkIssue too_small path msg] else []
  end.

Definition number_check (path : list PathSeg) (x : Q) (c : NumberCheck)
  : list ZodIssue :=
  match c with
  | NInt => if isInteger x then [] else [mkIssue invalid_type path None]
  | NMin v => if Qle_bool v x then [] else [mkIssue too_small path None]
  | NMax v => if Qle_bool x v then [] else [mkIssue too_big path None]
  end.

Fixpoint mem (s : string) (l : list string) : bool :=
  match l with
  | [] => false
  | x :: r => String.eqb x s || mem s r
  end.

Fixpoint flat_mapi {A B} (f : nat -> A -> list B) (i : nat) (l : list A)
  : list B :=
  match l with
  | [] => []
  | x :: r => f i x ++ flat_mapi f (S i) r
  end.

(** The issues of parsing [input] ([None] is [undefined]) against a schema;
    the parse succeeds when there are none. Unknown keys of an object are
    stripped without an issue. *)
Fixpoint parse (sc : Schema) (path : list PathSeg) (input : option JSON)
  {struct sc} : list ZodIssue :=
  match sc with
  | ZString checks =>
      match input with
      | Some (JStr s) => flat_map (string_check path s) checks
      | _ => [mkIssue invalid_type path None]
      end
  | ZNumber checks =>
      match input with
      | Some (JNum x) => flat_map (number_check path x) checks
      | _ => [mkIssue invalid_type path None]
      end
  | ZEnum values =>
      match input with
      | Some (JStr s) =>
          if mem s values then [] else [mkIssue invalid_enum_value path None]
      | _ => [mkIssue invalid_type path None]
      end
  | ZOptional inner =>
      match input with
      | None => []
      | _ => parse inner path input
      end
  | ZNullable inner =>
      match input with
      | Some JNull => []
      | _ => parse inner path input
      end
  | ZDefault inner dflt =>
      match input with
      | None => parse inner path (Some dflt)
      | _ => parse inner path input
      end
  | ZArray element minLength =>
      match input with
      | Some (JArr items) =>
          match minLength with
          | Some (n, msg) =>
              if (List.length items <? n)%nat
              then [mkIssue too_small path msg] else []
          | None => []
          end
          ++ flat_mapi
               (fun i x => parse element (path ++ [Index i]) (Some x)) 0 items
      | _ => [mkIssue invalid_type path None]
      end
  | ZObject shape =>
      match input with
      | Some (JObj ps) =>
          (fix fields (sh : list (string * Schema)) : list ZodIssue :=
             match sh with
             | [] => []
             | (k, s) :: rest =>
                 parse s (path ++ [Key k]) (assoc k ps) ++ fields rest
             end) shape
      | _ => [mkIssue invalid_type path None]
      end
  end.

Definition seg_string (p : PathSeg) : string :=
  match p with
  | Key k => k
  | Index i => string_of_nat i
  end.

End Zod.
Import Zod.

(* ================================================================== *)
(** * schemas/timetable.js *)
(* ================================================================== *)

Module Timetable.

(** [/^\d{1,2}:\d{2}$/] *)
Definition time_re (s : string) : bool :=
  match list_ascii_of_string s with
  | [h1; c; m1; m2] =>
      is_digit h1 && Ascii.eqb c ":" && is_digit m1 && is_digit m2
  | [h1; h2; c; m1; m2] =>
      is_digit h1 && is_digit h2 && Ascii.eqb c ":" && is_digit m1 && is_digit m2
  | _ => false
  end.

(** [/^#[0-9A-Fa-f]{6}$/] *)
Definition color_re (s : string) : bool :=
  match list_ascii_of_string s with
  | [h; a; b; c; d; e; f] =>
      Ascii.eqb h "#" && forallb is_hex_digit [a; b; c; d; e; f]
  | _ => false
  end.

Definition timeSchema : Schema :=
  ZString [SRegex time_re (Some "Invalid time format. Expected HH:MM")].

Definition daySchema : Schema :=
  ZEnum ["Monday"; "Tuesday"; "Wednesday"; "Thursday"; "Friday"; "Saturday";
         "Sunday"].

Definition subjectTypeSchema : Schema :=
  ZEnum ["academic"; "break"; "administrative"; "other"].

Definition timeBlockSchema : Schema :=
  ZObject
    [ ("id", ZOptional (ZString []));
      ("day", daySchema);
      ("start_time", timeSchema);
      ("end_time", timeSchema);
      ("duration_minutes", ZOptional (ZNumber [NInt; NMin 1]));
      ("subject", ZString [SMin 1 (Some "Subject name is required")]);
      ("subject_type", ZDefault (ZOptional subjectTypeSchema) (JStr "academic"));
      ("notes", ZNullable (ZOptional (ZString [])));
      ("color_code", ZNullable (ZOptional (ZString [SRegex color_re None])));
      ("room_location", ZNullable (ZOptional (ZString [])));
      ("confidence", ZDefault (ZOptional (ZNumber [NMin 0; NMax 1])) (JNum 1)) ].

Definition metadataSchema : Schema :=
  ZObject
    [ ("teacher_name", ZOptional (ZNullable (ZString [])));
      ("class_name", ZOptional (ZNullable (ZString [])));
      ("term", ZOptional (ZNullable (ZString [])));
      ("school_name", ZOptional (ZNullable (ZString [])));
      ("extraction_confidence", ZDefault (ZNumber [NMin 0; NMax 1]) (JNum (1 # 2))) ].

Definition timetableExtractionSchema : Schema :=
  ZObject
    [ ("metadata", metadataSchema);
      ("timeblocks",
        ZArray timeBlockSchema (Some (1%nat, Some "At least one timeblock is required"))) ].

(** The result of [safeParse], as far as the program reads it: [success] and
    [error.errors]. *)
Record SafeParse := mkSafeParse {
  success : bool;
  error_errors : list ZodIssue
}.

Definition safeParse (sc : Schema) (data : option JSON) : SafeParse :=
  let issues := parse sc [] data in
  mkSafeParse (match issues with [] => true | _ => false end) issues.

Definition validateTimetable (data : option JSON) : SafeParse :=
  safeParse timetableExtractionSchema data.

(** [const [hour, min] = time.split(':').map(Number)]. [None] when the value
    is outside the fragment [Number] covers. *)
Definition hour_min (time : option JSON) : option (Z * Z) :=
  match time with
  | Some (JStr s) =>
      match split ":" s with
      | h :: m :: _ =>
          match Number h, Number m with
          | Some hour, Some min => Some (hour, min)
          | _, _ => None
          end
      | _ => None
      end
  | _ => None
  end.

(** An entry pushed by [validateTimeRanges]; [severity] is absent on a hard
    error. *)
Record RangeError := mkRangeError {
  block : JSON;
  error : string;
  severity : option string
}.

Definition check_block (block : JSON) : option (list RangeError) :=
  match hour_min (prop "start_time" block), hour_min (prop "end_time" block) with
  | Some (startHour, startMin), Some (endHour, endMin) =>
      let startMinutes := startHour * 60 + startMin in
      let endMinutes := endHour * 60 + endMin in
      Some
        ((if endMinutes <=? startMinutes
          then [mkRangeError block "End time must be after start time" None]
          else [])
         ++
         (if (startHour <? 5) || (endHour >? 23)
          then [mkRangeError block "Time outside reasonable school hours"
                  (Some "warning")]
          else []))
  | _, _ => None
  end.

(** The loop of [validateTimeRanges]: the entries of every block, in order. *)
Fixpoint validateTimeRanges (timeblocks : list JSON) : option (list RangeError) :=
  match timeblocks with
  | [] => Some []
  | block :: rest =>
      match check_block block, validateTimeRanges rest with
      | Some errs, Some more => Some (errs ++ more)
      | _, _ => None
      end
  end.

(** The callback of [timeblocks.map] in [enrichTimeBlocks]. The block is
    updated in place and returned. *)
Definition enrichBlock (block : JSON) : option JSON :=
  if falsy (prop "duration_minutes" block) then
    match hour_min (prop "start_time" block), hour_min (prop "end_time" block) with
    | Some (startHour, startMin), Some (endHour, endMin) =>
        let duration := (endHour * 60 + endMin) - (startHour * 60 + startMin) in
        set_prop "duration_minutes" (JNum (inject_Z duration)) block
    | _, _ => None
    end
  else Some block.

Fixpoint enrichTimeBlocks (timeblocks : list JSON) : option (list JSON) :=
  match timeblocks with
  | [] => Some []
  | block :: rest =>
      match enrichBlock block, enrichTimeBlocks rest with
      | Some b, Some bs => Some (b :: bs)
      | _, _ => None
      end
  end.

End Timetable.
Import Timetable.

(* ================================================================== *)
(** * services/fileProcessor.js: validateExtraction *)
(* ================================================================== *)

Module Validation.

(** An entry of [errors] or [warnings] handed to the caller. *)
Inductive Report :=
| FieldReport (path : string) (message : option string) (code : IssueCode)
| BlockReport (block : option JSON) (message : string).

Record ExtractionResult := mkExtraction {
  metadata : option JSON;
  timeblocks : list JSON
}.

(** The three objects [validateExtraction] returns. *)
Inductive Validated :=
| SchemaInvalid (errors : list Report)
| RangesInvalid (errors : list Report) (warnings : list RangeError)
| Valid (enrichedData : ExtractionResult) (warnings : list Report).

Definition isValid (v : Validated) : bool :=
  match v with
  | Valid _ _ => true
  | _ => false
  end.

Definition is_warning (e : RangeError) : bool :=
  match severity e with
  | Some s => String.eqb s "warning"
  | None => false
  end.

Definition is_error (e : RangeError) : bool :=
  match severity e with
  | None => true
  | Some s => String.eqb s EmptyString || String.eqb s "error"
  end.

Definition issue_report (err : ZodIssue) : Report :=
  FieldReport (join "." (map seg_string (issue_path err)))
    (issue_message err) (issue_code err).

Definition block_report (e : RangeError) : Report :=
  BlockReport (prop "subject" (block e)) (error e).

(** [data.timeblocks], when it is an array. *)
Definition data_timeblocks (data : option JSON) : option (list JSON) :=
  match data with
  | Some d => match prop "timeblocks" d with
              | Some (JArr items) => Some items
              | _ => None
              end
  | None => None
  end.

Definition data_metadata (data : option JSON) : option JSON :=
  match data with
  | Some d => prop "metadata" d
  | None => None
  end.

(** [validateExtraction]. The business checks and the enrichment read the
    candidate itself, not the output of the schema parse. The result is
    [None] only where the candidate is outside the fragment the model
    covers ([timeblocks] not an array, a time outside the fragment of
    [Number]), which the schema excludes: see [validateExtraction_total]. *)
Definition validateExtraction (data : option JSON) : option Validated :=
  let schemaValidation := validateTimetable data in
  if negb (success schemaValidation) then
    Some (SchemaInvalid (map issue_report (error_errors schemaValidation)))
  else
    match data_timeblocks data with
    | None => None
    | Some blocks =>
        match validateTimeRanges blocks with
        | None => None
        | Some timeRangeErrors =>
            let warnings := filter is_warning timeRangeErrors in
            let errors := filter is_error timeRangeErrors in
            if (0 <? List.length errors)%nat then
              Some (RangesInvalid (map block_report errors) warnings)
            else
              match enrichTimeBlocks blocks with
              | None => None
              | Some enrichedTimeblocks =>
                  Some (Valid (mkExtraction (data_metadata data) enrichedTimeblocks)
                          (map block_report warnings))
              end
        end
    end.

(** [duration_minutes] of a block the schema accepts: absent, or an integer
    that is at least one. *)
Definition duration_wf (d : option JSON) : Prop :=
  d = None \/ exists x, d = Some (JNum x) /\ isInteger x = true /\ (1 <= x)%Q.

Record block_wf (b : JSON) : Prop := mk_block_wf {
  wf_object : exists ps, b = JObj ps;
  wf_start : exists s, prop "start_time" b = Some (JStr s) /\ time_re s = true;
  wf_end : exists s, prop "end_time" b = Some (JStr s) /\ time_re s = true;
  wf_duration : duration_wf (prop "duration_minutes" b);
  wf_subject : exists s, prop "subject" b = Some (JStr s) /\ s <> EmptyString
}.

End Validation.
Import Validation.

(* ================================================================== *)
(** * Effects: exceptions and the trace of external calls *)
(* ================================================================== *)

Module Run.

Definition Buffer := list Byte.byte.

Inductive Details :=
| DText (s : string)
| DStack
| DReports (l : list Report).

(** A thrown value: an [Error] (no [code]) or one of the plain objects the
    program throws. An absent property is [None]. *)
Record Thrown := mkThrown {
  code : option string;
  message : option string;
  details : option Details
}.

(** [new Error(msg)] *)
Definition Error (msg : string) : Thrown := mkThrown None (Some msg) None.

Inductive Provider := OpenAI | Anthropic.

Inductive Prompt :=
| VisionPrompt (image : Buffer) (mimeType : string)
| TextPrompt (content : Text).

(** A call that leaves the program. *)
Inductive Event :=
| EnterImageProcessor
| EnterPdfProcessor
| Sharp (image : Buffer)
| Tesseract (image : Buffer)
| PdfParse (file : Buffer)
| Chat (provider : Provider) (prompt : Prompt).

(** What an external call answers. *)
Inductive Result (A : Type) :=
| Ok (a : A)
| Err (e : Thrown).
Arguments Ok {A} a.
Arguments Err {A} e.

(** How a run of a function ends. [Unmodelled] marks a run that left the
    fragment the model covers; [processFile_modelled] shows none does. *)
Inductive Outcome (A : Type) :=
| Returned (a : A)
| Threw (e : Thrown)
| Unmodelled.
Arguments Returned {A} a.
Arguments Threw {A} e.
Arguments Unmodelled {A}.

(** A computation: its outcome and the external calls it made, in order. *)
Definition M (A : Type) : Type := Outcome A * list Event.

Definition ret {A} (a : A) : M A := (Returned a, []).

Definition throw {A} (e : Thrown) : M A := (Threw e, []).

Definition bind {A B} (m : M A) (f : A -> M B) : M B :=
  match m with
  | (Returned a, t) => let (r, t') := f a in (r, t ++ t')
  | (Threw e, t) => (Threw e, t)
  | (Unmodelled, t) => (Unmodelled, t)
  end.

(** [try { m } catch (e) { handler e }] *)
Definition try_catch {A} (m : M A) (handler : Thrown -> M A) : M A :=
  match m with
  | (Threw e, t) => let (r, t') := handler e in (r, t ++ t')
  | other => other
  end.

(** An external call, recorded. *)
Definition call {A} (ev : Event) (r : Result A) : M A :=
  match r with
  | Ok a => (Returned a, [ev])
  | Err e => (Threw e, [ev])
  end.

(** A built-in that may throw but is not traced. *)
Definition lift {A} (r : Result A) : M A :=
  match r with
  | Ok a => ret a
  | Err e => throw e
  end.

Definition modelled {A} (o : option A) : M A :=
  match o with
  | Some a => ret a
  | None => (Unmodelled, [])
  end.

Definition is_ocr_call (ev : Event) : bool :=
  match ev with
  | Tesseract _ => true
  | _ => false
  end.

Definition is_text_chat (ev : Event) : bool :=
  match ev with
  | Chat _ (TextPrompt _) => true
  | _ => false
  end.

Definition is_vision_chat (ev : Event) : bool :=
  match ev with
  | Chat _ (VisionPrompt _ _) => true
  | _ => false
  end.

Definition count (p : Event -> bool) (t : list Event) : nat :=
  List.length (filter p t).

Definition outcome {A} (m : M A) : Outcome A := fst m.
Definition trace {A} (m : M A) : list Event := snd m.

(** A run stays inside the model. *)
Definition inside {A} (m : M A) : Prop := outcome m <> Unmodelled.

Declare Scope run_scope.
Delimit Scope run_scope with run.
Notation "x <- m ;; k" := (bind m (fun x => k))
  (at level 61, m at next level, right associativity) : run_scope.

End Run.
Import Run.

(* ================================================================== *)
(** * config/index.js and the world outside the program *)
(* ================================================================== *)

Module Environment.

Record LlmConfig := mkLlmConfig {
  model : string;
  maxTokens : Z;
  temperature : Q
}.

(** The [config] object. [anthropicApiKey] is read by the Anthropic client;
    config/index.js itself defines no such property, so it is [None] there. *)
Record Config := mkConfig {
  openaiApiKey : option string;
  anthropicApiKey : option string;
  maxFileSize : Z;
  allowedFileTypes : list string;
  ocrConfidenceThreshold : Q;
  enableOCR : bool;
  enableLLMVision : bool;
  llm : LlmConfig
}.

Record PdfData := mkPdfData {
  numpages : Z;
  pdf_text : Text
}.

(** What the OCR worker reports: creating the worker, [recognize] and
    [terminate] are one call here. The confidence is on the scale 0-100. *)
Record Recognized := mkRecognized {
  ocr_text : Text;
  ocr_confidence : Q
}.

Record Reply := mkReply {
  reply_content : string;
  reply_tokens : Z
}.

(** Everything the program reaches outside itself. The numeric fields stand
    for double arithmetic and formatting, which the model does not fix. *)
Record World := mkWorld {
  config : Config;
  sharp : Buffer -> Result Buffer;
  recognize : Buffer -> Result Recognized;
  pdfParse : Buffer -> Result PdfData;
  create : Provider -> Prompt -> Result Reply;
  JSON_parse : string -> Result JSON;
  number_div : Q -> Q -> Q;
  number_mul : Q -> Q -> Q;
  toFixed : nat -> Q -> string;
  number_toString : Q -> string;
  requestId : string;
  timestamp : string
}.

(** Truthiness of a string property. *)
Definition truthy (s : option string) : bool :=
  match s with
  | Some v => negb (String.eqb v EmptyString)
  | None => false
  end.

End Environment.
Import Environment.

(* ================================================================== *)
(** * The LLM clients *)
(* ================================================================== *)

Module Llm.

Local Open Scope run_scope.

Record LlmMeta := mkLlmMeta {
  meta_model : string;
  tokensUsed : Z
}.

Record LlmResult := mkLlmResult {
  llm_data : JSON;
  llm_metadata : LlmMeta
}.

(** The interface both clients export. *)
Record LlmService := mkLlmService {
  isConfigured : bool;
  extractWithVision : Buffer -> string -> M LlmResult;
  extractFromText : Text -> M LlmResult
}.

(** The suffix that starts at the first opening brace. *)
Fixpoint from_first_open (s : string) : option string :=
  match s with
  | EmptyString => None
  | String c r => if Ascii.eqb c "{" then Some s else from_first_open r
  end.

(** The longest prefix that ends with a closing brace. *)
Fixpoint upto_last_close (s : string) : option string :=
  match s with
  | EmptyString => None
  | String c r =>
      match upto_last_close r with
      | Some p => Some (String c p)
      | None => if Ascii.eqb c "}" then Some (String c EmptyString) else None
      end
  end.

(** [responseText.match(/\{[\s\S]*\}/)]: the match starts at the leftmost
    opening brace and, the star being greedy, ends at the last closing brace
    after it. *)
Definition brace_match (responseText : string) : option string :=
  match from_first_open responseText with
  | Some t => upto_last_close t
  | None => None
  end.

Section OpenAIClient.
Variable w : World.

Definition openai_configured : bool := truthy (openaiApiKey (config w)).

(** Both functions of the OpenAI client end with the same lines:
    [JSON.parse(response.choices[0].message.content)]. *)
Definition openai_request (prompt : Prompt) : M LlmResult :=
  if negb openai_configured then throw (Error "OpenAI API key not configured")
  else
    try_catch
      (response <- call (Chat OpenAI prompt) (create w OpenAI prompt) ;;
       let responseText := reply_content response in
       extractedData <- lift (JSON_parse w responseText) ;;
       ret (mkLlmResult extractedData
              (mkLlmMeta (model (llm (config w))) (reply_tokens response))))
      (fun error => throw error).

Definition openai_extractWithVision (imageBuffer : Buffer) (mimeType : string)
  : M LlmResult :=
  openai_request (VisionPrompt imageBuffer mimeType).

Definition openai_extractFromText (text : Text) : M LlmResult :=
  openai_request (TextPrompt text).

Definition openaiService : LlmService :=
  mkLlmService openai_configured openai_extractWithVision openai_extractFromText.
End OpenAIClient.

Section AnthropicClient.
Variable w : World.

Definition anthropic_configured : bool := truthy (anthropicApiKey (config w)).

(** Both functions of the Anthropic client end with the same lines: the
    brace pattern, then [JSON.parse(jsonMatch[0])]. *)
Definition anthropic_request (prompt : Prompt) : M LlmResult :=
  if negb anthropic_configured
  then throw (Error "Anthropic API key not configured")
  else
    try_catch
      (message <- call (Chat Anthropic prompt) (create w Anthropic prompt) ;;
       let responseText := reply_content message in
       match brace_match responseText with
       | None => throw (Error "Failed to extract JSON from LLM response")
       | Some jsonMatch =>
           extractedData <- lift (JSON_parse w jsonMatch) ;;
           ret (mkLlmResult extractedData
                  (mkLlmMeta (model (llm (config w))) (reply_tokens message)))
       end)
      (fun error => throw error).

Definition anthropic_extractWithVision (imageBuffer : Buffer) (mimeType : string)
  : M LlmResult :=
  anthropic_request (VisionPrompt imageBuffer mimeType).

Definition anthropic_extractFromText (text : Text) : M LlmResult :=
  anthropic_request (TextPrompt text).

Definition anthropicService : LlmService :=
  mkLlmService anthropic_configured anthropic_extractWithVision
    anthropic_extractFromText.
End AnthropicClient.

(** The module bound to [./llmService.js]. *)
Definition llmService (w : World) (p : Provider) : LlmService :=
  match p with
  | OpenAI => openaiService w
  | Anthropic => anthropicService w
  end.

End Llm.
Import Llm.

(* ================================================================== *)
(** * services/pdfProcessor.js and services/imageProcessor.js *)
(* ================================================================== *)

Module Processors.

Local Open Scope run_scope.

(** The object a processor returns; an absent property is [None]. *)
Record Processed := mkProcessed {
  p_success : bool;
  p_data : option JSON;
  p_metadata : option LlmMeta;
  p_extractionMethod : option string;
  p_ocrConfidence : option Q;
  p_error : option string;
  p_rawText : option Text
}.

(** [{ success: true, ...result, extractionMethod }] *)
Definition extracted (result : LlmResult) (method : string) (conf : option Q)
  : Processed :=
  mkProcessed true (Some (llm_data result)) (Some (llm_metadata result))
    (Some method) conf None None.

Definition pdf_scanned_message : string :=
  "PDF appears to be a scanned image. Please convert to PNG/JPEG and upload again, or the PDF may be empty.".

Definition pdf_failed_details : string :=
  "Failed to extract text from PDF. The file may be corrupted, password-protected, or a scanned image.".

Definition image_failed_details : string :=
  "Failed to extract timetable from image. The image may be unclear, corrupted, or in an unsupported format.".

Definition ocr_short_message : string :=
  "Insufficient text extracted from image. Image may be unclear or contain no timetable data.".

Definition no_method_message : string :=
  "No extraction method available. Enable LLM Vision or OCR in configuration.".

Section WithWorld.
Variable w : World.
Variable svc : LlmService.

Definition processPDF (fileBuffer : Buffer) : M Processed :=
  _ <- call EnterPdfProcessor (Ok tt) ;;
  try_catch
    (pdfData <- call (PdfParse fileBuffer) (pdfParse w fileBuffer) ;;
     if negb (Nat.eqb (List.length (pdf_text pdfData)) 0)
        && (50 <? List.length (trim (pdf_text pdfData)))%nat
     then
       result <- extractFromText svc (pdf_text pdfData) ;;
       ret (extracted result "pdf-parse + llm-text" None)
     else throw (Error pdf_scanned_message))
    (fun error =>
       throw (mkThrown (Some "PDF_PROCESSING_FAILED") (message error)
                (Some (DText pdf_failed_details)))).

(** [preprocessImage]: the original buffer when sharp fails. *)
Definition preprocessImage (imageBuffer : Buffer) : M Buffer :=
  try_catch (call (Sharp imageBuffer) (sharp w imageBuffer))
    (fun _ => ret imageBuffer).

Definition performOCR (imageBuffer : Buffer) : M Recognized :=
  try_catch
    (r <- call (Tesseract imageBuffer) (recognize w imageBuffer) ;;
     ret (mkRecognized (ocr_text r) (number_div w (ocr_confidence r) 100)))
    (fun error => throw error).

Definition ocr_low_message (confidence : Q) : string :=
  ("OCR confidence too low ("
   ++ toFixed w 1 (number_mul w confidence 100)
   ++ "%). Image quality may be insufficient. Try a clearer image.")%string.

Definition extractWithOCR (imageBuffer : Buffer) : M Processed :=
  ocrResult <- performOCR imageBuffer ;;
  if number_lt (ocr_confidence ocrResult) (ocrConfidenceThreshold (config w))
  then throw (Error (ocr_low_message (ocr_confidence ocrResult)))
  else if Nat.eqb (List.length (ocr_text ocrResult)) 0
          || (List.length (trim (ocr_text ocrResult)) <? 50)%nat
  then throw (Error ocr_short_message)
  else if isConfigured svc then
    result <- extractFromText svc (ocr_text ocrResult) ;;
    ret (extracted result "ocr + llm-text" (Some (ocr_confidence ocrResult)))
  else
    ret (mkProcessed false None None None
           (Some (ocr_confidence ocrResult))
           (Some "LLM not configured for text parsing")
           (Some (ocr_text ocrResult))).

Definition processImage (fileBuffer : Buffer) (mimeType : string) : M Processed :=
  _ <- call EnterImageProcessor (Ok tt) ;;
  try_catch
    (processedImage <- preprocessImage fileBuffer ;;
     if enableLLMVision (config w) && isConfigured svc then
       try_catch
         (result <- extractWithVision svc processedImage mimeType ;;
          ret (extracted result "claude-vision" None))
         (fun visionError =>
            if enableOCR (config w) then extractWithOCR processedImage
            else throw visionError)
     else if enableOCR (config w) then extractWithOCR processedImage
     else throw (Error no_method_message))
    (fun error =>
       throw (mkThrown (Some "IMAGE_PROCESSING_FAILED") (message error)
                (Some (DText image_failed_details)))).

End WithWorld.

End Processors.
Import Processors.

(* ================================================================== *)
(** * services/fileProcessor.js: processFile *)
(* ================================================================== *)

Module FileProcessor.

Local Open Scope run_scope.

(** [metadata] of a successful result:
    [{ ...result.metadata, extractionMethod, filename, fileType,
       validationWarnings }]. *)
Record ResultMeta := mkResultMeta {
  rm_llm : option LlmMeta;
  rm_extractionMethod : option string;
  rm_filename : string;
  rm_fileType : string;
  validationWarnings : list Report
}.

(** The two objects [processFile] returns. *)
Inductive FileResult :=
| Extracted (data : ExtractionResult) (metadata : ResultMeta)
| ValidationFailed (error : Thrown) (partialData : option JSON)
    (extractionMethod : option string).

(** [result.success] *)
Definition result_success (r : FileResult) : bool :=
  match r with
  | Extracted _ _ => true
  | ValidationFailed _ _ _ => false
  end.

(** [result.data] and [result.metadata], absent on the second object. *)
Definition result_data (r : FileResult) : option ExtractionResult :=
  match r with
  | Extracted d _ => Some d
  | ValidationFailed _ _ _ => None
  end.

Definition result_metadata (r : FileResult) : option ResultMeta :=
  match r with
  | Extracted _ m => Some m
  | ValidationFailed _ _ _ => None
  end.

Definition validation_errors (v : Validated) : list Report :=
  match v with
  | SchemaInvalid errors => errors
  | RangesInvalid errors _ => errors
  | Valid _ _ => []
  end.

Definition unsupported (mimetype : string) : Thrown :=
  mkThrown (Some "UNSUPPORTED_FILE_TYPE")
    (Some ("File type " ++ mimetype ++ " is not supported")%string)
    (Some (DText "Supported types: image/png, image/jpeg, application/pdf")).

Section WithWorld.
Variable w : World.
Variable svc : LlmService.

(** The routing at the head of [processFile]. *)
Definition route (fileBuffer : Buffer) (mimetype : string) : M Processed :=
  if startsWith "image/" mimetype then processImage w svc fileBuffer mimetype
  else if String.eqb mimetype "application/pdf" then processPDF w svc fileBuffer
  else throw (unsupported mimetype).

Definition processFile (fileBuffer : Buffer) (mimetype filename : string)
  : M FileResult :=
  try_catch
    (result <- route fileBuffer mimetype ;;
     validation <- modelled (validateExtraction (p_data result)) ;;
     match validation with
     | Valid enrichedData warnings =>
         ret (Extracted enrichedData
                (mkResultMeta (p_metadata result) (p_extractionMethod result)
                   filename mimetype warnings))
     | _ =>
         ret (ValidationFailed
                (mkThrown (Some "VALIDATION_FAILED")
                   (Some "Extracted data failed validation")
                   (Some (DReports (validation_errors validation))))
                (p_data result) (p_extractionMethod result))
     end)
    (fun error =>
       if truthy (code error) then throw error
       else throw (mkThrown (Some "PROCESSING_FAILED")
                     (if truthy (message error) then message error
                      else Some "An unexpected error occurred during processing")
                     (Some DStack))).

End WithWorld.

Definition isFileTypeSupported (mimetype : string) : bool :=
  mem mimetype ["image/png"; "image/jpeg"; "application/pdf"].

End FileProcessor.
Import FileProcessor.

(* ================================================================== *)
(** * controllers/extractController.js, middleware/upload.js, the route *)
(* ================================================================== *)

Module Http.

Local Open Scope run_scope.

(** The uploaded part as multer presents it. *)
Record Upload := mkUpload {
  fieldname : string;
  originalname : string;
  mimetype : string;
  buffer : Buffer
}.

Record ErrorBody := mkErrorBody {
  err_code : string;
  err_message : string;
  err_details : option Details;
  err_requestId : option string
}.

(** [{ ...result.metadata, requestId, timestamp }] *)
Record ResponseMeta := mkResponseMeta {
  of_result : option ResultMeta;
  meta_requestId : string;
  meta_timestamp : string
}.

(** [res.status(status).json(body)] *)
Record Response := mkResponse {
  status : Z;
  body_success : bool;
  body_data : option ExtractionResult;
  body_metadata : option ResponseMeta;
  body_error : option ErrorBody
}.

Definition code_is (c : option string) (s : string) : bool :=
  match c with
  | Some v => String.eqb v s
  | None => false
  end.

(** [error.code?.includes(s)] *)
Definition code_includes (c : option string) (s : string) : bool :=
  match c with
  | Some v => includes s v
  | None => false
  end.

(** The text between double quotes. *)
Definition quoted (s : string) : string :=
  (String (ascii_of_nat 34) s ++ String (ascii_of_nat 34) EmptyString)%string.

Definition or_default (s : option string) (d : string) : string :=
  match s with
  | Some v => if String.eqb v EmptyString then d else v
  | None => d
  end.

(** The status chosen in the [catch] of [extractTimetable]. *)
Definition statusCode_of (c : option string) : Z :=
  let statusCode := 500 in
  let statusCode := if code_is c "UNSUPPORTED_FILE_TYPE" then 415 else statusCode in
  let statusCode := if code_is c "VALIDATION_FAILED" then 422 else statusCode in
  let statusCode := if code_is c "FILE_TOO_LARGE" then 413 else statusCode in
  let statusCode := if code_includes c "INVALID" then 400 else statusCode in
  statusCode.

Section WithWorld.
Variable w : World.
Variable svc : LlmService.

Definition extractTimetable (file : option Upload) : M Response :=
  try_catch
    (match file with
     | None =>
         ret (mkResponse 400 false None None
                (Some (mkErrorBody "NO_FILE_PROVIDED"
                         "No file was uploaded. Please provide a file in the request."
                         None None)))
     | Some f =>
         result <- processFile w svc (buffer f) (mimetype f) (originalname f) ;;
         ret (mkResponse 200 true (result_data result)
                (Some (mkResponseMeta (result_metadata result)
                         (requestId w) (timestamp w)))
                None)
     end)
    (fun error =>
       ret (mkResponse (statusCode_of (code error)) false None None
              (Some (mkErrorBody (or_default (code error) "INTERNAL_ERROR")
                       (or_default (message error) "An unexpected error occurred")
                       (details error) (Some (requestId w)))))).

(** [fileFilter]: the error handed to the callback, if any. *)
Definition fileFilter (file : Upload) : Result bool :=
  if negb (mem (mimetype file) (allowedFileTypes (config w))) then
    Err (mkThrown (Some "UNSUPPORTED_FILE_TYPE")
           (Some ("File type " ++ mimetype file
                  ++ " is not supported. Allowed types: "
                  ++ join ", " (allowedFileTypes (config w)))%string)
           None)
  else Ok true.

(** What reaches the error-handling middleware. *)
Inductive UploadError :=
| MulterError (code : string) (message : string)
| FilterError (e : Thrown).

(** [upload.single('file')] of multer with memory storage, [fileFilter]
    and [limits.fileSize], as far as the route depends on it: the accepted
    file, or the error passed on. The field name is checked before the
    filter runs, the size while the file is read. *)
Definition upload_single (part : option Upload) : UploadError + option Upload :=
  match part with
  | None => inr None
  | Some f =>
      if negb (String.eqb (fieldname f) "file")
      then inl (MulterError "LIMIT_UNEXPECTED_FILE" "Unexpected field")
      else match fileFilter f with
           | Err e => inl (FilterError e)
           | Ok false => inr None
           | Ok true =>
               if maxFileSize (config w) <? Z.of_nat (List.length (buffer f))
               then inl (MulterError "LIMIT_FILE_SIZE" "File too large")
               else inr (Some f)
           end
  end.

(** [errorHandler] of middleware/errorHandler.js (no [statusCode] is ever
    set on the errors that reach it). *)
Definition errorHandler (err : Thrown) : Response :=
  mkResponse 500 false None None
    (Some (mkErrorBody (or_default (code err) "INTERNAL_SERVER_ERROR")
             (or_default (message err) "An unexpected error occurred")
             None None)).

Definition handleMulterError (err : UploadError) : Response :=
  match err with
  | MulterError c m =>
      if String.eqb c "LIMIT_FILE_SIZE" then
        mkResponse 413 false None None
          (Some (mkErrorBody "FILE_TOO_LARGE"
                   ("File size exceeds maximum allowed size of "
                    ++ number_toString w
                         (number_div w
                            (number_div w (inject_Z (maxFileSize (config w))) 1024)
                            1024)
                    ++ "MB")%string
                   None None))
      else if String.eqb c "LIMIT_UNEXPECTED_FILE" then
        mkResponse 400 false None None
          (Some (mkErrorBody "INVALID_REQUEST"
                   ("Unexpected file field. Use field name "
                    ++ quoted "file")%string
                   None None))
      else
        mkResponse 400 false None None
          (Some (mkErrorBody "UPLOAD_ERROR" m None None))
  | FilterError e =>
      if code_is (code e) "UNSUPPORTED_FILE_TYPE" then
        mkResponse 415 false None None
          (Some (mkErrorBody (or_default (code e) EmptyString)
                   (or_default (message e) EmptyString) None None))
      else errorHandler e
  end.

(** [router.post('/extract', upload.single('file'), handleMulterError,
    extractTimetable)] *)
Definition postExtract (part : option Upload) : M Response :=
  match upload_single part with
  | inl err => ret (handleMulterError err)
  | inr file => extractTimetable file
  end.

End WithWorld.

End Http.
Import Http.

(* ================================================================== *)
(** * A reference reading of JSON.parse *)
(* ================================================================== *)

(** The grammar of JSON text, used to run concrete requests. The general
    statements below hold for any [JSON_parse] of the world. A number is
    given its exact decimal value, a [\u] escape is written in UTF-8, and
    the message of the syntax error is the engine's own. *)
Module JsonText.

Definition is_char (n : nat) (c : ascii) : bool := (nat_of_ascii c =? n)%nat.

Definition is_ws (c : ascii) : bool :=
  is_char 32 c || is_char 9 c || is_char 10 c || is_char 13 c.

Fixpoint skip_ws (s : list ascii) : list ascii :=
  match s with
  | c :: r => if is_ws c then skip_ws r else s
  | [] => []
  end.

Fixpoint take_digits (s : list ascii) : list ascii * list ascii :=
  match s with
  | c :: r =>
      if is_digit c
      then let (d, rest) := take_digits r in (c :: d, rest)
      else ([], s)
  | [] => ([], [])
  end.

Definition digits_Z (ds : list ascii) : Z :=
  fold_left (fun acc c => 10 * acc + digit_value c) ds 0.

(** [m * 10^e] *)
Definition scale (m e : Z) : Q :=
  if 0 <=? e then inject_Z (m * 10 ^ e)
  else Qred (Qmake m (Z.to_pos (10 ^ (- e)))).

Definition parse_fraction (s : list ascii) : option (list ascii * list ascii) :=
  match s with
  | c :: r =>
      if is_char 46 c then
        let (f, r') := take_digits r in
        match f with
        | [] => None
        | _ => Some (f, r')
        end
      else Some ([], s)
  | [] => Some ([], s)
  end.

Definition parse_exponent (s : list ascii) : option (Z * list ascii) :=
  match s with
  | c :: r =>
      if is_char 101 c || is_char 69 c then
        let '(sgn, r1) :=
          match r with
          | d :: r' =>
              if is_char 43 d then (1, r')
              else if is_char 45 d then (-1, r')
              else (1, r)
          | [] => (1, r)
          end in
        let (ds, r2) := take_digits r1 in
        match ds with
        | [] => None
        | _ => Some (sgn * digits_Z ds, r2)
        end
      else Some (0, s)
  | [] => Some (0, s)
  end.

Definition parse_number (s : list ascii) : option (Q * list ascii) :=
  let '(neg, s1) :=
    match s with
    | c :: r => if is_char 45 c then (true, r) else (false, s)
    | [] => (false, s)
    end in
  let (int, s2) := take_digits s1 in
  match int with
  | [] => None
  | z :: _ :: _ => if is_char 48 z then None else
      match parse_fraction s2 with
      | None => None
      | Some (frac, s3) =>
          match parse_exponent s3 with
          | None => None
          | Some (e, s4) =>
              let m := digits_Z (int ++ frac) in
              Some (scale (if neg then - m else m)
                      (e - Z.of_nat (List.length frac)), s4)
          end
      end
  | _ =>
      match parse_fraction s2 with
      | None => None
      | Some (frac, s3) =>
          match parse_exponent s3 with
          | None => None
          | Some (e, s4) =>
              let m := digits_Z (int ++ frac) in
              Some (scale (if neg then - m else m)
                      (e - Z.of_nat (List.length frac)), s4)
          end
      end
  end.

Definition hex_value (c : ascii) : option Z :=
  let n := nat_of_ascii c in
  if is_digit c then Some (Z.of_nat n - 48)
  else if ((65 <=? n) && (n <=? 70))%nat then Some (Z.of_nat n - 55)
  else if ((97 <=? n) && (n <=? 102))%nat then Some (Z.of_nat n - 87)
  else None.

Definition hex4 (a b c d : ascii) : option Z :=
  match hex_value a, hex_value b, hex_value c, hex_value d with
  | Some x, Some y, Some z, Some t => Some (((x * 16 + y) * 16 + z) * 16 + t)
  | _, _, _, _ => None
  end.

Definition byte_of (n : Z) : ascii := ascii_of_nat (Z.to_nat n).

Definition utf8 (n : Z) : list ascii :=
  if n <? 128 then [byte_of n]
  else if n <? 2048 then [byte_of (192 + n / 64); byte_of (128 + n mod 64)]
  else [byte_of (224 + n / 4096); byte_of (128 + (n / 64) mod 64);
        byte_of (128 + n mod 64)].

Definition escape (c : ascii) : option ascii :=
  if is_char 34 c || is_char 92 c || is_char 47 c then Some c
  else if is_char 98 c then Some (ascii_of_nat 8)
  else if is_char 102 c then Some (ascii_of_nat 12)
  else if is_char 110 c then Some (ascii_of_nat 10)
  else if is_char 114 c then Some (ascii_of_nat 13)
  else if is_char 116 c then Some (ascii_of_nat 9)
  else None.

(** The characters of a string literal after its opening quote. *)
Fixpoint parse_chars (s : list ascii) (acc : list ascii)
  : option (string * list ascii) :=
  match s with
  | [] => None
  | c :: r =>
      if is_char 34 c then Some (string_of_list_ascii (rev acc), r)
      else if is_char 92 c then
        match r with
        | e :: r' =>
            if is_char 117 e then
              match r' with
              | h1 :: h2 :: h3 :: h4 :: r'' =>
                  match hex4 h1 h2 h3 h4 with
                  | Some n => parse_chars r'' (rev (utf8 n) ++ acc)
                  | None => None
                  end
              | _ => None
              end
            else
              match escape e with
              | Some x => parse_chars r' (x :: acc)
              | None => None
              end
        | [] => None
        end
      else if (nat_of_ascii c <? 32)%nat then None
      else parse_chars r (c :: acc)
  end.

Definition literal (word : string) (v : JSON) (s : list ascii)
  : option (JSON * list ascii) :=
  let n := String.length word in
  if list_eq_dec ascii_dec (firstn n s) (list_ascii_of_string word)
  then Some (v, skipn n s) else None.

Fixpoint parse_value (fuel : nat) (s : list ascii) {struct fuel}
  : option (JSON * list ascii) :=
  match fuel with
  | O => None
  | S fuel =>
      match skip_ws s with
      | [] => None
      | c :: r =>
          if is_char 123 c then
            match skip_ws r with
            | c' :: r' =>
                if is_char 125 c' then Some (JObj [], r')
                else parse_members fuel (c' :: r') []
            | [] => None
            end
          else if is_char 91 c then
            match skip_ws r with
            | c' :: r' =>
                if is_char 93 c' then Some (JArr [], r')
                else parse_elements fuel (c' :: r') []
            | [] => None
            end
          else if is_char 34 c then
            match parse_chars r [] with
            | Some (str, r') => Some (JStr str, r')
            | None => None
            end
          else if is_char 116 c then literal "true" (JBool true) (c :: r)
          else if is_char 102 c then literal "false" (JBool false) (c :: r)
          else if is_char 110 c then literal "null" JNull (c :: r)
          else
            match parse_number (c :: r) with
            | Some (x, r') => Some (JNum x, r')
            | None => None
            end
      end
  end

with parse_elements (fuel : nat) (s : list ascii) (acc : list JSON) {struct fuel}
  : option (JSON * list ascii) :=
  match fuel with
  | O => None
  | S fuel =>
      match parse_value fuel s with
      | Some (v, r) =>
          match skip_ws r with
          | c :: r' =>
              if is_char 44 c then parse_elements fuel r' (v :: acc)
              else if is_char 93 c then Some (JArr (rev (v :: acc)), r')
              else None
          | [] => None
          end
      | None => None
      end
  end

with parse_members (fuel : nat) (s : list ascii) (acc : list (string * JSON))
  {struct fuel} : option (JSON * list ascii) :=
  match fuel with
  | O => None
  | S fuel =>
      match skip_ws s with
      | q :: r =>
          if is_char 34 q then
            match parse_chars r [] with
            | Some (k, r1) =>
                match skip_ws r1 with
                | c1 :: r2 =>
                    if is_char 58 c1 then
                      match parse_value fuel r2 with
                      | Some (v, r3) =>
                          match skip_ws r3 with
                          | c3 :: r4 =>
                              if is_char 44 c3
                              then parse_members fuel r4 (assoc_set k v acc)
                              else if is_char 125 c3
                              then Some (JObj (assoc_set k v acc), r4)
                              else None
                          | [] => None
                          end
                      | None => None
                      end
                    else None
                | [] => None
                end
            | None => None
            end
          else None
      | [] => None
      end
  end.

Definition SyntaxError : Thrown :=
  mkThrown None (Some "Unexpected token in JSON") None.

Definition JSON_parse (text : string) : Result JSON :=
  let s := list_ascii_of_string text in
  match parse_value (2 * List.length s + 4) s with
  | Some (v, r) =>
      match skip_ws r with
      | [] => Ok v
      | _ => Err SyntaxError
      end
  | None => Err SyntaxError
  end.

End JsonText.

(* ================================================================== *)
(** * Concrete requests *)
(* ================================================================== *)

Module Samples.

(** [x.toFixed(digits)] for a non-negative [x], on exact arithmetic. *)
Definition toFixed_exact (digits : nat) (x : Q) : string :=
  let p := 10 ^ Z.of_nat digits in
  let n := (2 * Qnum x * p + Zpos (Qden x)) / (2 * Zpos (Qden x)) in
  let whole := string_of_nat (Z.to_nat (n / p)) in
  match digits with
  | O => whole
  | _ =>
      let frac := string_of_nat (Z.to_nat (n mod p)) in
      let pad := Nat.sub digits (String.length frac) in
      (whole ++ "." ++ string_of_list_ascii (repeat "0"%char pad) ++ frac)%string
  end.

Definition default_config : Config :=
  mkConfig (Some "sk-test") None (10 * 1024 * 1024)
    ["image/png"; "image/jpeg"; "application/pdf"]
    (6 # 10) true true (mkLlmConfig "gpt-4o" 4096 0).

(** A world with the default configuration, a sharp that returns the image
    unchanged, and the given answers of the PDF parser, the OCR engine and
    the LLM endpoint. *)
Definition world (pdf : Result PdfData) (ocr : Result Recognized)
  (reply : Provider -> Prompt -> Result Reply) : World :=
  mkWorld default_config (fun image => Ok image) (fun _ => ocr) (fun _ => pdf)
    reply JsonText.JSON_parse Qdiv Qmult toFixed_exact (toFixed_exact 0)
    "req001" "2025-10-01T09:00:00.000Z".

(** The same world with a key for the Anthropic client. *)
Definition with_anthropic_key (w : World) : World :=
  let c := config w in
  mkWorld
    (mkConfig (openaiApiKey c) (Some "sk-ant-test") (maxFileSize c)
       (allowedFileTypes c) (ocrConfidenceThreshold c) (enableOCR c)
       (enableLLMVision c) (llm c))
    (sharp w) (recognize w) (pdfParse w) (create w) (JSON_parse w)
    (number_div w) (number_mul w) (toFixed w) (number_toString w)
    (requestId w) (timestamp w).

Definition no_pdf : Result PdfData := Err (Error "Invalid PDF structure").
Definition no_ocr : Result Recognized := Err (Error "recognize failed").

Definition says (content : string) : Provider -> Prompt -> Result Reply :=
  fun _ _ => Ok (mkReply content 100).

(** An endpoint that refuses images and answers text prompts. *)
Definition vision_fails (content : string) : Provider -> Prompt -> Result Reply :=
  fun _ prompt =>
    match prompt with
    | VisionPrompt _ _ => Err (Error "429 Too Many Requests")
    | TextPrompt _ => Ok (mkReply content 100)
    end.

Definition member (key value : string) : string :=
  (quoted key ++ ":" ++ value)%string.

(** The text of a time block object. *)
Definition block_text (start_time end_time : string) (duration : option string)
  : string :=
  ("{" ++ member "day" (quoted "Monday")
   ++ "," ++ member "start_time" (quoted start_time)
   ++ "," ++ member "end_time" (quoted end_time)
   ++ "," ++ member "subject" (quoted "Maths")
   ++ match duration with
      | Some d => "," ++ member "duration_minutes" d
      | None => EmptyString
      end
   ++ "}")%string.

Definition timetable_text (blocks : string) : string :=
  ("{" ++ member "metadata" "{}" ++ "," ++ member "timeblocks" ("[" ++ blocks ++ "]")
   ++ "}")%string.

(** The value of a time block object. *)
Definition block_value (start_time end_time : string) (duration : option Q)
  : JSON :=
  JObj ([("day", JStr "Monday"); ("start_time", JStr start_time);
         ("end_time", JStr end_time); ("subject", JStr "Maths")]
        ++ match duration with
           | Some d => [("duration_minutes", JNum d)]
           | None => []
           end).

Definition timetable_value (blocks : list JSON) : JSON :=
  JObj [("metadata", JObj []); ("timeblocks", JArr blocks)].

Definition long_text : Text :=
  text "Monday 9:00-9:30 Maths, Monday 10:30-10:45 Break, Monday 12:00-13:00 Lunch".

Definition short_text : Text := text "   Page 1   ".

Definition png : Buffer := [Byte.x89; Byte.x50; Byte.x4e; Byte.x47].
Definition pdf : Buffer := [Byte.x25; Byte.x50; Byte.x44; Byte.x46].
Definition gif : Buffer := [Byte.x47; Byte.x49; Byte.x46; Byte.x38].

Definition upload (mime name : string) (content : Buffer) : Upload :=
  mkUpload "file" name mime content.

End Samples.

(* ================================================================== *)
(** * Further functions of the cited files, and observers of runs *)
(* ================================================================== *)

Module More.

Local Open Scope run_scope.

(** What [hasExtractableText] returns: the value of
    [pdfData.text && pdfData.text.trim().length > 50] is the empty string
    itself when the text is empty, a boolean otherwise. *)
Inductive TextFlag :=
| EmptyTextValue
| Flag (b : bool).

Definition flag_truthy (v : TextFlag) : bool :=
  match v with
  | EmptyTextValue => false
  | Flag b => b
  end.

(** [hasExtractableText] of services/pdfProcessor.js *)
Definition hasExtractableText (w : World) (fileBuffer : Buffer) : M TextFlag :=
  try_catch
    (pdfData <- call (PdfParse fileBuffer) (pdfParse w fileBuffer) ;;
     ret (if Nat.eqb (List.length (pdf_text pdfData)) 0 then EmptyTextValue
          else Flag (50 <? List.length (trim (pdf_text pdfData)))%nat))
    (fun _ => ret (Flag false)).

(** The two entries [validateTimeRanges] builds for a block. *)
Definition hard_error (b : JSON) : RangeError :=
  mkRangeError b "End time must be after start time" None.

Definition hours_warning (b : JSON) : RangeError :=
  mkRangeError b "Time outside reasonable school hours" (Some "warning").

(** The two tests of the loop body, read off a block. *)
Definition not_after_start (b : JSON) : bool :=
  match hour_min (prop "start_time" b), hour_min (prop "end_time" b) with
  | Some (startHour, startMin), Some (endHour, endMin) =>
      endHour * 60 + endMin <=? startHour * 60 + startMin
  | _, _ => false
  end.

Definition out_of_hours (b : JSON) : bool :=
  match hour_min (prop "start_time" b), hour_min (prop "end_time" b) with
  | Some (startHour, _), Some (endHour, _) => (startHour <? 5) || (endHour >? 23)
  | _, _ => false
  end.

(** The keys an object schema declares. *)
Definition shape_keys (sc : Schema) : list string :=
  match sc with
  | ZObject shape => map fst shape
  | _ => []
  end.

Definition is_chat (ev : Event) : bool :=
  match ev with
  | Chat _ _ => true
  | _ => false
  end.

Definition is_sharp (ev : Event) : bool :=
  match ev with
  | Sharp _ => true
  | _ => false
  end.

Definition is_pdf_parse (ev : Event) : bool :=
  match ev with
  | PdfParse _ => true
  | _ => false
  end.

(** The image handed on by [preprocessImage]. *)
Definition preprocessed (w : World) (buf : Buffer) : Buffer :=
  match sharp w buf with
  | Ok image => image
  | Err _ => buf
  end.

(** The calls of [extractWithOCR], read off the world. *)
Definition ocr_calls (w : World) (p : Provider) (image : Buffer) : list Event :=
  Tesseract image
  :: match recognize w image with
     | Ok r =>
         if number_lt (number_div w (ocr_confidence r) 100)
              (ocrConfidenceThreshold (config w))
         then []
         else if Nat.eqb (List.length (ocr_text r)) 0
                 || (List.length (trim (ocr_text r)) <? 50)%nat
         then []
         else if isConfigured (llmService w p)
         then [Chat p (TextPrompt (ocr_text r))]
         else []
     | Err _ => []
     end.

(** The calls of [processPDF], read off the world. *)
Definition pdf_calls (w : World) (p : Provider) (buf : Buffer) : list Event :=
  [EnterPdfProcessor; PdfParse buf]
  ++ match pdfParse w buf with
     | Ok pd =>
         if negb (Nat.eqb (List.length (pdf_text pd)) 0)
            && (50 <? List.length (trim (pdf_text pd)))%nat
         then if isConfigured (llmService w p)
              then [Chat p (TextPrompt (pdf_text pd))] else []
         else []
     | Err _ => []
     end.

(** The calls of [processImage], read off the world. *)
Definition image_calls (w : World) (p : Provider) (buf : Buffer) (mime : string)
  : list Event :=
  let image := preprocessed w buf in
  [EnterImageProcessor; Sharp buf]
  ++ (if enableLLMVision (config w) && isConfigured (llmService w p)
      then Chat p (VisionPrompt image mime)
           :: match outcome (extractWithVision (llmService w p) image mime) with
              | Threw _ => if enableOCR (config w) then ocr_calls w p image else []
              | _ => []
              end
      else if enableOCR (config w) then ocr_calls w p image else []).

(** The same world with an image library that throws. *)
Definition with_failing_sharp (w : World) : World :=
  mkWorld (config w) (fun _ => Err (Error "Input buffer contains unsupported image format"))
    (recognize w) (pdfParse w) (create w) (JSON_parse w)
    (number_div w) (number_mul w) (toFixed w) (number_toString w)
    (requestId w) (timestamp w).

End More.
Import More.

(* ================================================================== *)
(** * Facts about the schema parse *)
(* ================================================================== *)

Section ParseFacts.

Lemma app_nil_inv {A} (l1 l2 : list A) : l1 ++ l2 = [] -> l1 = [] /\ l2 = [].
Proof. destruct l1; simpl; intros H; [auto | discriminate]. Qed.

Lemma parse_object_nil shape path input :
  parse (ZObject shape) path input = [] ->
  exists ps, input = Some (JObj ps) /\
    Forall (fun ks => parse (snd ks) (path ++ [Key (fst ks)]) (assoc (fst ks) ps) = [])
      shape.
Proof.
  destruct input as [[ | | | | | ps] | ]; simpl; try discriminate.
  intros H. exists ps. split; [reflexivity |].
  induction shape as [ | [k s] rest IH]; [constructor |].
  apply app_nil_inv in H as [H1 H2].
  constructor; [exact H1 | exact (IH H2)].
Qed.

Lemma flat_mapi_nil {A B} (f : nat -> A -> list B) l i :
  flat_mapi f i l = [] -> Forall (fun x => exists j, f j x = []) l.
Proof.
  revert i. induction l as [ | x r IH]; intros i H; [constructor |].
  simpl in H. apply app_nil_inv in H as [H1 H2].
  constructor; [exists i; exact H1 | exact (IH _ H2)].
Qed.

Lemma parse_array_nil element n msg path input :
  parse (ZArray element (Some (n, msg))) path input = [] ->
  exists items, input = Some (JArr items) /\ (n <= List.length items)%nat /\
    Forall (fun x => exists i, parse element (path ++ [Index i]) (Some x) = []) items.
Proof.
  destruct input as [[ | | | | items | ] | ]; simpl; try discriminate.
  intros H. apply app_nil_inv in H as [H1 H2].
  exists items. split; [reflexivity |]. split.
  - destruct (Nat.ltb_spec (List.length items) n); [discriminate | assumption].
  - exact (flat_mapi_nil _ _ _ H2).
Qed.

End ParseFacts.

(* ================================================================== *)
(** * Facts about times *)
(* ================================================================== *)

Section TimeFacts.

Lemma is_digit_range c :
  is_digit c = true -> 0 <= digit_value c <= 9.
Proof.
  unfold is_digit, digit_value. intros H.
  apply andb_true_iff in H as [H1 H2].
  apply Nat.leb_le in H1. apply Nat.leb_le in H2. lia.
Qed.

Lemma is_digit_not_colon c : is_digit c = true -> Ascii.eqb c ":" = false.
Proof.
  intros H. apply Ascii.eqb_neq. intros ->. discriminate H.
Qed.

Lemma Number_one a :
  is_digit a = true -> Number (String a EmptyString) = Some (digit_value a).
Proof.
  intros Ha. unfold Number. cbn -[Z.mul Z.add]. rewrite Ha.
  apply f_equal. lia.
Qed.

Lemma Number_two a b :
  is_digit a = true -> is_digit b = true ->
  Number (String a (String b EmptyString)) = Some (10 * digit_value a + digit_value b).
Proof.
  intros Ha Hb. unfold Number. cbn -[Z.mul Z.add]. rewrite Ha, Hb.
  apply f_equal. lia.
Qed.

(** A string the time pattern accepts splits into an hour and a minute below
    one hundred. *)
Lemma time_re_hour_min s :
  time_re s = true ->
  exists hour min, hour_min (Some (JStr s)) = Some (hour, min)
                   /\ 0 <= hour <= 99 /\ 0 <= min <= 99.
Proof.
  unfold time_re.
  destruct s as [ | a [ | b [ | c [ | d [ | e [ | f s]]]]]]; simpl; try discriminate.
  - (* H:MM *)
    intros H.
    apply andb_true_iff in H as [H Hd]. apply andb_true_iff in H as [H Hc].
    apply andb_true_iff in H as [Ha Hb].
    apply Ascii.eqb_eq in Hb; subst b.
    pose proof (is_digit_range _ Ha). pose proof (is_digit_range _ Hc).
    pose proof (is_digit_range _ Hd).
    unfold hour_min. simpl.
    rewrite (is_digit_not_colon _ Ha), (is_digit_not_colon _ Hc),
      (is_digit_not_colon _ Hd). simpl.
    rewrite (Number_one _ Ha), (Number_two _ _ Hc Hd).
    eexists _, _. split; [reflexivity | lia].
  - (* HH:MM *)
    intros H.
    apply andb_true_iff in H as [H He]. apply andb_true_iff in H as [H Hd].
    apply andb_true_iff in H as [H Hc]. apply andb_true_iff in H as [Ha Hb].
    apply Ascii.eqb_eq in Hc; subst c.
    pose proof (is_digit_range _ Ha). pose proof (is_digit_range _ Hb).
    pose proof (is_digit_range _ Hd). pose proof (is_digit_range _ He).
    unfold hour_min. simpl.
    rewrite (is_digit_not_colon _ Ha), (is_digit_not_colon _ Hb),
      (is_digit_not_colon _ Hd), (is_digit_not_colon _ He). simpl.
    rewrite (Number_two _ _ Ha Hb), (Number_two _ _ Hd He).
    eexists _, _. split; [reflexivity | lia].
Qed.

End TimeFacts.

(* ================================================================== *)
(** * What a successful schema parse guarantees *)
(* ================================================================== *)

Section SchemaFacts.

Lemma parse_regex_nil re msg path input :
  parse (ZString [SRegex re msg]) path input = [] ->
  exists s, input = Some (JStr s) /\ re s = true.
Proof.
  destruct input as [[ | | | s | | ] | ]; simpl; try discriminate.
  intros H. exists s. split; [reflexivity |].
  destruct (re s); [reflexivity | discriminate].
Qed.

Lemma parse_nonempty_nil msg path input :
  parse (ZString [SMin 1 msg]) path input = [] ->
  exists s, input = Some (JStr s) /\ s <> EmptyString.
Proof.
  destruct input as [[ | | | s | | ] | ]; simpl; try discriminate.
  intros H. exists s. split; [reflexivity |].
  destruct s; [discriminate | discriminate].
Qed.

Lemma parse_duration_nil path input :
  parse (ZOptional (ZNumber [NInt; NMin 1])) path input = [] -> duration_wf input.
Proof.
  destruct input as [[ | | x | | | ] | ]; simpl; try discriminate.
  - intros H. right. exists x. split; [reflexivity |].
    destruct (isInteger x); [| discriminate].
    split; [reflexivity |].
    destruct (Qle_bool 1 x) eqn:E; [| discriminate].
    apply Qle_bool_iff. exact E.
  - intros _. left. reflexivity.
Qed.

Lemma timeBlock_parse_wf path b :
  parse timeBlockSchema path (Some b) = [] -> block_wf b.
Proof.
  intros H. apply parse_object_nil in H as (ps & Hb & Hf).
  injection Hb as ->.
  unfold timeBlockSchema in Hf.
  apply Forall_inv_tail in Hf. apply Forall_inv_tail in Hf.
  pose proof (Forall_inv Hf) as Hstart. apply Forall_inv_tail in Hf.
  pose proof (Forall_inv Hf) as Hend. apply Forall_inv_tail in Hf.
  pose proof (Forall_inv Hf) as Hdur. apply Forall_inv_tail in Hf.
  pose proof (Forall_inv Hf) as Hsub. clear Hf.
  cbn [fst snd] in Hstart, Hend, Hdur, Hsub.
  constructor.
  - eexists; reflexivity.
  - exact (parse_regex_nil _ _ _ _ Hstart).
  - exact (parse_regex_nil _ _ _ _ Hend).
  - exact (parse_duration_nil _ _ Hdur).
  - exact (parse_nonempty_nil _ _ _ Hsub).
Qed.

(** A candidate the schema accepts is an object whose [timeblocks] is a
    non-empty array of well-formed blocks. *)
Lemma schema_success_inv data :
  success (validateTimetable data) = true ->
  exists ps items,
    data = Some (JObj ps)
    /\ assoc "timeblocks" ps = Some (JArr items)
    /\ items <> []
    /\ Forall block_wf items.
Proof.
  unfold validateTimetable, safeParse. cbn [success].
  destruct (parse timetableExtractionSchema [] data) eqn:H; [| discriminate].
  intros _.
  apply parse_object_nil in H as (ps & -> & Hf).
  unfold timetableExtractionSchema in Hf.
  apply Forall_inv_tail in Hf. apply Forall_inv in Hf. cbn [fst snd] in Hf.
  apply parse_array_nil in Hf as (items & Hi & Hlen & Hall).
  exists ps, items. split; [reflexivity |]. split; [exact Hi |]. split.
  - destruct items; [simpl in Hlen; lia | discriminate].
  - eapply Forall_impl; [| exact Hall].
    intros b [i Hb]. exact (timeBlock_parse_wf _ _ Hb).
Qed.

Lemma block_wf_times b :
  block_wf b ->
  exists sh sm eh em,
    hour_min (prop "start_time" b) = Some (sh, sm)
    /\ hour_min (prop "end_time" b) = Some (eh, em).
Proof.
  intros [_ (s & Hs & Rs) (e & He & Re) _ _].
  destruct (time_re_hour_min _ Rs) as (sh & sm & H1 & _).
  destruct (time_re_hour_min _ Re) as (eh & em & H2 & _).
  exists sh, sm, eh, em. rewrite Hs, He. auto.
Qed.

Lemma validateTimeRanges_total blocks :
  Forall block_wf blocks -> exists errs, validateTimeRanges blocks = Some errs.
Proof.
  induction 1 as [ | b rest Hb _ [errs IH]]; [exists []; reflexivity |].
  destruct (block_wf_times _ Hb) as (sh & sm & eh & em & H1 & H2).
  simpl. unfold check_block. rewrite H1, H2, IH. eexists; reflexivity.
Qed.

Lemma enrichBlock_total b : block_wf b -> exists b', enrichBlock b = Some b'.
Proof.
  intros Hb. destruct (block_wf_times _ Hb) as (sh & sm & eh & em & H1 & H2).
  destruct Hb as [[ps ->] _ _ _ _].
  unfold enrichBlock. rewrite H1, H2.
  destruct (falsy _); eexists; reflexivity.
Qed.

Lemma enrichTimeBlocks_total blocks :
  Forall block_wf blocks -> exists bs, enrichTimeBlocks blocks = Some bs.
Proof.
  induction 1 as [ | b rest Hb _ [bs IH]]; [exists []; reflexivity |].
  destruct (enrichBlock_total _ Hb) as [b' Hb'].
  simpl. rewrite Hb', IH. eexists; reflexivity.
Qed.

(** The model of [validateExtraction] covers every candidate. *)
Lemma validateExtraction_total data :
  exists v, validateExtraction data = Some v.
Proof.
  unfold validateExtraction.
  destruct (success (validateTimetable data)) eqn:S; cbn [negb];
    [| eexists; reflexivity].
  destruct (schema_success_inv _ S) as (ps & items & -> & Hi & _ & Hwf).
  unfold data_timeblocks, prop. rewrite Hi.
  destruct (validateTimeRanges_total _ Hwf) as [errs ->].
  destruct (0 <? _)%nat; [eexists; reflexivity |].
  destruct (enrichTimeBlocks_total _ Hwf) as [bs ->].
  eexists; reflexivity.
Qed.

End SchemaFacts.

(* ================================================================== *)
(** * Properties of the validator *)
(* ================================================================== *)

Section ValidatorFacts.

Lemma assoc_set_same k v ps : assoc k (assoc_set k v ps) = Some v.
Proof.
  induction ps as [ | [k' v'] rest IH]; simpl.
  - rewrite String.eqb_refl. reflexivity.
  - destruct (String.eqb k' k) eqn:E; simpl; rewrite E; [reflexivity | exact IH].
Qed.

Lemma assoc_set_other k k' v ps :
  k' <> k -> assoc k' (assoc_set k v ps) = assoc k' ps.
Proof.
  intros Hk. induction ps as [ | [k0 v0] rest IH]; simpl.
  - destruct (String.eqb_spec k k'); [congruence | reflexivity].
  - destruct (String.eqb_spec k0 k) as [-> | Hne]; simpl.
    + destruct (String.eqb_spec k k'); [congruence | reflexivity].
    + destruct (String.eqb k0 k'); [reflexivity | exact IH].
Qed.

Lemma validateTimeRanges_incl blocks errs b es :
  validateTimeRanges blocks = Some errs ->
  In b blocks -> check_block b = Some es -> incl es errs.
Proof.
  revert errs. induction blocks as [ | b0 rest IH]; intros errs H Hin Hb;
    [contradiction |].
  simpl in H.
  destruct (check_block b0) as [es0 | ] eqn:E0; [| discriminate].
  destruct (validateTimeRanges rest) as [more | ] eqn:E1; [| discriminate].
  injection H as <-.
  destruct Hin as [-> | Hin].
  - rewrite Hb in E0. injection E0 as <-. apply incl_appl, incl_refl.
  - apply incl_appr. exact (IH _ eq_refl Hin Hb).
Qed.

Lemma check_block_eq b sh sm eh em :
  hour_min (prop "start_time" b) = Some (sh, sm) ->
  hour_min (prop "end_time" b) = Some (eh, em) ->
  check_block b =
    Some ((if eh * 60 + em <=? sh * 60 + sm
           then [mkRangeError b "End time must be after start time" None]
           else [])
          ++ (if (sh <? 5) || (eh >? 23)
              then [mkRangeError b "Time outside reasonable school hours"
                      (Some "warning")]
              else [])).
Proof. intros H1 H2. unfold check_block. rewrite H1, H2. reflexivity. Qed.

Lemma length_zero_nil {A} (l : list A) : (0 <? List.length l)%nat = false -> l = [].
Proof. destruct l; [reflexivity | discriminate]. Qed.

Lemma enrichTimeBlocks_Forall2 blocks bs :
  enrichTimeBlocks blocks = Some bs ->
  Forall2 (fun b0 b => enrichBlock b0 = Some b) blocks bs.
Proof.
  revert bs. induction blocks as [ | b0 rest IH]; intros bs H.
  - injection H as <-. constructor.
  - simpl in H.
    destruct (enrichBlock b0) as [b | ] eqn:E0; [| discriminate].
    destruct (enrichTimeBlocks rest) as [bs' | ] eqn:E1; [| discriminate].
    injection H as <-. constructor; [exact E0 | exact (IH _ eq_refl)].
Qed.

(** What a [Valid] answer of [validateExtraction] records. *)
Lemma Valid_inv data enriched warnings :
  validateExtraction data = Some (Valid enriched warnings) ->
  success (validateTimetable data) = true
  /\ exists blocks errs,
       data_timeblocks data = Some blocks
       /\ validateTimeRanges blocks = Some errs
       /\ filter is_error errs = []
       /\ enrichTimeBlocks blocks = Some (timeblocks enriched)
       /\ metadata enriched = data_metadata data
       /\ warnings = map block_report (filter is_warning errs).
Proof.
  unfold validateExtraction.
  destruct (success (validateTimetable data)); cbn [negb]; [| discriminate].
  destruct (data_timeblocks data) as [blocks | ]; [| discriminate].
  destruct (validateTimeRanges blocks) as [errs | ] eqn:R; [| discriminate].
  destruct (0 <? _)%nat eqn:E; [discriminate |].
  destruct (enrichTimeBlocks blocks) as [bs | ] eqn:B; [| discriminate].
  intros H. injection H as <- <-.
  split; [reflexivity |]. exists blocks, errs.
  repeat split; auto using length_zero_nil.
Qed.

Lemma schema_success_blocks data blocks :
  success (validateTimetable data) = true ->
  data_timeblocks data = Some blocks ->
  blocks <> [] /\ Forall block_wf blocks.
Proof.
  intros S H.
  destruct (schema_success_inv _ S) as (ps & items & -> & Hi & Hne & Hwf).
  unfold data_timeblocks, prop in H. rewrite Hi in H. injection H as <-.
  auto.
Qed.

End ValidatorFacts.

(** ** C9 *)

(** C9. A candidate whose [timeblocks] is the empty array fails the schema
    check of [validateExtraction]: the answer is the schema failure that
    reports "At least one timeblock is required" at [timeblocks], and so is
    never a valid, enriched result. *)
Theorem empty_timeblocks_fail_validation (data : JSON) :
  prop "timeblocks" data = Some (JArr []) ->
  exists errors,
    validateExtraction (Some data) = Some (SchemaInvalid errors)
    /\ In (FieldReport "timeblocks" (Some "At least one timeblock is required")
             too_small) errors
    /\ isValid (SchemaInvalid errors) = false.
Proof.
  intros H. destruct data as [ | | | | | ps]; try discriminate H.
  simpl in H.
  unfold validateExtraction, validateTimetable, safeParse. cbn [success error_errors].
  remember (parse timetableExtractionSchema [] (Some (JObj ps))) as issues eqn:E.
  assert (In (mkIssue too_small [Key "timeblocks"]
                (Some "At least one timeblock is required")) issues) as Hin.
  { rewrite E. unfold timetableExtractionSchema.
    cbn [parse app]. rewrite H. cbn [List.length Nat.ltb Nat.leb].
    apply in_or_app. right. left. reflexivity. }
  clear E. destruct issues as [ | i rest]; [contradiction |].
  cbn [negb]. eexists. split; [reflexivity |]. split; [| reflexivity].
  exact (in_map issue_report _ _ Hin).
Qed.

Lemma empty_timeblocks_fail_validation_witness :
  exists errors,
    validateExtraction (Some (Samples.timetable_value [])) = Some (SchemaInvalid errors)
    /\ In (FieldReport "timeblocks" (Some "At least one timeblock is required")
             too_small) errors
    /\ isValid (SchemaInvalid errors) = false.
Proof.
  apply (empty_timeblocks_fail_validation (Samples.timetable_value [])).
  reflexivity.
Defined.

Section EnrichmentFacts.

Lemma duration_wf_falsy d :
  duration_wf d -> falsy d = true -> d = None.
Proof.
  intros [-> | (x & -> & _ & Hx)] F; [reflexivity |].
  simpl in F. apply Qeq_bool_iff in F. rewrite F in Hx.
  exfalso. revert Hx. unfold Qle. simpl. lia.
Qed.

Lemma isInteger_inject_Z z : isInteger (inject_Z z) = true.
Proof.
  unfold isInteger, inject_Z. cbn [Qnum Qden].
  rewrite Z.mod_1_r. reflexivity.
Qed.

(** What [enrichBlock] does to a block the schema accepted: the times stay,
    a missing duration becomes the difference of the minutes, a supplied one
    stays with the whole block. *)
Lemma enrichBlock_spec b0 b :
  block_wf b0 -> enrichBlock b0 = Some b ->
  exists sh sm eh em,
    hour_min (prop "start_time" b0) = Some (sh, sm)
    /\ hour_min (prop "end_time" b0) = Some (eh, em)
    /\ prop "start_time" b = prop "start_time" b0
    /\ prop "end_time" b = prop "end_time" b0
    /\ (prop "duration_minutes" b0 = None ->
        prop "duration_minutes" b
        = Some (JNum (inject_Z ((eh * 60 + em) - (sh * 60 + sm)))))
    /\ (prop "duration_minutes" b0 <> None -> b = b0).
Proof.
  intros Hwf H.
  destruct (block_wf_times _ Hwf) as (sh & sm & eh & em & H1 & H2).
  exists sh, sm, eh, em. split; [exact H1 |]. split; [exact H2 |].
  pose proof (wf_duration _ Hwf) as Hd.
  destruct (wf_object _ Hwf) as [ps ->].
  unfold enrichBlock in H. rewrite H1, H2 in H.
  destruct (falsy (prop "duration_minutes" (JObj ps))) eqn:F.
  - pose proof (duration_wf_falsy _ Hd F) as Hnone.
    simpl in H. injection H as <-. simpl.
    rewrite !assoc_set_other by discriminate.
    rewrite assoc_set_same.
    repeat split; auto. intros Hne. contradiction.
  - injection H as <-. repeat split; auto.
    intros Hnone. simpl in F, Hnone. rewrite Hnone in F. discriminate F.
Qed.

Lemma Forall2_In_r {A B} (R : A -> B -> Prop) l l' y :
  Forall2 R l l' -> In y l' -> exists x, In x l /\ R x y.
Proof.
  induction 1 as [ | x y' l l' Hxy _ IH]; intros Hin; [contradiction |].
  destruct Hin as [-> | Hin].
  - exists x. auto with datatypes.
  - destruct (IH Hin) as (x' & H1 & H2). exists x'. auto with datatypes.
Qed.

Lemma Forall2_Forall_l {A B} (P : A -> Prop) (R R' : A -> B -> Prop) l l' :
  (forall x y, P x -> R x y -> R' x y) ->
  Forall P l -> Forall2 R l l' -> Forall2 R' l l'.
Proof.
  intros Himp HP H. induction H as [ | x y l l' Hxy _ IH]; [constructor |].
  constructor.
  - apply Himp; [exact (Forall_inv HP) | exact Hxy].
  - exact (IH (Forall_inv_tail HP)).
Qed.

(** With no hard error among the entries, every block ends after it
    starts. *)
Lemma no_hard_error_positive blocks errs b sh sm eh em :
  validateTimeRanges blocks = Some errs ->
  filter is_error errs = [] ->
  In b blocks ->
  hour_min (prop "start_time" b) = Some (sh, sm) ->
  hour_min (prop "end_time" b) = Some (eh, em) ->
  sh * 60 + sm < eh * 60 + em.
Proof.
  intros R F Hin H1 H2.
  destruct (Z.leb_spec (eh * 60 + em) (sh * 60 + sm)) as [Hle | Hlt]; [| exact Hlt].
  exfalso.
  pose proof (validateTimeRanges_incl _ _ _ _ R Hin (check_block_eq _ _ _ _ _ H1 H2))
    as Hincl.
  apply Z.leb_le in Hle. rewrite Hle in Hincl.
  assert (In (mkRangeError b "End time must be after start time" None)
            (filter is_error errs)) as Hf.
  { apply filter_In. split; [| reflexivity].
    apply Hincl. left. reflexivity. }
  rewrite F in Hf. contradiction.
Qed.

End EnrichmentFacts.

(** ** C4 *)

(** C4. A block whose end, in minutes since midnight, is not after its start
    makes [validateTimeRanges] push a hard error (one without a severity) for
    that block, and makes [validateExtraction] answer invalid: when the
    schema check has passed, with the report "End time must be after start
    time" for the block among its errors. *)
Theorem end_not_after_start_is_hard_error
    (data : option JSON) (blocks : list JSON) (b : JSON) (sh sm eh em : Z) :
  data_timeblocks data = Some blocks ->
  In b blocks ->
  hour_min (prop "start_time" b) = Some (sh, sm) ->
  hour_min (prop "end_time" b) = Some (eh, em) ->
  eh * 60 + em <= sh * 60 + sm ->
  (forall errs, validateTimeRanges blocks = Some errs ->
     In (mkRangeError b "End time must be after start time" None) errs)
  /\ exists v,
       validateExtraction data = Some v
       /\ isValid v = false
       /\ (success (validateTimetable data) = true ->
           exists errors warnings,
             v = RangesInvalid errors warnings
             /\ In (BlockReport (prop "subject" b)
                      "End time must be after start time") errors).
Proof.
  intros Hd Hin H1 H2 Hle.
  assert (forall errs, validateTimeRanges blocks = Some errs ->
            In (mkRangeError b "End time must be after start time" None) errs)
    as Hhard.
  { intros errs R.
    pose proof (validateTimeRanges_incl _ _ _ _ R Hin
                  (check_block_eq _ _ _ _ _ H1 H2)) as Hincl.
    apply Z.leb_le in Hle. rewrite Hle in Hincl.
    apply Hincl. left. reflexivity. }
  split; [exact Hhard |].
  unfold validateExtraction.
  destruct (success (validateTimetable data)) eqn:S; cbn [negb].
  - destruct (schema_success_blocks _ _ S Hd) as [_ Hwf].
    rewrite Hd.
    destruct (validateTimeRanges_total _ Hwf) as [errs R]. rewrite R.
    assert (In (mkRangeError b "End time must be after start time" None)
              (filter is_error errs)) as Hf.
    { apply filter_In. split; [exact (Hhard _ R) | reflexivity]. }
    destruct (filter is_error errs) as [ | e rest] eqn:F; [contradiction |].
    cbn [List.length Nat.ltb Nat.leb].
    eexists. split; [reflexivity |]. split; [reflexivity |].
    intros _. eexists _, _. split; [reflexivity |].
    exact (in_map block_report _ _ Hf).
  - eexists. split; [reflexivity |]. split; [reflexivity |].
    intros Habs. discriminate Habs.
Qed.

Lemma end_not_after_start_is_hard_error_witness :
  let b := Samples.block_value "10:30" "10:30" None in
  (forall errs, validateTimeRanges [b] = Some errs ->
     In (mkRangeError b "End time must be after start time" None) errs)
  /\ exists v,
       validateExtraction (Some (Samples.timetable_value [b])) = Some v
       /\ isValid v = false
       /\ (success (validateTimetable (Some (Samples.timetable_value [b]))) = true ->
           exists errors warnings,
             v = RangesInvalid errors warnings
             /\ In (BlockReport (prop "subject" b)
                      "End time must be after start time") errors).
Proof.
  intros b.
  apply (end_not_after_start_is_hard_error
           (Some (Samples.timetable_value [b])) [b] b 10 30 10 30).
  - reflexivity.
  - left. reflexivity.
  - reflexivity.
  - reflexivity.
  - lia.
Defined.

(** ** C10 *)

Section EnrichedDurations.

Lemma Forall2_In_l_Forall {A B} (P : A -> Prop) (R R' : A -> B -> Prop) l l' :
  (forall x y, In x l -> P x -> R x y -> R' x y) ->
  Forall P l -> Forall2 R l l' -> Forall2 R' l l'.
Proof.
  intros Himp HP H.
  apply (Forall2_Forall_l (fun x => P x /\ In x l) R); [| | exact H].
  - intros x y [Hx Hin] Hxy. exact (Himp x y Hin Hx Hxy).
  - apply Forall_forall. intros x Hin. split; [| exact Hin].
    exact (proj1 (Forall_forall _ _) HP _ Hin).
Qed.

(** In a valid answer every block has an integer duration of at least
    one. *)
Lemma enriched_block_duration data enriched warnings b :
  validateExtraction data = Some (Valid enriched warnings) ->
  In b (timeblocks enriched) ->
  exists x,
    prop "duration_minutes" b = Some (JNum x)
    /\ isInteger x = true /\ (1 <= x)%Q.
Proof.
  intros V Hin.
  destruct (Valid_inv _ _ _ V) as (S & blocks & errs & Hd & R & F & En & _ & _).
  destruct (schema_success_blocks _ _ S Hd) as [_ Hwf].
  destruct (Forall2_In_r _ _ _ _ (enrichTimeBlocks_Forall2 _ _ En) Hin)
    as (b0 & Hin0 & Hb).
  pose proof (proj1 (Forall_forall _ _) Hwf _ Hin0) as Hwf0.
  destruct (enrichBlock_spec _ _ Hwf0 Hb)
    as (sh & sm & eh & em & H1 & H2 & _ & _ & Hmissing & Hkept).
  pose proof (no_hard_error_positive _ _ _ _ _ _ _ R F Hin0 H1 H2) as Hpos.
  destruct (prop "duration_minutes" b0) as [d | ] eqn:D.
  - rewrite (Hkept ltac:(discriminate)). rewrite D.
    pose proof (wf_duration _ Hwf0) as Hd0. rewrite D in Hd0.
    destruct Hd0 as [Habs | Hx]; [discriminate Habs | exact Hx].
  - eexists. split; [exact (Hmissing eq_refl) |].
    split; [apply isInteger_inject_Z |].
    unfold Qle, inject_Z. cbn [Qnum Qden]. lia.
Qed.

End EnrichedDurations.

(** C10. In every enriched result [validateExtraction] returns as valid,
    each time block carries a [duration_minutes] that is an integer and at
    least one. Block by block against the candidate: the times are the
    candidate's and the end is after the start; a duration the candidate
    supplied is an integer of at least one and the block is returned as it
    came; a duration the candidate lacked is back-filled with
    [end_minutes - start_minutes] of that block, which is positive. *)
Theorem enriched_duration_positive
    (data : option JSON) (enriched : ExtractionResult) (warnings : list Report) :
  validateExtraction data = Some (Valid enriched warnings) ->
  (forall b,
     In b (timeblocks enriched) ->
     exists x,
       prop "duration_minutes" b = Some (JNum x)
       /\ isInteger x = true /\ (1 <= x)%Q)
  /\ forall blocks,
       data_timeblocks data = Some blocks ->
       Forall2
         (fun b0 b =>
            exists sh sm eh em,
              hour_min (prop "start_time" b0) = Some (sh, sm)
              /\ hour_min (prop "end_time" b0) = Some (eh, em)
              /\ prop "start_time" b = prop "start_time" b0
              /\ prop "end_time" b = prop "end_time" b0
              /\ sh * 60 + sm < eh * 60 + em
              /\ (prop "duration_minutes" b0 = None ->
                  prop "duration_minutes" b
                  = Some (JNum (inject_Z ((eh * 60 + em) - (sh * 60 + sm)))))
              /\ (forall v,
                    prop "duration_minutes" b0 = Some v ->
                    b = b0
                    /\ exists x, v = JNum x /\ isInteger x = true /\ (1 <= x)%Q))
         blocks (timeblocks enriched).
Proof.
  intros V. split.
  - intros b Hin. exact (enriched_block_duration _ _ _ b V Hin).
  - intros blocks Hd.
    destruct (Valid_inv _ _ _ V) as (S & blocks' & errs & Hd' & R & F & En & _ & _).
    rewrite Hd in Hd'. injection Hd' as <-.
    destruct (schema_success_blocks _ _ S Hd) as [_ Hwf].
    apply (Forall2_In_l_Forall block_wf (fun b0 b => enrichBlock b0 = Some b));
      [| exact Hwf | exact (enrichTimeBlocks_Forall2 _ _ En)].
    intros b0 b Hin Hwf0 Hb.
    destruct (enrichBlock_spec _ _ Hwf0 Hb)
      as (sh & sm & eh & em & H1 & H2 & E1 & E2 & Hmissing & Hkept).
    exists sh, sm, eh, em.
    split; [exact H1 |]. split; [exact H2 |].
    split; [exact E1 |]. split; [exact E2 |].
    split; [exact (no_hard_error_positive _ _ _ _ _ _ _ R F Hin H1 H2) |].
    split; [exact Hmissing |].
    intros v Hv. split; [apply Hkept; rewrite Hv; discriminate |].
    pose proof (wf_duration _ Hwf0) as Hd0. rewrite Hv in Hd0.
    destruct Hd0 as [Habs | (x & Hx & Hi & Hle)]; [discriminate Habs |].
    injection Hx as ->. eauto.
Qed.

Lemma enriched_duration_positive_witness :
  let missing := Samples.block_value "9:00" "9:30" None in
  let filled := Samples.block_value "9:00" "9:30" (Some 30%Q) in
  let supplied := Samples.block_value "10:30" "10:45" (Some 45%Q) in
  (forall b,
     In b [filled; supplied] ->
     exists x,
       prop "duration_minutes" b = Some (JNum x)
       /\ isInteger x = true /\ (1 <= x)%Q)
  /\ Forall2
       (fun b0 b =>
          exists sh sm eh em,
            hour_min (prop "start_time" b0) = Some (sh, sm)
            /\ hour_min (prop "end_time" b0) = Some (eh, em)
            /\ prop "start_time" b = prop "start_time" b0
            /\ prop "end_time" b = prop "end_time" b0
            /\ sh * 60 + sm < eh * 60 + em
            /\ (prop "duration_minutes" b0 = None ->
                prop "duration_minutes" b
                = Some (JNum (inject_Z ((eh * 60 + em) - (sh * 60 + sm)))))
            /\ (forall v,
                  prop "duration_minutes" b0 = Some v ->
                  b = b0
                  /\ exists x, v = JNum x /\ isInteger x = true /\ (1 <= x)%Q))
       [missing; supplied] [filled; supplied].
Proof.
  intros missing filled supplied.
  assert (validateExtraction (Some (Samples.timetable_value [missing; supplied]))
          = Some (Valid (mkExtraction (Some (JObj [])) [filled; supplied]) [])) as V
    by (vm_compute; reflexivity).
  destruct (enriched_duration_positive _ _ _ V) as [Hall Hblocks].
  split; [exact Hall |].
  exact (Hblocks [missing; supplied] eq_refl).
Defined.

(** ** C3 *)

(** C3, as stated, fails: a block from 9:00 to 9:30 that arrives with
    [duration_minutes] 45 passes validation and leaves enrichment with 45,
    not with the 30 minutes between its times. *)
Lemma supplied_duration_not_recomputed :
  let b := Samples.block_value "9:00" "9:30" (Some 45%Q) in
  validateExtraction (Some (Samples.timetable_value [b]))
  = Some (Valid (mkExtraction (Some (JObj [])) [b]) [])
  /\ hour_min (prop "start_time" b) = Some (9, 0)
  /\ hour_min (prop "end_time" b) = Some (9, 30)
  /\ prop "duration_minutes" b = Some (JNum 45)
  /\ ~ (45 == inject_Z ((9 * 60 + 30) - (9 * 60 + 0)))%Q.
Proof.
  intros b. repeat split; try (vm_compute; reflexivity).
  intros H. vm_compute in H. discriminate H.
Qed.

(** C3, amended. For a candidate that passes validation, enrichment maps
    the blocks one to one and keeps their times: the start and the end of
    each returned block are those of the block that arrived. A block that
    arrived without [duration_minutes] leaves with
    [end_minutes - start_minutes] of those times; a block that arrived with
    one is returned as it came, its duration not recomputed. *)
Theorem enrichment_fills_missing_duration
    (data : option JSON) (enriched : ExtractionResult) (warnings : list Report)
    (blocks : list JSON) :
  validateExtraction data = Some (Valid enriched warnings) ->
  data_timeblocks data = Some blocks ->
  Forall2
    (fun b0 b =>
       exists sh sm eh em,
         hour_min (prop "start_time" b0) = Some (sh, sm)
         /\ hour_min (prop "end_time" b0) = Some (eh, em)
         /\ prop "start_time" b = prop "start_time" b0
         /\ prop "end_time" b = prop "end_time" b0
         /\ hour_min (prop "start_time" b) = Some (sh, sm)
         /\ hour_min (prop "end_time" b) = Some (eh, em)
         /\ (prop "duration_minutes" b0 = None ->
             prop "duration_minutes" b
             = Some (JNum (inject_Z ((eh * 60 + em) - (sh * 60 + sm)))))
         /\ (prop "duration_minutes" b0 <> None ->
             b = b0 /\ prop "duration_minutes" b = prop "duration_minutes" b0))
    blocks (timeblocks enriched).
Proof.
  intros V Hd.
  destruct (Valid_inv _ _ _ V) as (S & blocks' & errs & Hd' & _ & _ & En & _ & _).
  rewrite Hd in Hd'. injection Hd' as <-.
  destruct (schema_success_blocks _ _ S Hd) as [_ Hwf].
  apply (Forall2_Forall_l block_wf (fun b0 b => enrichBlock b0 = Some b));
    [| exact Hwf | exact (enrichTimeBlocks_Forall2 _ _ En)].
  intros b0 b Hwf0 Hb.
  destruct (enrichBlock_spec _ _ Hwf0 Hb)
    as (sh & sm & eh & em & H1 & H2 & E1 & E2 & Hmissing & Hkept).
  exists sh, sm, eh, em.
  split; [exact H1 |]. split; [exact H2 |].
  split; [exact E1 |]. split; [exact E2 |].
  split; [rewrite E1; exact H1 |]. split; [rewrite E2; exact H2 |].
  split; [exact Hmissing |].
  intros Hne. rewrite (Hkept Hne). auto.
Qed.

Lemma enrichment_fills_missing_duration_witness :
  let b1 := Samples.block_value "9:00" "9:30" None in
  let b2 := Samples.block_value "10:30" "10:45" (Some 45%Q) in
  Forall2
    (fun b0 b =>
       exists sh sm eh em,
         hour_min (prop "start_time" b0) = Some (sh, sm)
         /\ hour_min (prop "end_time" b0) = Some (eh, em)
         /\ prop "start_time" b = prop "start_time" b0
         /\ prop "end_time" b = prop "end_time" b0
         /\ hour_min (prop "start_time" b) = Some (sh, sm)
         /\ hour_min (prop "end_time" b) = Some (eh, em)
         /\ (prop "duration_minutes" b0 = None ->
             prop "duration_minutes" b
             = Some (JNum (inject_Z ((eh * 60 + em) - (sh * 60 + sm)))))
         /\ (prop "duration_minutes" b0 <> None ->
             b = b0 /\ prop "duration_minutes" b = prop "duration_minutes" b0))
    [b1; b2]
    [Samples.block_value "9:00" "9:30" (Some 30%Q); b2].
Proof.
  intros b1 b2.
  apply (enrichment_fills_missing_duration
           (Some (Samples.timetable_value [b1; b2]))
           (mkExtraction (Some (JObj []))
              [Samples.block_value "9:00" "9:30" (Some 30%Q); b2])
           []).
  - vm_compute. reflexivity.
  - reflexivity.
Defined.

(* ================================================================== *)
(** * Properties of the request pipeline *)
(* ================================================================== *)

Section PipelineFacts.

Variable w : World.
Variable svc : LlmService.

(** [processFile] once the processor has returned and the validator has
    answered. *)
Lemma processFile_returned buf mime name result t v :
  route w svc buf mime = (Returned result, t) ->
  validateExtraction (p_data result) = Some v ->
  processFile w svc buf mime name
  = (Returned
       match v with
       | Valid enrichedData warnings =>
           Extracted enrichedData
             (mkResultMeta (p_metadata result) (p_extractionMethod result)
                name mime warnings)
       | _ =>
           ValidationFailed
             (mkThrown (Some "VALIDATION_FAILED")
                (Some "Extracted data failed validation")
                (Some (DReports (validation_errors v))))
             (p_data result) (p_extractionMethod result)
       end, t).
Proof.
  intros Hr Hv. unfold processFile. rewrite Hr. cbn [bind].
  rewrite Hv. cbn [modelled ret bind].
  destruct v; cbn [ret try_catch]; rewrite !app_nil_r; reflexivity.
Qed.

(** [extractTimetable] answers 200 with [success: true] whenever
    [processFile] returns, whatever object it returns. *)
Lemma extractTimetable_returned f result t :
  processFile w svc (buffer f) (mimetype f) (originalname f) = (Returned result, t) ->
  extractTimetable w svc (Some f)
  = (Returned
       (mkResponse 200 true (result_data result)
          (Some (mkResponseMeta (result_metadata result) (requestId w) (timestamp w)))
          None), t).
Proof.
  intros H. unfold extractTimetable. rewrite H.
  cbn [bind ret try_catch]. rewrite app_nil_r. reflexivity.
Qed.

End PipelineFacts.

(** ** C5 *)

(** C5. When the candidate a processor returned has no hard error, a block
    whose start hour is below 5 or whose end hour is above 23 gives the
    warning "Time outside reasonable school hours" for that block; the
    validator still answers valid, [processFile] returns the enriched data
    with the warning in [metadata.validationWarnings], and the controller
    answers 200 with [success: true] and that metadata. *)
Theorem out_of_hours_warns_without_blocking
    (w : World) (svc : LlmService) (f : Upload) (result : Processed)
    (t : list Event) (blocks : list JSON) (errs : list RangeError)
    (b : JSON) (sh sm eh em : Z) :
  route w svc (buffer f) (mimetype f) = (Returned result, t) ->
  success (validateTimetable (p_data result)) = true ->
  data_timeblocks (p_data result) = Some blocks ->
  validateTimeRanges blocks = Some errs ->
  filter is_error errs = [] ->
  In b blocks ->
  hour_min (prop "start_time" b) = Some (sh, sm) ->
  hour_min (prop "end_time" b) = Some (eh, em) ->
  sh < 5 \/ eh > 23 ->
  exists enriched warnings,
    In (BlockReport (prop "subject" b) "Time outside reasonable school hours")
      warnings
    /\ validateExtraction (p_data result) = Some (Valid enriched warnings)
    /\ processFile w svc (buffer f) (mimetype f) (originalname f)
       = (Returned
            (Extracted enriched
               (mkResultMeta (p_metadata result) (p_extractionMethod result)
                  (originalname f) (mimetype f) warnings)), t)
    /\ extractTimetable w svc (Some f)
       = (Returned
            (mkResponse 200 true (Some enriched)
               (Some (mkResponseMeta
                        (Some (mkResultMeta (p_metadata result)
                                 (p_extractionMethod result)
                                 (originalname f) (mimetype f) warnings))
                        (requestId w) (timestamp w)))
               None), t).
Proof.
  intros Hr S Hd R F Hin H1 H2 Hout.
  destruct (schema_success_blocks _ _ S Hd) as [_ Hwf].
  destruct (enrichTimeBlocks_total _ Hwf) as [bs En].
  assert (validateExtraction (p_data result)
          = Some (Valid (mkExtraction (data_metadata (p_data result)) bs)
                    (map block_report (filter is_warning errs)))) as V.
  { unfold validateExtraction. rewrite S. cbn [negb].
    rewrite Hd, R, F. cbn [List.length Nat.ltb Nat.leb]. rewrite En.
    reflexivity. }
  eexists _, _. split; [| split; [exact V | split]].
  - apply (in_map block_report _
             (mkRangeError b "Time outside reasonable school hours" (Some "warning"))).
    apply filter_In. split; [| reflexivity].
    apply (validateTimeRanges_incl _ _ _ _ R Hin (check_block_eq _ _ _ _ _ H1 H2)).
    apply in_or_app. right.
    assert ((sh <? 5) || (eh >? 23) = true) as ->.
    { apply orb_true_iff. destruct Hout as [Hs | He].
      - left. apply Z.ltb_lt. exact Hs.
      - right. apply Z.gtb_lt. lia. }
    left. reflexivity.
  - exact (processFile_returned w svc _ _ _ _ _ _ Hr V).
  - apply (extractTimetable_returned w svc f _ _
             (processFile_returned w svc _ _ _ _ _ _ Hr V)).
Qed.

Lemma out_of_hours_warns_without_blocking_witness :
  let w := Samples.world (Ok (mkPdfData 1 Samples.long_text)) Samples.no_ocr
             (Samples.says
                (Samples.timetable_text (Samples.block_text "4:30" "10:45" None))) in
  let svc := llmService w OpenAI in
  let f := Samples.upload "application/pdf" "week.pdf" Samples.pdf in
  let b := Samples.block_value "4:30" "10:45" None in
  exists result t enriched warnings,
    In (BlockReport (prop "subject" b) "Time outside reasonable school hours")
      warnings
    /\ validateExtraction (p_data result) = Some (Valid enriched warnings)
    /\ processFile w svc (buffer f) (mimetype f) (originalname f)
       = (Returned
            (Extracted enriched
               (mkResultMeta (p_metadata result) (p_extractionMethod result)
                  (originalname f) (mimetype f) warnings)), t)
    /\ extractTimetable w svc (Some f)
       = (Returned
            (mkResponse 200 true (Some enriched)
               (Some (mkResponseMeta
                        (Some (mkResultMeta (p_metadata result)
                                 (p_extractionMethod result)
                                 (originalname f) (mimetype f) warnings))
                        (requestId w) (timestamp w)))
               None), t).
Proof.
  intros w svc f b. eexists _, _.
  eapply (out_of_hours_warns_without_blocking w svc f _ _ _ _ b 4 30 10 45).
  - lazy. reflexivity.
  - lazy. reflexivity.
  - lazy. reflexivity.
  - lazy. reflexivity.
  - lazy. reflexivity.
  - left. reflexivity.
  - lazy. reflexivity.
  - lazy. reflexivity.
  - left. lia.
Defined.

(** ** C1 *)

Section ValidationFailureResponse.

Variable w : World.
Variable svc : LlmService.

(** Whenever the validator answers invalid, [processFile] returns its
    failure object instead of throwing it, and the controller, which sends
    200 for every returned object, answers 200 with [success: true] and no
    data. *)
Lemma validation_failure_answered_200 f result t v :
  route w svc (buffer f) (mimetype f) = (Returned result, t) ->
  validateExtraction (p_data result) = Some v ->
  isValid v = false ->
  extractTimetable w svc (Some f)
  = (Returned
       (mkResponse 200 true None
          (Some (mkResponseMeta None (requestId w) (timestamp w))) None), t).
Proof.
  intros Hr Hv Hi.
  rewrite (extractTimetable_returned w svc f _ _
             (processFile_returned w svc _ _ (originalname f) _ _ _ Hr Hv)).
  destruct v; [reflexivity | reflexivity | discriminate Hi].
Qed.

End ValidationFailureResponse.

(** C1, on the code. A PDF whose extraction has an empty [timeblocks] list
    (a schema error), and one whose only block ends when it starts (a hard
    time-range error), both fail validation; the answer to POST /extract is
    nevertheless status 200 with [success: true], not 422 with
    [VALIDATION_FAILED]. *)
Theorem validation_failure_is_sent_as_success :
  let f := Samples.upload "application/pdf" "week.pdf" Samples.pdf in
  let answer :=
    mkResponse 200 true None
      (Some (mkResponseMeta None "req001" "2025-10-01T09:00:00.000Z")) None in
  let w1 := Samples.world (Ok (mkPdfData 1 Samples.long_text)) Samples.no_ocr
              (Samples.says (Samples.timetable_text EmptyString)) in
  let w2 := Samples.world (Ok (mkPdfData 1 Samples.long_text)) Samples.no_ocr
              (Samples.says
                 (Samples.timetable_text
                    (Samples.block_text "10:30" "10:30" None))) in
  (validateExtraction (Some (Samples.timetable_value []))
   = Some (SchemaInvalid
             [FieldReport "timeblocks" (Some "At least one timeblock is required")
                too_small])
   /\ outcome (postExtract w1 (llmService w1 OpenAI) (Some f)) = Returned answer)
  /\
  (validateExtraction
     (Some (Samples.timetable_value [Samples.block_value "10:30" "10:30" None]))
   = Some (RangesInvalid
             [BlockReport (Some (JStr "Maths")) "End time must be after start time"]
             [])
   /\ outcome (postExtract w2 (llmService w2 OpenAI) (Some f)) = Returned answer).
Proof.
  intros f answer w1 w2.
  split; split; vm_compute; reflexivity.
Qed.

(** ** C6 *)

(** C6. When pdf-parse returns a text whose trimmed length is at most 50,
    [processPDF] throws [PDF_PROCESSING_FAILED] with the message that asks
    for a PNG/JPEG upload, having called nothing but pdf-parse: no LLM, no
    OCR engine, no image library. [processFile] passes the error on
    unchanged. *)
Theorem textless_pdf_fails_before_llm
    (w : World) (svc : LlmService) (buf : Buffer) (pd : PdfData) (name : string) :
  pdfParse w buf = Ok pd ->
  (List.length (trim (pdf_text pd)) <= 50)%nat ->
  let failure :=
    mkThrown (Some "PDF_PROCESSING_FAILED") (Some pdf_scanned_message)
      (Some (DText pdf_failed_details)) in
  processPDF w svc buf = (Threw failure, [EnterPdfProcessor; PdfParse buf])
  /\ processFile w svc buf "application/pdf" name
     = (Threw failure, [EnterPdfProcessor; PdfParse buf]).
Proof.
  intros Hp Hlen failure.
  assert (processPDF w svc buf = (Threw failure, [EnterPdfProcessor; PdfParse buf]))
    as H.
  { unfold processPDF. rewrite Hp. cbn [call bind].
    replace (50 <? List.length (trim (pdf_text pd)))%nat with false
      by (symmetry; apply Nat.ltb_ge; exact Hlen).
    rewrite andb_false_r. reflexivity. }
  split; [exact H |].
  unfold processFile, route. cbn [startsWith String.prefix String.eqb Ascii.eqb
                                    Bool.eqb andb].
  rewrite H. reflexivity.
Qed.

Lemma textless_pdf_fails_before_llm_witness :
  let w := Samples.world (Ok (mkPdfData 1 Samples.short_text)) Samples.no_ocr
             (Samples.says (Samples.timetable_text EmptyString)) in
  let svc := llmService w OpenAI in
  let failure :=
    mkThrown (Some "PDF_PROCESSING_FAILED") (Some pdf_scanned_message)
      (Some (DText pdf_failed_details)) in
  processPDF w svc Samples.pdf
  = (Threw failure, [EnterPdfProcessor; PdfParse Samples.pdf])
  /\ processFile w svc Samples.pdf "application/pdf" "scan.pdf"
     = (Threw failure, [EnterPdfProcessor; PdfParse Samples.pdf]).
Proof.
  intros w svc.
  apply (textless_pdf_fails_before_llm w svc Samples.pdf
           (mkPdfData 1 Samples.short_text) "scan.pdf").
  - reflexivity.
  - vm_compute. repeat constructor.
Defined.

(* ================================================================== *)
(** * Shapes of runs *)
(* ================================================================== *)

Section RunFacts.

Lemma inside_ret {A} (a : A) : inside (ret a).
Proof. discriminate. Qed.

Lemma inside_throw {A} e : inside (@throw A e).
Proof. discriminate. Qed.

Lemma inside_call {A} ev (r : Result A) : inside (call ev r).
Proof. destruct r; discriminate. Qed.

Lemma inside_lift {A} (r : Result A) : inside (lift r).
Proof. destruct r; discriminate. Qed.

Lemma inside_bind {A B} (m : M A) (f : A -> M B) :
  inside m -> (forall a, inside (f a)) -> inside (bind m f).
Proof.
  unfold inside, outcome. destruct m as [[a | e | ] t]; cbn [bind fst]; intros Hm Hf.
  - specialize (Hf a). destruct (f a) as [r t']. exact Hf.
  - discriminate.
  - contradiction.
Qed.

Lemma inside_try_catch {A} (m : M A) (h : Thrown -> M A) :
  inside m -> (forall e, inside (h e)) -> inside (try_catch m h).
Proof.
  unfold inside, outcome. destruct m as [[a | e | ] t]; cbn [try_catch fst]; intros Hm Hh.
  - discriminate.
  - specialize (Hh e). destruct (h e) as [r t']. exact Hh.
  - contradiction.
Qed.

Lemma inside_modelled_validateExtraction data :
  inside (modelled (validateExtraction data)).
Proof.
  destruct (validateExtraction_total data) as [v ->]. discriminate.
Qed.

End RunFacts.

Section ClientFacts.

Variable w : World.

Lemma openai_request_inside prompt : inside (openai_request w prompt).
Proof.
  unfold openai_request. destruct (negb _); [apply inside_throw |].
  apply inside_try_catch; [| intros; apply inside_throw].
  apply inside_bind; [apply inside_call |]. intros r.
  apply inside_bind; [apply inside_lift |]. intros v. apply inside_ret.
Qed.

Lemma anthropic_request_inside prompt : inside (anthropic_request w prompt).
Proof.
  unfold anthropic_request. destruct (negb _); [apply inside_throw |].
  apply inside_try_catch; [| intros; apply inside_throw].
  apply inside_bind; [apply inside_call |]. intros r.
  destruct (brace_match _); [| apply inside_throw].
  apply inside_bind; [apply inside_lift |]. intros v. apply inside_ret.
Qed.

(** A request of a configured client makes exactly one call, to its own
    endpoint with its own prompt; an unconfigured client makes none. *)
Lemma openai_request_trace prompt :
  trace (openai_request w prompt)
  = if openai_configured w then [Chat OpenAI prompt] else [].
Proof.
  unfold openai_request.
  destruct (openai_configured w); cbn [negb]; [| reflexivity].
  destruct (create w OpenAI prompt) as [r | e]; cbn [call bind]; [| reflexivity].
  destruct (JSON_parse w (reply_content r)); reflexivity.
Qed.

Lemma anthropic_request_trace prompt :
  trace (anthropic_request w prompt)
  = if anthropic_configured w then [Chat Anthropic prompt] else [].
Proof.
  unfold anthropic_request.
  destruct (anthropic_configured w); cbn [negb]; [| reflexivity].
  destruct (create w Anthropic prompt) as [r | e]; cbn [call bind]; [| reflexivity].
  destruct (brace_match (reply_content r)); [| reflexivity].
  destruct (JSON_parse w _); reflexivity.
Qed.

Lemma extractWithVision_trace p image mime :
  trace (extractWithVision (llmService w p) image mime)
  = if isConfigured (llmService w p) then [Chat p (VisionPrompt image mime)] else [].
Proof.
  destruct p; [apply openai_request_trace | apply anthropic_request_trace].
Qed.

Lemma extractFromText_trace p text :
  trace (extractFromText (llmService w p) text)
  = if isConfigured (llmService w p) then [Chat p (TextPrompt text)] else [].
Proof.
  destruct p; [apply openai_request_trace | apply anthropic_request_trace].
Qed.

Lemma extractWithVision_inside p image mime :
  inside (extractWithVision (llmService w p) image mime).
Proof.
  destruct p; [apply openai_request_inside | apply anthropic_request_inside].
Qed.

Lemma extractFromText_inside p text :
  inside (extractFromText (llmService w p) text).
Proof.
  destruct p; [apply openai_request_inside | apply anthropic_request_inside].
Qed.

End ClientFacts.

Section ProcessorFacts.

Variable w : World.
Variable p : Provider.

Let svc := llmService w p.

Lemma extractWithOCR_inside image : inside (extractWithOCR w svc image).
Proof.
  unfold extractWithOCR, performOCR.
  apply inside_bind.
  { apply inside_try_catch; [| intros; apply inside_throw].
    apply inside_bind; [apply inside_call | intros; apply inside_ret]. }
  intros r. destruct (number_lt _ _); [apply inside_throw |].
  destruct (_ || _); [apply inside_throw |].
  destruct (isConfigured svc); [| apply inside_ret].
  apply inside_bind; [apply extractFromText_inside | intros; apply inside_ret].
Qed.

Lemma processImage_inside buf mime : inside (processImage w svc buf mime).
Proof.
  unfold processImage.
  apply inside_bind; [apply inside_call |]. intros _.
  apply inside_try_catch; [| intros; apply inside_throw].
  apply inside_bind.
  { unfold preprocessImage.
    apply inside_try_catch; [apply inside_call | intros; apply inside_ret]. }
  intros image. destruct (_ && _).
  - apply inside_try_catch.
    + apply inside_bind; [apply extractWithVision_inside | intros; apply inside_ret].
    + intros e. destruct (enableOCR _);
        [apply extractWithOCR_inside | apply inside_throw].
  - destruct (enableOCR _); [apply extractWithOCR_inside | apply inside_throw].
Qed.

Lemma processPDF_inside buf : inside (processPDF w svc buf).
Proof.
  unfold processPDF.
  apply inside_bind; [apply inside_call |]. intros _.
  apply inside_try_catch; [| intros; apply inside_throw].
  apply inside_bind; [apply inside_call |]. intros pd.
  destruct (_ && _); [| apply inside_throw].
  apply inside_bind; [apply extractFromText_inside | intros; apply inside_ret].
Qed.

(** No run of [processFile] leaves the fragment the model covers. *)
Lemma processFile_modelled buf mime name :
  outcome (processFile w svc buf mime name) <> Unmodelled.
Proof.
  change (inside (processFile w svc buf mime name)).
  unfold processFile.
  apply inside_try_catch.
  - apply inside_bind.
    + unfold route. destruct (startsWith _ _); [apply processImage_inside |].
      destruct (String.eqb _ _); [apply processPDF_inside | apply inside_throw].
    + intros r. apply inside_bind; [apply inside_modelled_validateExtraction |].
      intros v. destruct v; apply inside_ret.
  - intros e. destruct (truthy _); apply inside_throw.
Qed.

End ProcessorFacts.

(** ** C7 *)

Section OcrFallback.

Variable w : World.
Variable p : Provider.

Let svc := llmService w p.

Lemma preprocessImage_eq buf :
  preprocessImage w buf
  = (Returned match sharp w buf with Ok image => image | Err _ => buf end,
     [Sharp buf]).
Proof.
  unfold preprocessImage. destruct (sharp w buf); reflexivity.
Qed.

(** The run of the OCR path, case by case: the OCR engine is called once;
    its failure and the two quality failures end the run there; a text that
    passes both checks goes to the text request of a configured client, whose
    result or error becomes the result or error of the path. *)
Lemma extractWithOCR_run image :
  extractWithOCR w svc image
  = match recognize w image with
    | Err e => (Threw e, [Tesseract image])
    | Ok r =>
        let confidence := number_div w (ocr_confidence r) 100 in
        if number_lt confidence (ocrConfidenceThreshold (config w))
        then (Threw (Error (ocr_low_message w confidence)), [Tesseract image])
        else if Nat.eqb (List.length (ocr_text r)) 0
                || (List.length (trim (ocr_text r)) <? 50)%nat
        then (Threw (Error ocr_short_message), [Tesseract image])
        else if isConfigured svc
        then match extractFromText svc (ocr_text r) with
             | (Returned result, t) =>
                 (Returned (extracted result "ocr + llm-text" (Some confidence)),
                  Tesseract image :: t)
             | (Threw e, t) => (Threw e, Tesseract image :: t)
             | (Unmodelled, t) => (Unmodelled, Tesseract image :: t)
             end
        else (Returned
                (mkProcessed false None None None (Some confidence)
                   (Some "LLM not configured for text parsing")
                   (Some (ocr_text r))),
              [Tesseract image])
    end.
Proof.
  unfold extractWithOCR, performOCR.
  destruct (recognize w image) as [r | e]; cbn [call bind ret try_catch app];
    [| reflexivity].
  cbn [ocr_confidence ocr_text].
  destruct (number_lt _ _); [reflexivity |].
  destruct (_ || _); [reflexivity |].
  destruct (isConfigured svc); [| reflexivity].
  destruct (extractFromText svc (ocr_text r)) as [[res | e | ] t];
    cbn [bind ret app]; rewrite ?app_nil_r; reflexivity.
Qed.

(** [processImage] once the vision request has thrown and OCR is enabled:
    the run of the OCR path follows, and what it throws is wrapped. *)
Lemma processImage_fallback_run buf mime e tv :
  let image := match sharp w buf with Ok image => image | Err _ => buf end in
  enableLLMVision (config w) = true ->
  isConfigured svc = true ->
  enableOCR (config w) = true ->
  extractWithVision svc image mime = (Threw e, tv) ->
  processImage w svc buf mime
  = (match fst (extractWithOCR w svc image) with
     | Threw e' =>
         Threw (mkThrown (Some "IMAGE_PROCESSING_FAILED") (message e')
                  (Some (DText image_failed_details)))
     | o' => o'
     end,
     [EnterImageProcessor; Sharp buf] ++ tv ++ snd (extractWithOCR w svc image)).
Proof.
  intros image Hvision Hconf Hocr Ev.
  unfold processImage. rewrite preprocessImage_eq. fold image.
  cbn [call bind]. rewrite Hvision, Hconf. cbn [andb]. rewrite Ev.
  cbn [bind try_catch]. rewrite Hocr.
  destruct (extractWithOCR w svc image) as [[res | e' | ] t];
    cbn [try_catch throw app fst snd]; rewrite ?app_nil_r; reflexivity.
Qed.

Lemma trim_short_of_empty (t : Text) :
  Nat.eqb (List.length t) 0 = true -> (List.length (trim t) < 50)%nat.
Proof.
  destruct t; [intros _; cbn; lia | discriminate].
Qed.

End OcrFallback.

(** C7. When the vision request throws and OCR is enabled, [processImage]
    makes one vision request, one call to the OCR engine and at most one text
    request, in this order, and nothing else after sharp: there is no second
    attempt. If the OCR confidence is below the configured threshold, or,
    that not being so, the trimmed text is shorter than 50, no text request
    is made and the run ends with [IMAGE_PROCESSING_FAILED] carrying the
    quality message. A text that passes both checks is sent, as recognised,
    in the one text request, whose result is returned marked
    [ocr + llm-text] and whose error, like a failure of the OCR engine, ends
    the run with [IMAGE_PROCESSING_FAILED]. *)
Theorem vision_failure_falls_back_to_ocr_once
    (w : World) (p : Provider) (buf : Buffer) (mime : string) (e : Thrown) :
  let svc := llmService w p in
  let image := match sharp w buf with Ok image => image | Err _ => buf end in
  let failed := fun message =>
    Threw (mkThrown (Some "IMAGE_PROCESSING_FAILED") message
             (Some (DText image_failed_details))) in
  enableLLMVision (config w) = true ->
  isConfigured svc = true ->
  enableOCR (config w) = true ->
  outcome (extractWithVision svc image mime) = Threw e ->
  exists o rest,
    processImage w svc buf mime
    = (o, [EnterImageProcessor; Sharp buf; Chat p (VisionPrompt image mime);
           Tesseract image] ++ rest)
    /\ (rest = [] \/ exists text, rest = [Chat p (TextPrompt text)])
    /\ count is_ocr_call (trace (processImage w svc buf mime)) = 1%nat
    /\ count is_vision_chat (trace (processImage w svc buf mime)) = 1%nat
    /\ (count is_text_chat (trace (processImage w svc buf mime)) <= 1)%nat
    /\ (forall r,
          recognize w image = Ok r ->
          number_lt (number_div w (ocr_confidence r) 100)
            (ocrConfidenceThreshold (config w)) = true ->
          rest = []
          /\ o = failed
                   (Some (ocr_low_message w (number_div w (ocr_confidence r) 100))))
    /\ (forall r,
          recognize w image = Ok r ->
          number_lt (number_div w (ocr_confidence r) 100)
            (ocrConfidenceThreshold (config w)) = false ->
          (List.length (trim (ocr_text r)) < 50)%nat ->
          rest = [] /\ o = failed (Some ocr_short_message))
    /\ (forall r,
          recognize w image = Ok r ->
          number_lt (number_div w (ocr_confidence r) 100)
            (ocrConfidenceThreshold (config w)) = false ->
          (50 <= List.length (trim (ocr_text r)))%nat ->
          rest = [Chat p (TextPrompt (ocr_text r))]
          /\ (forall result,
                outcome (extractFromText svc (ocr_text r)) = Returned result ->
                o = Returned
                      (mkProcessed true (Some (llm_data result))
                         (Some (llm_metadata result)) (Some "ocr + llm-text")
                         (Some (number_div w (ocr_confidence r) 100)) None None))
          /\ (forall e',
                outcome (extractFromText svc (ocr_text r)) = Threw e' ->
                o = failed (message e')))
    /\ (forall e',
          recognize w image = Err e' -> rest = [] /\ o = failed (message e')).
Proof.
  intros svc image failed Hvision Hconf Hocr Hthrew. subst svc.
  pose proof (extractWithVision_trace w p image mime) as Ht.
  rewrite Hconf in Ht.
  destruct (extractWithVision (llmService w p) image mime) as [ov tv] eqn:Ev.
  cbn [outcome fst] in Hthrew. cbn [trace snd] in Ht. subst ov tv.
  pose proof (processImage_fallback_run w p buf mime e _ Hvision Hconf Hocr Ev)
    as Hp.
  fold image in Hp. rewrite (extractWithOCR_run w p image) in Hp.
  destruct (recognize w image) as [r | e'] eqn:Hr.
  - cbv zeta in Hp.
    destruct (number_lt (number_div w (ocr_confidence r) 100)
                (ocrConfidenceThreshold (config w))) eqn:Low.
    { (* confidence below the threshold *)
      cbn [fst snd app] in Hp. eexists _, []. split; [exact Hp |].
      rewrite Hp. cbn [trace snd].
      split; [left; reflexivity |]. split; [reflexivity |].
      split; [reflexivity |]. split; [cbn; lia |].
      split; [| split; [| split; [| intros e' H; discriminate H]]].
      - intros r0 H _. injection H as <-. split; reflexivity.
      - intros r0 H Hl _. injection H as <-. rewrite Low in Hl. discriminate Hl.
      - intros r0 H Hl _. injection H as <-. rewrite Low in Hl. discriminate Hl. }
    destruct (Nat.eqb (List.length (ocr_text r)) 0
              || (List.length (trim (ocr_text r)) <? 50)%nat) eqn:Short.
    { (* text too short *)
      cbn [fst snd app] in Hp. eexists _, []. split; [exact Hp |].
      rewrite Hp. cbn [trace snd].
      split; [left; reflexivity |]. split; [reflexivity |].
      split; [reflexivity |]. split; [cbn; lia |].
      split; [| split; [| split; [| intros e' H; discriminate H]]].
      - intros r0 H Hl. injection H as <-. rewrite Low in Hl. discriminate Hl.
      - intros r0 H _ _. injection H as <-. split; reflexivity.
      - intros r0 H _ Hlen. injection H as <-. exfalso.
        apply orb_true_iff in Short as [Hz | Hs].
        + pose proof (trim_short_of_empty _ Hz). lia.
        + apply Nat.ltb_lt in Hs. lia. }
    (* the text is forwarded *)
    apply orb_false_iff in Short as [_ Hlong]. apply Nat.ltb_ge in Hlong.
    rewrite Hconf in Hp.
    pose proof (extractFromText_trace w p (ocr_text r)) as Ht.
    rewrite Hconf in Ht.
    destruct (extractFromText (llmService w p) (ocr_text r)) as [o2 t2] eqn:E2.
    cbn [trace snd] in Ht. subst t2.
    assert (forall o,
              processImage w (llmService w p) buf mime
              = (o, [EnterImageProcessor; Sharp buf;
                     Chat p (VisionPrompt image mime); Tesseract image]
                    ++ [Chat p (TextPrompt (ocr_text r))]) ->
              (forall result, o2 = Returned result ->
                 o = Returned
                       (mkProcessed true (Some (llm_data result))
                          (Some (llm_metadata result)) (Some "ocr + llm-text")
                          (Some (number_div w (ocr_confidence r) 100)) None None)) ->
              (forall e', o2 = Threw e' -> o = failed (message e')) ->
              exists o rest,
                processImage w (llmService w p) buf mime
                = (o, [EnterImageProcessor; Sharp buf;
                       Chat p (VisionPrompt image mime); Tesseract image] ++ rest)
                /\ (rest = [] \/ exists text, rest = [Chat p (TextPrompt text)])
                /\ count is_ocr_call (trace (processImage w (llmService w p) buf mime)) = 1%nat
                /\ count is_vision_chat (trace (processImage w (llmService w p) buf mime)) = 1%nat
                /\ (count is_text_chat (trace (processImage w (llmService w p) buf mime)) <= 1)%nat
                /\ (forall r0,
                      Ok r = Ok r0 ->
                      number_lt (number_div w (ocr_confidence r0) 100)
                        (ocrConfidenceThreshold (config w)) = true ->
                      rest = []
                      /\ o = failed
                               (Some (ocr_low_message w
                                        (number_div w (ocr_confidence r0) 100))))
                /\ (forall r0,
                      Ok r = Ok r0 ->
                      number_lt (number_div w (ocr_confidence r0) 100)
                        (ocrConfidenceThreshold (config w)) = false ->
                      (List.length (trim (ocr_text r0)) < 50)%nat ->
                      rest = [] /\ o = failed (Some ocr_short_message))
                /\ (forall r0,
                      Ok r = Ok r0 ->
                      number_lt (number_div w (ocr_confidence r0) 100)
                        (ocrConfidenceThreshold (config w)) = false ->
                      (50 <= List.length (trim (ocr_text r0)))%nat ->
                      rest = [Chat p (TextPrompt (ocr_text r0))]
                      /\ (forall result,
                            outcome (extractFromText (llmService w p) (ocr_text r0))
                            = Returned result ->
                            o = Returned
                                  (mkProcessed true (Some (llm_data result))
                                     (Some (llm_metadata result))
                                     (Some "ocr + llm-text")
                                     (Some (number_div w (ocr_confidence r0) 100))
                                     None None))
                      /\ (forall e',
                            outcome (extractFromText (llmService w p) (ocr_text r0)) = Threw e' ->
                            o = failed (message e')))
                /\ (forall e', @Ok Recognized r = Err e' ->
                      rest = [] /\ o = failed (message e'))) as Hcase.
    { intros o Ho Hret Hthr. exists o, [Chat p (TextPrompt (ocr_text r))].
      split; [exact Ho |]. rewrite Ho. cbn [trace snd].
      split; [right; eexists; reflexivity |]. split; [reflexivity |].
      split; [reflexivity |]. split; [cbn; lia |].
      split; [| split; [| split; [| intros e' H; discriminate H]]].
      - intros r0 H Hl. injection H as <-. rewrite Low in Hl. discriminate Hl.
      - intros r0 H _ Hs. injection H as <-. lia.
      - intros r0 H _ _. injection H as <-. rewrite E2. cbn [outcome fst].
        split; [reflexivity |]. split; assumption. }
    destruct o2 as [res | e2 | ]; cbn [fst snd app] in Hp.
    + apply (Hcase _ Hp).
      * intros result H. injection H as <-. reflexivity.
      * intros e' H. discriminate H.
    + apply (Hcase _ Hp).
      * intros result H. discriminate H.
      * intros e' H. injection H as <-. reflexivity.
    + apply (Hcase _ Hp); intros x H; discriminate H.
  - (* the OCR engine failed *)
    cbn [fst snd app] in Hp. eexists _, []. split; [exact Hp |].
    rewrite Hp. cbn [trace snd].
    split; [left; reflexivity |]. split; [reflexivity |].
    split; [reflexivity |]. split; [cbn; lia |].
    split; [| split; [| split]]; try (intros r0 H; discriminate H).
    intros e0 H. injection H as <-. split; reflexivity.
Qed.

Lemma vision_failure_falls_back_to_ocr_once_witness :
  let blurred := Samples.world Samples.no_pdf
                   (Ok (mkRecognized Samples.long_text 40))
                   (Samples.vision_fails (Samples.timetable_text EmptyString)) in
  let sharp_text := Samples.world Samples.no_pdf
                      (Ok (mkRecognized Samples.long_text 90))
                      (Samples.vision_fails
                         (Samples.timetable_text
                            (Samples.block_text "9:00" "9:30" None))) in
  let seen := [EnterImageProcessor; Sharp Samples.png;
               Chat OpenAI (VisionPrompt Samples.png "image/png");
               Tesseract Samples.png] in
  processImage blurred (llmService blurred OpenAI) Samples.png "image/png"
  = (Threw (mkThrown (Some "IMAGE_PROCESSING_FAILED")
              (Some (ocr_low_message blurred (number_div blurred 40 100)))
              (Some (DText image_failed_details))),
     seen)
  /\ processImage sharp_text (llmService sharp_text OpenAI) Samples.png "image/png"
     = (Returned
          (mkProcessed true
             (Some (Samples.timetable_value
                      [Samples.block_value "9:00" "9:30" None]))
             (Some (mkLlmMeta "gpt-4o" 100)) (Some "ocr + llm-text")
             (Some (number_div sharp_text 90 100)) None None),
        seen ++ [Chat OpenAI (TextPrompt Samples.long_text)]).
Proof.
  intros blurred sharp_text seen. split.
  - destruct (vision_failure_falls_back_to_ocr_once blurred OpenAI Samples.png
                "image/png" (Error "429 Too Many Requests")
                eq_refl eq_refl eq_refl eq_refl)
      as (o & rest & Hp & _ & _ & _ & _ & Hlow & _).
    destruct (Hlow (mkRecognized Samples.long_text 40) eq_refl eq_refl)
      as [-> ->].
    rewrite Hp. reflexivity.
  - destruct (vision_failure_falls_back_to_ocr_once sharp_text OpenAI Samples.png
                "image/png" (Error "429 Too Many Requests")
                eq_refl eq_refl eq_refl eq_refl)
      as (o & rest & Hp & _ & _ & _ & _ & _ & _ & Hforward & _).
    destruct (Hforward (mkRecognized Samples.long_text 90) eq_refl eq_refl)
      as (-> & Hresult & _).
    + vm_compute. repeat constructor.
    + rewrite Hp.
      rewrite (Hresult
                 (mkLlmResult
                    (Samples.timetable_value
                       [Samples.block_value "9:00" "9:30" None])
                    (mkLlmMeta "gpt-4o" 100)));
        [reflexivity | vm_compute; reflexivity].
Defined.

(** ** C2 *)

Section Routing.

Variable w : World.
Variable svc : LlmService.

(** Every run of the image processor starts by entering it and, when it
    throws, throws [IMAGE_PROCESSING_FAILED]. *)
Lemma processImage_shape buf mime :
  exists o t,
    processImage w svc buf mime = (o, EnterImageProcessor :: t)
    /\ forall e, o = Threw e -> code e = Some "IMAGE_PROCESSING_FAILED".
Proof.
  unfold processImage. cbn [call bind].
  match goal with
  | |- context [try_catch ?body ?handler] => destruct body as [[res | e | ] tb]
  end; cbn [try_catch throw app]; eexists _, _; (split; [reflexivity |]);
    intros e' H; try discriminate H.
  injection H as <-. reflexivity.
Qed.

Lemma processFile_image buf mime name :
  startsWith "image/" mime = true ->
  exists o t,
    processFile w svc buf mime name = (o, EnterImageProcessor :: t)
    /\ forall e, o = Threw e -> code e = Some "IMAGE_PROCESSING_FAILED".
Proof.
  intros Hs. unfold processFile, route. rewrite Hs.
  destruct (processImage_shape buf mime) as (o & t & -> & Hcode).
  destruct o as [result | e | ]; cbn [bind try_catch].
  - destruct (validateExtraction_total (p_data result)) as [v ->].
    cbn [modelled ret bind].
    destruct v; cbn [ret]; eexists _, _; (split; [reflexivity |]);
      intros e H; discriminate H.
  - rewrite (Hcode e eq_refl). cbn [truthy String.eqb negb throw].
    eexists _, _. split; [reflexivity |].
    intros e' H. injection H as <-. exact (Hcode e eq_refl).
  - eexists _, _. split; [reflexivity |]. intros e H. discriminate H.
Qed.

Lemma processFile_unsupported buf mime name :
  startsWith "image/" mime = false ->
  mime <> "application/pdf" ->
  processFile w svc buf mime name = (Threw (unsupported mime), []).
Proof.
  intros Hs Hp. unfold processFile, route. rewrite Hs.
  destruct (String.eqb_spec mime "application/pdf"); [contradiction |].
  reflexivity.
Qed.

(** Every run of the PDF processor starts by entering it and, when it
    throws, throws [PDF_PROCESSING_FAILED]. *)
Lemma processPDF_shape buf :
  exists o t,
    processPDF w svc buf = (o, EnterPdfProcessor :: t)
    /\ forall e, o = Threw e -> code e = Some "PDF_PROCESSING_FAILED".
Proof.
  unfold processPDF. cbn [call bind].
  match goal with
  | |- context [try_catch ?body ?handler] => destruct body as [[res | e | ] tb]
  end; cbn [try_catch throw app]; eexists _, _; (split; [reflexivity |]);
    intros e' H; try discriminate H.
  injection H as <-. reflexivity.
Qed.

Lemma processFile_pdf buf name :
  exists o t,
    processFile w svc buf "application/pdf" name = (o, EnterPdfProcessor :: t)
    /\ forall e, o = Threw e -> code e = Some "PDF_PROCESSING_FAILED".
Proof.
  unfold processFile.
  change (route w svc buf "application/pdf") with (processPDF w svc buf).
  destruct (processPDF_shape buf) as (o & t & -> & Hcode).
  destruct o as [result | e | ]; cbn [bind try_catch].
  - destruct (validateExtraction_total (p_data result)) as [v ->].
    cbn [modelled ret bind].
    destruct v; cbn [ret]; eexists _, _; (split; [reflexivity |]);
      intros e H; discriminate H.
  - rewrite (Hcode e eq_refl). cbn [truthy String.eqb negb throw].
    eexists _, _. split; [reflexivity |].
    intros e' H. injection H as <-. exact (Hcode e eq_refl).
  - eexists _, _. split; [reflexivity |]. intros e H. discriminate H.
Qed.

(** The three ways [processFile] throws. *)
Lemma processFile_threw buf mime name e :
  outcome (processFile w svc buf mime name) = Threw e ->
  (startsWith "image/" mime = true /\ code e = Some "IMAGE_PROCESSING_FAILED")
  \/ (mime = "application/pdf" /\ code e = Some "PDF_PROCESSING_FAILED")
  \/ (startsWith "image/" mime = false /\ mime <> "application/pdf"
      /\ e = unsupported mime).
Proof.
  intros H.
  destruct (startsWith "image/" mime) eqn:Hs.
  - left. split; [reflexivity |].
    destruct (processFile_image buf mime name Hs) as (o & t & Hp & Hc).
    rewrite Hp in H. exact (Hc e H).
  - right. destruct (String.eqb_spec mime "application/pdf") as [-> | Hne].
    + left. split; [reflexivity |].
      destruct (processFile_pdf buf name) as (o & t & Hp & Hc).
      rewrite Hp in H. exact (Hc e H).
    + right. rewrite (processFile_unsupported buf mime name Hs Hne) in H.
      injection H as <-. auto.
Qed.

Lemma postExtract_filtered f :
  fieldname f = "file" ->
  mem (mimetype f) (allowedFileTypes (config w)) = false ->
  postExtract w svc (Some f)
  = (Returned
       (mkResponse 415 false None None
          (Some (mkErrorBody "UNSUPPORTED_FILE_TYPE"
                   ("File type " ++ mimetype f
                    ++ " is not supported. Allowed types: "
                    ++ join ", " (allowedFileTypes (config w)))%string
                   None None))), []).
Proof.
  intros Hf Hm. unfold postExtract, upload_single, fileFilter.
  rewrite Hf, Hm. reflexivity.
Qed.

End Routing.

(** C2, as stated, fails: given a buffer with MIME type [image/gif], the
    router enters the image processor, which sends the image to the vision
    model; here the run ends with a successful extraction. *)
Lemma router_sends_gif_to_image_processor :
  let w := Samples.world Samples.no_pdf Samples.no_ocr
             (Samples.says
                (Samples.timetable_text (Samples.block_text "9:00" "9:30" None))) in
  processFile w (llmService w OpenAI) Samples.gif "image/gif" "week.gif"
  = (Returned
       (Extracted
          (mkExtraction (Some (JObj []))
             [Samples.block_value "9:00" "9:30" (Some 30%Q)])
          (mkResultMeta (Some (mkLlmMeta "gpt-4o" 100)) (Some "claude-vision")
             "week.gif" "image/gif" [])),
     [EnterImageProcessor; Sharp Samples.gif;
      Chat OpenAI (VisionPrompt Samples.gif "image/gif")]).
Proof.
  intros w. vm_compute. reflexivity.
Qed.

(** C2, amended. An upload in the form field [file] with MIME type
    [image/gif] is refused by the upload filter in front of the router
    whenever the configured allowed list does not contain it (the default
    list is image/png, image/jpeg, application/pdf): the filter fails with
    [UNSUPPORTED_FILE_TYPE] and a message naming the allowed list, the
    request is answered 415, and nothing is called. The router itself sends
    every MIME type that starts with [image/], [image/gif] included, to the
    image processor, whose failures carry [IMAGE_PROCESSING_FAILED], and
    [application/pdf] to the PDF processor; it throws
    [UNSUPPORTED_FILE_TYPE], naming the supported types and calling neither
    processor, for the types that neither start with [image/] nor equal
    [application/pdf], and only for those. *)
Theorem gif_is_refused_by_the_upload_filter (w : World) (svc : LlmService) :
  let refusal :=
    ("File type image/gif is not supported. Allowed types: "
     ++ join ", " (allowedFileTypes (config w)))%string in
  (forall f,
     mimetype f = "image/gif" ->
     mem "image/gif" (allowedFileTypes (config w)) = false ->
     fileFilter w f
     = Err (mkThrown (Some "UNSUPPORTED_FILE_TYPE") (Some refusal) None)
     /\ (fieldname f = "file" ->
         postExtract w svc (Some f)
         = (Returned
              (mkResponse 415 false None None
                 (Some (mkErrorBody "UNSUPPORTED_FILE_TYPE" refusal None None))),
            [])))
  /\ (forall buf mime name,
        startsWith "image/" mime = true ->
        exists o t,
          processFile w svc buf mime name = (o, EnterImageProcessor :: t)
          /\ forall e, o = Threw e -> code e = Some "IMAGE_PROCESSING_FAILED")
  /\ (forall buf name,
        exists o t,
          processFile w svc buf "image/gif" name = (o, EnterImageProcessor :: t)
          /\ forall e, o = Threw e -> code e = Some "IMAGE_PROCESSING_FAILED")
  /\ (forall buf name,
        exists o t,
          processFile w svc buf "application/pdf" name
          = (o, EnterPdfProcessor :: t)
          /\ forall e, o = Threw e -> code e = Some "PDF_PROCESSING_FAILED")
  /\ (forall buf mime name,
        startsWith "image/" mime = false ->
        mime <> "application/pdf" ->
        processFile w svc buf mime name
        = (Threw
             (mkThrown (Some "UNSUPPORTED_FILE_TYPE")
                (Some ("File type " ++ mime ++ " is not supported")%string)
                (Some (DText "Supported types: image/png, image/jpeg, application/pdf"))),
           []))
  /\ (forall buf mime name e,
        outcome (processFile w svc buf mime name) = Threw e ->
        code e = Some "UNSUPPORTED_FILE_TYPE" ->
        startsWith "image/" mime = false /\ mime <> "application/pdf").
Proof.
  intros refusal. split; [| split; [| split; [| split; [| split]]]].
  - intros f Hm Hl.
    assert (fileFilter w f
            = Err (mkThrown (Some "UNSUPPORTED_FILE_TYPE") (Some refusal) None))
      as Hfilter.
    { unfold fileFilter. rewrite Hm, Hl. reflexivity. }
    split; [exact Hfilter |]. intros Hf.
    rewrite (postExtract_filtered w svc f Hf) by (rewrite Hm; exact Hl).
    rewrite Hm. reflexivity.
  - intros buf mime name Hs. exact (processFile_image w svc buf mime name Hs).
  - intros buf name. apply processFile_image. reflexivity.
  - intros buf name. exact (processFile_pdf w svc buf name).
  - intros buf mime name Hs Hp. exact (processFile_unsupported w svc buf mime name Hs Hp).
  - intros buf mime name e H Hc.
    destruct (processFile_threw w svc buf mime name e H)
      as [[_ Hi] | [[_ Hi] | (Hs & Hne & _)]].
    + rewrite Hi in Hc. discriminate Hc.
    + rewrite Hi in Hc. discriminate Hc.
    + auto.
Qed.

Lemma gif_is_refused_by_the_upload_filter_witness :
  let w := Samples.world Samples.no_pdf Samples.no_ocr
             (Samples.says (Samples.timetable_text EmptyString)) in
  let svc := llmService w OpenAI in
  let refusal :=
    "File type image/gif is not supported. Allowed types: image/png, image/jpeg, application/pdf" in
  let unsupported_text :=
    mkThrown (Some "UNSUPPORTED_FILE_TYPE")
      (Some "File type text/plain is not supported")
      (Some (DText "Supported types: image/png, image/jpeg, application/pdf")) in
  postExtract w svc (Some (Samples.upload "image/gif" "week.gif" Samples.gif))
  = (Returned
       (mkResponse 415 false None None
          (Some (mkErrorBody "UNSUPPORTED_FILE_TYPE" refusal None None))), [])
  /\ (exists o t,
        processFile w svc Samples.gif "image/webp" "week.webp"
        = (o, EnterImageProcessor :: t)
        /\ forall e, o = Threw e -> code e = Some "IMAGE_PROCESSING_FAILED")
  /\ processFile w svc Samples.gif "text/plain" "notes.txt"
     = (Threw unsupported_text, [])
  /\ (startsWith "image/" "text/plain" = false /\ "text/plain" <> "application/pdf").
Proof.
  intros w svc refusal unsupported_text.
  destruct (gif_is_refused_by_the_upload_filter w svc)
    as (Hfilter & Himage & _ & _ & Hrouter & Honly).
  split; [| split; [| split]].
  - destruct (Hfilter (Samples.upload "image/gif" "week.gif" Samples.gif)
                eq_refl eq_refl) as [_ Hpost].
    exact (Hpost eq_refl).
  - exact (Himage Samples.gif "image/webp" "week.webp" eq_refl).
  - apply (Hrouter Samples.gif "text/plain" "notes.txt"); [reflexivity |].
    intros H. discriminate H.
  - apply (Honly Samples.gif "text/plain" "notes.txt" unsupported_text);
      vm_compute; reflexivity.
Defined.

(** ** C8 *)

Section BracePattern.

Lemma from_first_open_spec s t :
  from_first_open s = Some t ->
  exists pre r, s = (pre ++ t)%string /\ has_char "{" pre = false
                /\ t = String "{" r.
Proof.
  induction s as [ | c s IH]; simpl; [discriminate |].
  destruct (Ascii.eqb_spec c "{") as [-> | Hc].
  - intros H. injection H as <-. exists EmptyString, s. auto.
  - intros H. destruct (IH H) as (pre & r & -> & Hpre & ->).
    exists (String c pre), r. simpl.
    destruct (Ascii.eqb_spec c "{"); [contradiction |]. auto.
Qed.

Lemma upto_last_close_none s :
  upto_last_close s = None <-> has_char "}" s = false.
Proof.
  induction s as [ | c s IH]; simpl; [tauto |].
  destruct (upto_last_close s) as [p | ].
  - split; [discriminate |]. intros H.
    apply orb_false_iff in H as [_ H]. apply IH in H. discriminate H.
  - destruct (Ascii.eqb c "}"); simpl; [split; discriminate |].
    split; [intros _; apply IH; reflexivity | reflexivity].
Qed.

Lemma upto_last_close_spec s m :
  upto_last_close s = Some m ->
  exists u post, s = (m ++ post)%string /\ m = (u ++ "}")%string
                 /\ has_char "}" post = false.
Proof.
  revert m. induction s as [ | c s IH]; simpl; intros m; [discriminate |].
  destruct (upto_last_close s) as [p | ] eqn:E.
  - intros H. injection H as <-.
    destruct (IH p eq_refl) as (u & post & -> & -> & Hpost).
    exists (String c u), post. auto.
  - destruct (Ascii.eqb_spec c "}") as [-> | Hc]; [| discriminate].
    intros H. injection H as <-.
    exists EmptyString, s. repeat split. apply upto_last_close_none. exact E.
Qed.

Lemma from_first_open_app pre r :
  has_char "{" pre = false ->
  from_first_open (pre ++ String "{" r) = Some (String "{" r).
Proof.
  induction pre as [ | c pre IH]; simpl; [reflexivity |].
  intros H. apply orb_false_iff in H as [Hc Hpre].
  rewrite Hc. exact (IH Hpre).
Qed.

Lemma upto_last_close_app u post :
  has_char "}" post = false ->
  upto_last_close ((u ++ "}") ++ post) = Some (u ++ "}")%string.
Proof.
  intros Hpost. induction u as [ | c u IH]; simpl.
  - apply upto_last_close_none in Hpost. rewrite Hpost. reflexivity.
  - rewrite IH. reflexivity.
Qed.

(** The match of the brace pattern is the part of the text from its first
    opening brace to its last closing brace. *)
Lemma brace_match_spec body m :
  brace_match body = Some m <->
  exists pre inner post,
    body = (pre ++ m ++ post)%string
    /\ m = String "{" (inner ++ "}")
    /\ has_char "{" pre = false
    /\ has_char "}" post = false.
Proof.
  unfold brace_match. split.
  - destruct (from_first_open body) as [t | ] eqn:E; [| discriminate].
    intros H.
    destruct (from_first_open_spec _ _ E) as (pre & r & -> & Hpre & ->).
    destruct (upto_last_close_spec _ _ H) as (u & post & Ht & -> & Hpost).
    destruct u as [ | c u].
    + simpl in Ht. discriminate Ht.
    + simpl in Ht. injection Ht as <- Hr.
      exists pre, u, post. simpl. rewrite Hr. auto.
  - intros (pre & inner & post & -> & -> & Hpre & Hpost).
    simpl. rewrite (from_first_open_app pre _ Hpre).
    exact (upto_last_close_app (String "{" inner) post Hpost).
Qed.

End BracePattern.

(** C8, as stated, fails for the OpenAI client: a reply that wraps a valid
    timetable object in prose makes both of its functions throw the syntax
    error of [JSON.parse]; the object between the braces is not extracted.
    The Anthropic client, given the same reply, returns that object. *)
Lemma openai_client_parses_whole_reply :
  let object := Samples.timetable_text (Samples.block_text "9:00" "9:30" None) in
  let body := ("Here is the timetable: " ++ object)%string in
  let w := Samples.with_anthropic_key
             (Samples.world Samples.no_pdf Samples.no_ocr (Samples.says body)) in
  let value := Samples.timetable_value [Samples.block_value "9:00" "9:30" None] in
  brace_match body = Some object
  /\ JSON_parse w object = Ok value
  /\ outcome (extractWithVision (llmService w OpenAI) Samples.png "image/png")
     = Threw JsonText.SyntaxError
  /\ outcome (extractFromText (llmService w OpenAI) Samples.long_text)
     = Threw JsonText.SyntaxError
  /\ outcome (extractWithVision (llmService w Anthropic) Samples.png "image/png")
     = Returned (mkLlmResult value (mkLlmMeta "gpt-4o" 100)).
Proof.
  intros object body w value.
  repeat split; vm_compute; reflexivity.
Qed.

(** C8, amended. The OpenAI client hands the whole reply to [JSON.parse]
    and throws what it throws; it extracts nothing. The Anthropic client
    hands over the part of the reply from its first opening brace to its
    last closing brace, and throws "Failed to extract JSON from LLM
    response" when there is no such part. Within each client the vision
    path and the text path treat the same reply in the same way. *)
Theorem llm_reply_parsing (w : World) :
  let meta := fun reply => mkLlmMeta (model (llm (config w))) (reply_tokens reply) in
  let parsed := fun (reply : Reply) (text : string) =>
    match JSON_parse w text with
    | Ok v => Returned (mkLlmResult v (meta reply))
    | Err e => Threw e
    end in
  (forall prompt reply,
     openai_configured w = true ->
     create w OpenAI prompt = Ok reply ->
     outcome (openai_request w prompt) = parsed reply (reply_content reply))
  /\ (forall prompt reply,
        anthropic_configured w = true ->
        create w Anthropic prompt = Ok reply ->
        (forall pre inner post,
           reply_content reply = (pre ++ String "{" (inner ++ "}") ++ post)%string ->
           has_char "{" pre = false ->
           has_char "}" post = false ->
           outcome (anthropic_request w prompt)
           = parsed reply (String "{" (inner ++ "}")))
        /\ (brace_match (reply_content reply) = None ->
            outcome (anthropic_request w prompt)
            = Threw (Error "Failed to extract JSON from LLM response")))
  /\ (forall p image mime text reply,
        create w p (VisionPrompt image mime) = Ok reply ->
        create w p (TextPrompt text) = Ok reply ->
        outcome (extractWithVision (llmService w p) image mime)
        = outcome (extractFromText (llmService w p) text)).
Proof.
  intros meta parsed. split; [| split].
  - intros prompt reply Hc Hr. unfold openai_request.
    rewrite Hc, Hr. cbn [negb call bind]. subst parsed. cbn beta.
    destruct (JSON_parse w (reply_content reply)); reflexivity.
  - intros prompt reply Hc Hr.
    assert (forall o, outcome (anthropic_request w prompt)
                      = match o with
                        | Some m => parsed reply m
                        | None => Threw (Error "Failed to extract JSON from LLM response")
                        end \/ brace_match (reply_content reply) <> o) as H.
    { intros o.
      destruct (brace_match (reply_content reply)) as [m | ] eqn:E.
      - destruct o as [m' | ]; [| right; discriminate].
        destruct (string_dec m m') as [<- | Hne]; [| right; congruence].
        left. unfold anthropic_request. rewrite Hc, Hr.
        cbn [negb call bind]. rewrite E. subst parsed. cbn beta.
        destruct (JSON_parse w m); reflexivity.
      - destruct o as [m' | ]; [right; discriminate |].
        left. unfold anthropic_request. rewrite Hc, Hr.
        cbn [negb call bind]. rewrite E. reflexivity. }
    split.
    + intros pre inner post Hbody Hpre Hpost.
      destruct (H (Some (String "{" (inner ++ "}")))) as [Ho | Hne]; [exact Ho |].
      exfalso. apply Hne. apply brace_match_spec.
      exists pre, inner, post. auto.
    + intros Hnone. destruct (H None) as [Ho | Hne]; [exact Ho | contradiction].
  - intros p image mime text reply Hv Ht.
    destruct p; cbn [llmService extractWithVision extractFromText
                       openaiService anthropicService].
    + unfold openai_extractWithVision, openai_extractFromText, openai_request.
      rewrite Hv, Ht. destruct (negb _); [reflexivity |].
      cbn [call bind].
      destruct (JSON_parse w (reply_content reply)); reflexivity.
    + unfold anthropic_extractWithVision, anthropic_extractFromText,
        anthropic_request.
      rewrite Hv, Ht. destruct (negb _); [reflexivity |].
      cbn [call bind].
      destruct (brace_match (reply_content reply)) as [m | ]; [| reflexivity].
      destruct (JSON_parse w m); reflexivity.
Qed.

Lemma llm_reply_parsing_witness :
  let blocks := Samples.block_text "9:00" "9:30" None in
  let inner :=
    (Samples.member "metadata" "{}" ++ ","
     ++ Samples.member "timeblocks" ("[" ++ blocks ++ "]"))%string in
  let body := ("Here is the timetable: " ++ String "{" (inner ++ "}"))%string in
  let w := Samples.with_anthropic_key
             (Samples.world Samples.no_pdf Samples.no_ocr (Samples.says body)) in
  let value := Samples.timetable_value [Samples.block_value "9:00" "9:30" None] in
  outcome (openai_request w (TextPrompt Samples.long_text))
  = Threw JsonText.SyntaxError
  /\ outcome (anthropic_request w (TextPrompt Samples.long_text))
     = Returned (mkLlmResult value (mkLlmMeta "gpt-4o" 100))
  /\ outcome (extractWithVision (llmService w OpenAI) Samples.png "image/png")
     = outcome (extractFromText (llmService w OpenAI) Samples.long_text).
Proof.
  intros blocks inner body w value.
  destruct (llm_reply_parsing w) as (Hopenai & Hanthropic & Hsame).
  split; [| split].
  - rewrite (Hopenai (TextPrompt Samples.long_text) (mkReply body 100));
      [vm_compute; reflexivity | reflexivity | reflexivity].
  - destruct (Hanthropic (TextPrompt Samples.long_text) (mkReply body 100))
      as [Hbraces _]; [reflexivity | reflexivity |].
    rewrite (Hbraces "Here is the timetable: " inner EmptyString);
      [vm_compute; reflexivity | vm_compute; reflexivity | reflexivity
       | reflexivity].
  - apply (Hsame OpenAI Samples.png "image/png" Samples.long_text
             (mkReply body 100)); reflexivity.
Defined.

(* ================================================================== *)
(** * Further properties of the validator *)
(* ================================================================== *)

Section RangeFacts.

Lemma check_block_entries b es :
  check_block b = Some es ->
  es = (if not_after_start b then [hard_error b] else [])
       ++ (if out_of_hours b then [hours_warning b] else []).
Proof.
  unfold check_block, not_after_start, out_of_hours.
  destruct (hour_min (prop "start_time" b)) as [[sh sm] | ]; [| discriminate].
  destruct (hour_min (prop "end_time" b)) as [[eh em] | ]; [| discriminate].
  intros H. injection H as <-. reflexivity.
Qed.

(** The hard errors of [validateTimeRanges] are, in order, one per block that
    does not end after it starts; its warnings, one per block out of
    hours. *)
Lemma validateTimeRanges_filters blocks errs :
  validateTimeRanges blocks = Some errs ->
  filter is_error errs = map hard_error (filter not_after_start blocks)
  /\ filter is_warning errs = map hours_warning (filter out_of_hours blocks)
  /\ List.length errs
     = (List.length (filter not_after_start blocks)
        + List.length (filter out_of_hours blocks))%nat.
Proof.
  revert errs. induction blocks as [ | b rest IH]; intros errs H.
  - injection H as <-. auto.
  - simpl in H.
    destruct (check_block b) as [es | ] eqn:E; [| discriminate].
    destruct (validateTimeRanges rest) as [more | ]; [| discriminate].
    injection H as <-.
    destruct (IH _ eq_refl) as (IH1 & IH2 & IH3).
    rewrite (check_block_entries _ _ E).
    rewrite !filter_app, !length_app, IH1, IH2, IH3. cbn [filter].
    destruct (not_after_start b), (out_of_hours b); cbn;
      repeat split; try reflexivity; lia.
Qed.

Lemma validateTimeRanges_app l1 l2 :
  validateTimeRanges (l1 ++ l2)
  = match validateTimeRanges l1, validateTimeRanges l2 with
    | Some e1, Some e2 => Some (e1 ++ e2)
    | _, _ => None
    end.
Proof.
  induction l1 as [ | b rest IH]; simpl.
  - destruct (validateTimeRanges l2); reflexivity.
  - rewrite IH. destruct (check_block b) as [es | ]; [| reflexivity].
    destruct (validateTimeRanges rest) as [e1 | ]; [| reflexivity].
    destruct (validateTimeRanges l2) as [e2 | ]; [| reflexivity].
    rewrite app_assoc. reflexivity.
Qed.

End RangeFacts.

(** X5. Whatever [validateTimeRanges] returns splits into hard errors and
    warnings and nothing else: the hard errors are, in the order of the
    blocks, one entry for each block whose end is not after its start, and
    the warnings one entry for each block that starts before 5 or ends after
    hour 23. *)
Theorem time_range_entries_follow_the_blocks
    (blocks : list JSON) (errs : list RangeError) :
  validateTimeRanges blocks = Some errs ->
  filter is_error errs = map hard_error (filter not_after_start blocks)
  /\ filter is_warning errs = map hours_warning (filter out_of_hours blocks)
  /\ List.length errs
     = (List.length (filter is_error errs)
        + List.length (filter is_warning errs))%nat.
Proof.
  intros H. destruct (validateTimeRanges_filters _ _ H) as (H1 & H2 & H3).
  split; [exact H1 |]. split; [exact H2 |].
  rewrite H1, H2, !length_map. exact H3.
Qed.

Lemma time_range_entries_follow_the_blocks_witness :
  let late := Samples.block_value "4:30" "4:00" None in
  let fine := Samples.block_value "9:00" "9:30" None in
  let errs := [hard_error late; hours_warning late] in
  filter is_error errs = map hard_error (filter not_after_start [late; fine])
  /\ filter is_warning errs = map hours_warning (filter out_of_hours [late; fine])
  /\ List.length errs
     = (List.length (filter is_error errs)
        + List.length (filter is_warning errs))%nat.
Proof.
  intros late fine errs.
  apply (time_range_entries_follow_the_blocks [late; fine] errs).
  vm_compute. reflexivity.
Defined.

(** X6. [validateTimeRanges] treats the blocks independently and keeps their
    order: the entries of a concatenated list are the entries of the first
    part followed by those of the second. *)
Theorem time_ranges_of_concatenation (l1 l2 : list JSON) :
  validateTimeRanges (l1 ++ l2)
  = match validateTimeRanges l1, validateTimeRanges l2 with
    | Some e1, Some e2 => Some (e1 ++ e2)
    | _, _ => None
    end.
Proof. exact (validateTimeRanges_app l1 l2). Qed.

(** X1. [validateExtraction] answers valid exactly when the schema accepts
    the candidate and every block ends after it starts; hours outside 5-23
    play no part in the verdict. *)
Theorem valid_iff_schema_and_positive_ranges (data : option JSON) :
  (exists enriched warnings,
     validateExtraction data = Some (Valid enriched warnings))
  <->
  (success (validateTimetable data) = true
   /\ forall blocks b, data_timeblocks data = Some blocks -> In b blocks ->
        not_after_start b = false).
Proof.
  split.
  - intros (enriched & warnings & V).
    destruct (Valid_inv _ _ _ V) as (S & blocks & errs & Hd & R & F & _).
    split; [exact S |]. intros blocks' b Hd' Hin.
    rewrite Hd in Hd'. injection Hd' as <-.
    destruct (validateTimeRanges_filters _ _ R) as (H1 & _ & _).
    rewrite F in H1.
    destruct (not_after_start b) eqn:E; [| reflexivity].
    assert (In b (filter not_after_start blocks)) as Hf
      by (apply filter_In; auto).
    apply (in_map hard_error) in Hf. rewrite <- H1 in Hf. contradiction.
  - intros (S & Hpos).
    destruct (schema_success_inv _ S) as (ps & items & -> & Hi & _ & Hwf).
    assert (data_timeblocks (Some (JObj ps)) = Some items) as Hd
      by (unfold data_timeblocks, prop; rewrite Hi; reflexivity).
    destruct (validateTimeRanges_total _ Hwf) as [errs R].
    destruct (enrichTimeBlocks_total _ Hwf) as [bs En].
    destruct (validateTimeRanges_filters _ _ R) as (H1 & _ & _).
    assert (filter not_after_start items = []) as Hnone.
    { destruct (filter not_after_start items) as [ | b rest] eqn:E; [reflexivity |].
      assert (In b (filter not_after_start items)) as Hin
        by (rewrite E; left; reflexivity).
      apply filter_In in Hin as [Hin Hb].
      rewrite (Hpos items b Hd Hin) in Hb. discriminate Hb. }
    rewrite Hnone in H1.
    unfold validateExtraction. rewrite S. cbn [negb].
    rewrite Hd, R, H1. cbn [map List.length Nat.ltb Nat.leb]. rewrite En.
    eexists _, _. reflexivity.
Qed.

Section MoreEnrichment.

Lemma enrichBlock_other_props b0 b k :
  enrichBlock b0 = Some b -> k <> "duration_minutes" -> prop k b = prop k b0.
Proof.
  unfold enrichBlock. intros H Hk.
  destruct (falsy (prop "duration_minutes" b0)).
  - destruct (hour_min (prop "start_time" b0)) as [[sh sm] | ]; [| discriminate].
    destruct (hour_min (prop "end_time" b0)) as [[eh em] | ]; [| discriminate].
    destruct b0 as [ | | | | | ps]; try discriminate H.
    injection H as <-. simpl. apply assoc_set_other. exact Hk.
  - injection H as <-. reflexivity.
Qed.

Lemma assoc_set_twice k v ps :
  assoc_set k v (assoc_set k v ps) = assoc_set k v ps.
Proof.
  induction ps as [ | [k' v'] rest IH]; simpl.
  - rewrite String.eqb_refl. reflexivity.
  - destruct (String.eqb k' k) eqn:E; simpl; rewrite E; [reflexivity |].
    rewrite IH. reflexivity.
Qed.

Lemma enrichBlock_idempotent b0 b :
  enrichBlock b0 = Some b -> enrichBlock b = Some b.
Proof.
  intros H.
  pose proof (enrichBlock_other_props _ _ "start_time" H ltac:(discriminate)) as Hs.
  pose proof (enrichBlock_other_props _ _ "end_time" H ltac:(discriminate)) as He.
  unfold enrichBlock in H |- *.
  destruct (falsy (prop "duration_minutes" b0)) eqn:F.
  - rewrite Hs, He.
    destruct (hour_min (prop "start_time" b0)) as [[sh sm] | ]; [| discriminate].
    destruct (hour_min (prop "end_time" b0)) as [[eh em] | ]; [| discriminate].
    destruct b0 as [ | | | | | ps]; try discriminate H.
    injection H as <-. clear F.
    match goal with
    | |- (if ?c then _ else _) = _ => destruct c; [| reflexivity]
    end.
    simpl. rewrite assoc_set_twice. reflexivity.
  - injection H as <-. rewrite F. reflexivity.
Qed.

End MoreEnrichment.

(** X2. Enrichment leaves everything but [duration_minutes] as the candidate
    had it: the metadata is the candidate's own, and every other property of
    every block, declared in the schema or not, is read back unchanged. In
    particular the defaults the schema declares ([subject_type],
    [confidence], [extraction_confidence]) are not filled in. *)
Theorem enrichment_changes_only_duration
    (data : option JSON) (enriched : ExtractionResult) (warnings : list Report)
    (blocks : list JSON) :
  validateExtraction data = Some (Valid enriched warnings) ->
  data_timeblocks data = Some blocks ->
  metadata enriched = data_metadata data
  /\ Forall2
       (fun b0 b => forall k, k <> "duration_minutes" -> prop k b = prop k b0)
       blocks (timeblocks enriched).
Proof.
  intros V Hd.
  destruct (Valid_inv _ _ _ V) as (_ & blocks' & errs & Hd' & _ & _ & En & Hm & _).
  rewrite Hd in Hd'. injection Hd' as <-.
  split; [exact Hm |].
  eapply Forall2_impl; [| exact (enrichTimeBlocks_Forall2 _ _ En)].
  intros b0 b Hb k Hk. exact (enrichBlock_other_props _ _ _ Hb Hk).
Qed.

Lemma enrichment_changes_only_duration_witness :
  let b := Samples.block_value "9:00" "9:30" None in
  let b' := Samples.block_value "9:00" "9:30" (Some 30%Q) in
  Some (JObj []) = data_metadata (Some (Samples.timetable_value [b]))
  /\ Forall2
       (fun b0 b => forall k, k <> "duration_minutes" -> prop k b = prop k b0)
       [b] [b'].
Proof.
  intros b b'.
  apply (enrichment_changes_only_duration (Some (Samples.timetable_value [b]))
           (mkExtraction (Some (JObj [])) [b']) [] [b]).
  - vm_compute. reflexivity.
  - reflexivity.
Defined.

(** X3. Enriching twice is enriching once: on the output of
    [enrichTimeBlocks] a second pass changes nothing. *)
Theorem enrichTimeBlocks_idempotent (blocks bs : list JSON) :
  enrichTimeBlocks blocks = Some bs -> enrichTimeBlocks bs = Some bs.
Proof.
  intros H. pose proof (enrichTimeBlocks_Forall2 _ _ H) as HF. clear H.
  induction HF as [ | b0 b l l' Hb _ IH]; [reflexivity |].
  simpl. rewrite (enrichBlock_idempotent _ _ Hb), IH. reflexivity.
Qed.

Lemma enrichTimeBlocks_idempotent_witness :
  let zero := Samples.block_value "9:00" "9:00" None in
  enrichTimeBlocks [Samples.block_value "9:00" "9:00" (Some 0%Q)]
  = Some [Samples.block_value "9:00" "9:00" (Some 0%Q)].
Proof.
  intros zero.
  apply (enrichTimeBlocks_idempotent [zero]).
  vm_compute. reflexivity.
Defined.

Section TimeBounds.

Lemma block_wf_times_bounded b :
  block_wf b ->
  exists sh sm eh em,
    hour_min (prop "start_time" b) = Some (sh, sm)
    /\ hour_min (prop "end_time" b) = Some (eh, em)
    /\ 0 <= sh * 60 + sm <= 6039 /\ 0 <= eh * 60 + em <= 6039.
Proof.
  intros [_ (s & Hs & Rs) (e & He & Re) _ _].
  destruct (time_re_hour_min _ Rs) as (sh & sm & H1 & B1 & B2).
  destruct (time_re_hour_min _ Re) as (eh & em & H2 & B3 & B4).
  exists sh, sm, eh, em. rewrite Hs, He. repeat split; auto; lia.
Qed.

End TimeBounds.

(** X4. The schema bounds neither hours by 23 nor minutes by 59, only both
    by two digits, so a time is at most 99:99. A duration that enrichment
    fills in for a validated block is therefore an integer between 1 and
    6039 minutes. *)
Theorem backfilled_duration_bounds
    (data : option JSON) (enriched : ExtractionResult) (warnings : list Report)
    (blocks : list JSON) :
  validateExtraction data = Some (Valid enriched warnings) ->
  data_timeblocks data = Some blocks ->
  Forall2
    (fun b0 b =>
       prop "duration_minutes" b0 = None ->
       exists d, prop "duration_minutes" b = Some (JNum (inject_Z d))
                 /\ 1 <= d <= 6039)
    blocks (timeblocks enriched).
Proof.
  intros V Hd.
  destruct (Valid_inv _ _ _ V) as (S & blocks' & errs & Hd' & R & F & En & _ & _).
  rewrite Hd in Hd'. injection Hd' as <-.
  destruct (schema_success_blocks _ _ S Hd) as [_ Hwf].
  apply (Forall2_Forall_l (fun b0 => block_wf b0 /\ In b0 blocks)
           (fun b0 b => enrichBlock b0 = Some b));
    [| | exact (enrichTimeBlocks_Forall2 _ _ En)].
  - intros b0 b [Hwf0 Hin] Hb Hnone.
    destruct (enrichBlock_spec _ _ Hwf0 Hb)
      as (sh & sm & eh & em & H1 & H2 & _ & _ & Hmissing & _).
    destruct (block_wf_times_bounded _ Hwf0)
      as (sh' & sm' & eh' & em' & H1' & H2' & B1 & B2).
    rewrite H1 in H1'. rewrite H2 in H2'.
    injection H1' as <- <-. injection H2' as <- <-.
    pose proof (no_hard_error_positive _ _ _ _ _ _ _ R F Hin H1 H2).
    eexists. split; [exact (Hmissing Hnone) | lia].
  - apply Forall_forall. intros b0 Hin. split; [| exact Hin].
    exact (proj1 (Forall_forall _ _) Hwf _ Hin).
Qed.

Lemma backfilled_duration_bounds_witness :
  let b := Samples.block_value "0:00" "99:99" None in
  let b' := Samples.block_value "0:00" "99:99" (Some 6039%Q) in
  Forall2
    (fun b0 b =>
       prop "duration_minutes" b0 = None ->
       exists d, prop "duration_minutes" b = Some (JNum (inject_Z d))
                 /\ 1 <= d <= 6039)
    [b] [b'].
Proof.
  intros b b'.
  apply (backfilled_duration_bounds (Some (Samples.timetable_value [b]))
           (mkExtraction (Some (JObj [])) [b'])
           [BlockReport (Some (JStr "Maths")) "Time outside reasonable school hours"]
           [b]).
  - vm_compute. reflexivity.
  - reflexivity.
Defined.

Section UndeclaredKeys.

Lemma parse_object_agree shape path ps ps' :
  (forall k, In k (map fst shape) -> assoc k ps = assoc k ps') ->
  parse (ZObject shape) path (Some (JObj ps))
  = parse (ZObject shape) path (Some (JObj ps')).
Proof.
  cbn [parse]. induction shape as [ | [k s] rest IH]; intros H; [reflexivity |].
  rewrite (H k) by (left; reflexivity).
  rewrite IH by (intros k' Hk'; apply H; right; exact Hk').
  reflexivity.
Qed.

Lemma parse_object_set shape path ps k v :
  ~ In k (map fst shape) ->
  parse (ZObject shape) path (Some (JObj (assoc_set k v ps)))
  = parse (ZObject shape) path (Some (JObj ps)).
Proof.
  intros Hk. apply parse_object_agree. intros k' Hk'.
  apply assoc_set_other. intros ->. contradiction.
Qed.

End UndeclaredKeys.

(** X7. The object schemas are not strict: setting a property that a schema
    does not declare, on a time block, on the metadata or on the candidate
    itself, changes none of the issues of the parse, whatever its value. *)
Theorem undeclared_properties_are_ignored
    (path : list PathSeg) (ps : list (string * JSON)) (k : string) (v : JSON) :
  (~ In k (shape_keys timeBlockSchema) ->
   parse timeBlockSchema path (Some (JObj (assoc_set k v ps)))
   = parse timeBlockSchema path (Some (JObj ps)))
  /\ (~ In k (shape_keys metadataSchema) ->
      parse metadataSchema path (Some (JObj (assoc_set k v ps)))
      = parse metadataSchema path (Some (JObj ps)))
  /\ (~ In k (shape_keys timetableExtractionSchema) ->
      validateTimetable (Some (JObj (assoc_set k v ps)))
      = validateTimetable (Some (JObj ps))).
Proof.
  split; [| split]; intros Hk.
  - exact (parse_object_set _ path ps k v Hk).
  - exact (parse_object_set _ path ps k v Hk).
  - unfold validateTimetable, safeParse.
    assert (parse timetableExtractionSchema [] (Some (JObj (assoc_set k v ps)))
            = parse timetableExtractionSchema [] (Some (JObj ps))) as ->
      by exact (parse_object_set _ [] ps k v Hk).
    reflexivity.
Qed.

Lemma undeclared_properties_are_ignored_witness :
  let ps := [("day", JStr "Monday"); ("start_time", JStr "9:00");
             ("end_time", JStr "9:30"); ("subject", JStr "Maths")] in
  parse timeBlockSchema [] (Some (JObj (ps ++ [("teacher", JStr "Miss Joynes")])))
  = parse timeBlockSchema [] (Some (JObj ps)).
Proof.
  intros ps.
  destruct (undeclared_properties_are_ignored [] ps "teacher" (JStr "Miss Joynes"))
    as (Hblock & _ & _).
  apply Hblock. vm_compute. intuition discriminate.
Defined.

(* ================================================================== *)
(** * Further properties of the request pipeline *)
(* ================================================================== *)

Section ErrorCodes.

Variable w : World.
Variable svc : LlmService.

(** What [extractTimetable] answers, by the way [processFile] ended. *)
Lemma extractTimetable_answer f r :
  outcome (extractTimetable w svc (Some f)) = Returned r ->
  (exists result,
     outcome (processFile w svc (buffer f) (mimetype f) (originalname f))
     = Returned result
     /\ r = mkResponse 200 true (result_data result)
              (Some (mkResponseMeta (result_metadata result)
                       (requestId w) (timestamp w))) None)
  \/ (exists error,
        outcome (processFile w svc (buffer f) (mimetype f) (originalname f))
        = Threw error
        /\ r = mkResponse (statusCode_of (code error)) false None None
                 (Some (mkErrorBody (or_default (code error) "INTERNAL_ERROR")
                          (or_default (message error) "An unexpected error occurred")
                          (details error) (Some (requestId w))))).
Proof.
  unfold extractTimetable.
  destruct (processFile w svc (buffer f) (mimetype f) (originalname f))
    as [[result | error | ] t]; cbn [bind ret try_catch outcome fst].
  - intros H. injection H as <-. left. eexists. split; reflexivity.
  - intros H. injection H as <-. right. eexists. split; reflexivity.
  - discriminate.
Qed.

End ErrorCodes.

(** X8. Whatever [processFile] throws carries one of three codes, fixed by
    the MIME type: [IMAGE_PROCESSING_FAILED] for a type starting with
    [image/], [PDF_PROCESSING_FAILED] for [application/pdf], and the
    [UNSUPPORTED_FILE_TYPE] object otherwise. It never throws
    [VALIDATION_FAILED], and the [PROCESSING_FAILED] wrapper of its [catch]
    is never produced. *)
Theorem processFile_throws_three_codes
    (w : World) (svc : LlmService) (buf : Buffer) (mime name : string)
    (e : Thrown) :
  outcome (processFile w svc buf mime name) = Threw e ->
  ((startsWith "image/" mime = true /\ code e = Some "IMAGE_PROCESSING_FAILED")
   \/ (mime = "application/pdf" /\ code e = Some "PDF_PROCESSING_FAILED")
   \/ (startsWith "image/" mime = false /\ mime <> "application/pdf"
       /\ e = unsupported mime))
  /\ code e <> Some "VALIDATION_FAILED"
  /\ code e <> Some "PROCESSING_FAILED".
Proof.
  intros H. pose proof (processFile_threw w svc buf mime name e H) as Hc.
  split; [exact Hc |].
  destruct Hc as [[_ Hc] | [[_ Hc] | (_ & _ & ->)]];
    try rewrite Hc; split; discriminate.
Qed.

Lemma processFile_throws_three_codes_witness :
  let w := Samples.world (Ok (mkPdfData 1 Samples.short_text)) Samples.no_ocr
             (Samples.says (Samples.timetable_text EmptyString)) in
  let e := mkThrown (Some "PDF_PROCESSING_FAILED") (Some pdf_scanned_message)
             (Some (DText pdf_failed_details)) in
  ((startsWith "image/" "application/pdf" = true
    /\ code e = Some "IMAGE_PROCESSING_FAILED")
   \/ ("application/pdf" = "application/pdf"
       /\ code e = Some "PDF_PROCESSING_FAILED")
   \/ (startsWith "image/" "application/pdf" = false
       /\ "application/pdf" <> "application/pdf"
       /\ e = unsupported "application/pdf"))
  /\ code e <> Some "VALIDATION_FAILED"
  /\ code e <> Some "PROCESSING_FAILED".
Proof.
  intros w e.
  apply (processFile_throws_three_codes w (llmService w OpenAI) Samples.pdf
           "application/pdf" "scan.pdf" e).
  vm_compute. reflexivity.
Defined.

(** X9. [extractTimetable] never throws, and answers with one of four
    statuses: 200 with [success: true] whenever [processFile] returned, 400
    [NO_FILE_PROVIDED] without a file, 415 for an unsupported type, 500 for
    a failure of a processor. The statuses 422 and 413 of its [catch] are
    never sent. *)
Theorem extractTimetable_statuses
    (w : World) (svc : LlmService) (file : option Upload) :
  (forall e, outcome (extractTimetable w svc file) <> Threw e)
  /\ forall r,
       outcome (extractTimetable w svc file) = Returned r ->
       (status r = 200 /\ body_success r = true /\ body_error r = None)
       \/ (body_success r = false /\ body_data r = None
           /\ exists eb,
                body_error r = Some eb
                /\ ((status r = 400 /\ err_code eb = "NO_FILE_PROVIDED"
                     /\ file = None)
                    \/ (status r = 415 /\ err_code eb = "UNSUPPORTED_FILE_TYPE")
                    \/ (status r = 500
                        /\ (err_code eb = "IMAGE_PROCESSING_FAILED"
                            \/ err_code eb = "PDF_PROCESSING_FAILED")))).
Proof.
  split.
  - intros e. unfold extractTimetable. destruct file as [f | ].
    + destruct (processFile w svc (buffer f) (mimetype f) (originalname f))
        as [[result | error | ] t]; cbn [bind ret try_catch outcome fst];
        discriminate.
    + discriminate.
  - intros r H. destruct file as [f | ].
    + destruct (extractTimetable_answer w svc f r H)
        as [(result & _ & ->) | (error & He & ->)].
      * left. auto.
      * right. split; [reflexivity |]. split; [reflexivity |].
        eexists. split; [reflexivity |]. cbn [status err_code].
        destruct (processFile_threw w svc _ _ _ _ He)
          as [[_ Hc] | [[_ Hc] | (_ & _ & ->)]]; try rewrite Hc.
        -- right. right. split; [reflexivity |]. left. reflexivity.
        -- right. right. split; [reflexivity |]. right. reflexivity.
        -- right. left. split; reflexivity.
    + injection H as <-. right. split; [reflexivity |]. split; [reflexivity |].
      eexists. split; [reflexivity |]. left. auto.
Qed.

Lemma extractTimetable_statuses_witness :
  let w := Samples.world (Ok (mkPdfData 1 Samples.short_text)) Samples.no_ocr
             (Samples.says (Samples.timetable_text EmptyString)) in
  let r := mkResponse 500 false None None
             (Some (mkErrorBody "PDF_PROCESSING_FAILED" pdf_scanned_message
                      (Some (DText pdf_failed_details)) (Some "req001"))) in
  (status r = 200 /\ body_success r = true /\ body_error r = None)
  \/ (body_success r = false /\ body_data r = None
      /\ exists eb,
           body_error r = Some eb
           /\ ((status r = 400 /\ err_code eb = "NO_FILE_PROVIDED"
                /\ Some (Samples.upload "application/pdf" "scan.pdf" Samples.pdf)
                   = None)
               \/ (status r = 415 /\ err_code eb = "UNSUPPORTED_FILE_TYPE")
               \/ (status r = 500
                   /\ (err_code eb = "IMAGE_PROCESSING_FAILED"
                       \/ err_code eb = "PDF_PROCESSING_FAILED")))).
Proof.
  intros w r.
  apply (proj2 (extractTimetable_statuses w (llmService w OpenAI)
                  (Some (Samples.upload "application/pdf" "scan.pdf" Samples.pdf)))
           r).
  vm_compute. reflexivity.
Defined.

Section Calls.

Variable w : World.
Variable p : Provider.

Let svc := llmService w p.

Lemma extractWithOCR_trace image :
  trace (extractWithOCR w svc image) = ocr_calls w p image.
Proof.
  unfold extractWithOCR, performOCR, ocr_calls.
  destruct (recognize w image) as [r | e]; cbn [call bind ret try_catch app];
    [| reflexivity].
  cbn [ocr_confidence ocr_text].
  destruct (number_lt _ _); [reflexivity |].
  destruct (_ || _); [reflexivity |].
  fold svc. destruct (isConfigured svc) eqn:Conf; [| reflexivity].
  pose proof (extractFromText_trace w p (ocr_text r)) as Ht.
  fold svc in Ht. rewrite Conf in Ht.
  destruct (extractFromText svc (ocr_text r)) as [[res | e | ] t];
    cbn [trace snd] in Ht; subst t; reflexivity.
Qed.

Lemma processPDF_trace buf :
  trace (processPDF w svc buf) = pdf_calls w p buf.
Proof.
  unfold processPDF, pdf_calls.
  destruct (pdfParse w buf) as [pd | e]; cbn [call bind ret try_catch app];
    [| reflexivity].
  destruct (_ && _); [| reflexivity].
  pose proof (extractFromText_trace w p (pdf_text pd)) as Ht.
  fold svc in Ht |- *.
  destruct (extractFromText svc (pdf_text pd)) as [[res | e | ] t];
    cbn [trace snd] in Ht; subst t;
    destruct (isConfigured svc); reflexivity.
Qed.

Lemma processImage_trace buf mime :
  trace (processImage w svc buf mime) = image_calls w p buf mime.
Proof.
  unfold processImage, image_calls. rewrite preprocessImage_eq.
  fold (preprocessed w buf). fold svc. cbn [call bind].
  destruct (enableLLMVision (config w) && isConfigured svc) eqn:V.
  - apply andb_true_iff in V as [_ Conf].
    pose proof (extractWithVision_trace w p (preprocessed w buf) mime) as Ht.
    fold svc in Ht. rewrite Conf in Ht.
    destruct (extractWithVision svc (preprocessed w buf) mime)
      as [[res | e | ] t]; cbn [trace snd] in Ht; subst t;
      cbn [bind ret try_catch outcome fst app]; try reflexivity.
    destruct (enableOCR (config w)); [| reflexivity].
    rewrite <- extractWithOCR_trace.
    destruct (extractWithOCR w svc (preprocessed w buf)) as [[res | e' | ] t];
      cbn [try_catch throw app trace snd]; rewrite ?app_nil_r; reflexivity.
  - destruct (enableOCR (config w)); [| reflexivity].
    rewrite <- extractWithOCR_trace.
    destruct (extractWithOCR w svc (preprocessed w buf)) as [[res | e' | ] t];
      cbn [try_catch throw app trace snd]; rewrite ?app_nil_r; reflexivity.
Qed.

End Calls.

Section CallsOfARequest.

Variable w : World.
Variable svc : LlmService.

(** Validation and the [catch] of [processFile] call nothing. *)
Lemma processFile_trace buf mime name :
  trace (processFile w svc buf mime name) = trace (route w svc buf mime).
Proof.
  unfold processFile.
  destruct (route w svc buf mime) as [[result | e | ] t];
    cbn [bind try_catch trace snd].
  - destruct (validateExtraction_total (p_data result)) as [v ->].
    cbn [modelled ret bind].
    destruct v; cbn [ret snd]; rewrite ?app_nil_r; reflexivity.
  - destruct (truthy (code e)); cbn [throw snd]; rewrite app_nil_r; reflexivity.
  - reflexivity.
Qed.

Lemma extractTimetable_trace f :
  trace (extractTimetable w svc (Some f))
  = trace (processFile w svc (buffer f) (mimetype f) (originalname f)).
Proof.
  unfold extractTimetable.
  destruct (processFile w svc (buffer f) (mimetype f) (originalname f))
    as [[result | error | ] t]; cbn [bind ret try_catch trace snd];
    rewrite ?app_nil_r; reflexivity.
Qed.

End CallsOfARequest.

Section RequestCalls.

Variable w : World.
Variable p : Provider.

(** The calls of one request, by MIME type. *)
Lemma request_calls f :
  trace (extractTimetable w (llmService w p) (Some f))
  = if startsWith "image/" (mimetype f) then image_calls w p (buffer f) (mimetype f)
    else if String.eqb (mimetype f) "application/pdf" then pdf_calls w p (buffer f)
    else [].
Proof.
  rewrite extractTimetable_trace, processFile_trace. unfold route.
  destruct (startsWith "image/" (mimetype f)); [apply processImage_trace |].
  destruct (String.eqb (mimetype f) "application/pdf");
    [apply processPDF_trace | reflexivity].
Qed.

Lemma ocr_calls_counts image :
  count is_ocr_call (ocr_calls w p image) = 1%nat
  /\ count is_vision_chat (ocr_calls w p image) = 0%nat
  /\ (count is_text_chat (ocr_calls w p image) <= 1)%nat
  /\ count is_sharp (ocr_calls w p image) = 0%nat
  /\ count is_pdf_parse (ocr_calls w p image) = 0%nat
  /\ (isConfigured (llmService w p) = false ->
      count is_chat (ocr_calls w p image) = 0%nat).
Proof.
  unfold ocr_calls.
  destruct (recognize w image) as [r | e]; [| cbn; auto 10].
  destruct (number_lt _ _); [cbn; auto 10 |].
  destruct (_ || _); [cbn; auto 10 |].
  destruct (isConfigured (llmService w p)); cbn; repeat split; auto.
  discriminate.
Qed.

Lemma image_calls_counts buf mime :
  (count is_ocr_call (image_calls w p buf mime) <= 1)%nat
  /\ (count is_vision_chat (image_calls w p buf mime) <= 1)%nat
  /\ (count is_text_chat (image_calls w p buf mime) <= 1)%nat
  /\ count is_sharp (image_calls w p buf mime) = 1%nat
  /\ count is_pdf_parse (image_calls w p buf mime) = 0%nat
  /\ (isConfigured (llmService w p) = false ->
      count is_chat (image_calls w p buf mime) = 0%nat).
Proof.
  unfold image_calls.
  destruct (ocr_calls_counts (preprocessed w buf)) as (H1 & H2 & H3 & H4 & H5 & H6).
  unfold count in *.
  destruct (isConfigured (llmService w p)) eqn:Conf;
    destruct (enableLLMVision (config w)); cbn [andb app filter is_ocr_call
      is_vision_chat is_text_chat is_sharp is_pdf_parse is_chat List.length];
    try destruct (outcome _); destruct (enableOCR (config w));
    cbn [filter List.length];
    rewrite ?H1, ?H2, ?H4, ?H5, ?(H6 eq_refl);
    repeat split; auto; try lia; try discriminate.
Qed.

Lemma pdf_calls_counts buf :
  count is_ocr_call (pdf_calls w p buf) = 0%nat
  /\ count is_vision_chat (pdf_calls w p buf) = 0%nat
  /\ (count is_text_chat (pdf_calls w p buf) <= 1)%nat
  /\ count is_sharp (pdf_calls w p buf) = 0%nat
  /\ count is_pdf_parse (pdf_calls w p buf) = 1%nat
  /\ (isConfigured (llmService w p) = false ->
      count is_chat (pdf_calls w p buf) = 0%nat).
Proof.
  unfold pdf_calls.
  destruct (pdfParse w buf) as [pd | e]; [| cbn; auto 10].
  destruct (_ && _); [| cbn; auto 10].
  destruct (isConfigured (llmService w p)); cbn; repeat split; auto.
  discriminate.
Qed.

End RequestCalls.

(** X13. Nothing is tried twice. In the handling of one request there is at
    most one vision request, one text request, one call of the OCR engine,
    one of the image library and one of the PDF parser. *)
Theorem a_request_calls_each_service_at_most_once
    (w : World) (p : Provider) (file : option Upload) :
  let t := trace (extractTimetable w (llmService w p) file) in
  (count is_vision_chat t <= 1)%nat
  /\ (count is_text_chat t <= 1)%nat
  /\ (count is_ocr_call t <= 1)%nat
  /\ (count is_sharp t <= 1)%nat
  /\ (count is_pdf_parse t <= 1)%nat.
Proof.
  intros t. subst t. destruct file as [f | ]; [| cbn; auto 10].
  rewrite request_calls.
  destruct (startsWith "image/" (mimetype f)).
  - destruct (image_calls_counts w p (buffer f) (mimetype f))
      as (H1 & H2 & H3 & H4 & H5 & _).
    rewrite H4, H5. auto 10.
  - destruct (String.eqb (mimetype f) "application/pdf"); [| cbn; auto 10].
    destruct (pdf_calls_counts w p (buffer f)) as (H1 & H2 & H3 & H4 & H5 & _).
    rewrite H1, H2, H4, H5. auto 10.
Qed.

(** X12. A client without an API key never reaches its endpoint: when
    [isConfigured] is false, the handling of a request makes no LLM request
    at all, whatever the file and the toggles. *)
Theorem no_key_no_llm_request
    (w : World) (p : Provider) (file : option Upload) :
  isConfigured (llmService w p) = false ->
  count is_chat (trace (extractTimetable w (llmService w p) file)) = 0%nat.
Proof.
  intros Conf. destruct file as [f | ]; [| reflexivity].
  rewrite request_calls.
  destruct (startsWith "image/" (mimetype f)).
  - exact (proj2 (proj2 (proj2 (proj2 (proj2
             (image_calls_counts w p (buffer f) (mimetype f)))))) Conf).
  - destruct (String.eqb (mimetype f) "application/pdf"); [| reflexivity].
    exact (proj2 (proj2 (proj2 (proj2 (proj2
             (pdf_calls_counts w p (buffer f)))))) Conf).
Qed.

Lemma no_key_no_llm_request_witness :
  let w := Samples.world Samples.no_pdf (Ok (mkRecognized Samples.long_text 90))
             (Samples.says (Samples.timetable_text EmptyString)) in
  count is_chat
    (trace (extractTimetable w (llmService w Anthropic)
              (Some (Samples.upload "image/png" "week.png" Samples.png))))
  = 0%nat.
Proof.
  intros w.
  apply (no_key_no_llm_request w Anthropic).
  reflexivity.
Defined.

(** X10. The PDF path reads the embedded text and nothing else: it never
    calls the OCR engine, the image library or the vision endpoint. After
    pdf-parse it makes either no call, or one text request carrying the
    untrimmed text; that request is made exactly when pdf-parse succeeded,
    the trimmed text is longer than 50 and the client is configured. *)
Theorem pdf_path_calls
    (w : World) (p : Provider) (buf : Buffer) (name : string) :
  let t := trace (processFile w (llmService w p) buf "application/pdf" name) in
  count is_ocr_call t = 0%nat
  /\ count is_sharp t = 0%nat
  /\ count is_vision_chat t = 0%nat
  /\ ((t = [EnterPdfProcessor; PdfParse buf]
       /\ ~ (exists pd, pdfParse w buf = Ok pd
                        /\ (50 < List.length (trim (pdf_text pd)))%nat
                        /\ isConfigured (llmService w p) = true))
      \/ (exists pd, pdfParse w buf = Ok pd
                     /\ (50 < List.length (trim (pdf_text pd)))%nat
                     /\ isConfigured (llmService w p) = true
                     /\ t = [EnterPdfProcessor; PdfParse buf;
                             Chat p (TextPrompt (pdf_text pd))])).
Proof.
  intros t. subst t. rewrite processFile_trace.
  change (route w (llmService w p) buf "application/pdf")
    with (processPDF w (llmService w p) buf).
  rewrite processPDF_trace.
  destruct (pdf_calls_counts w p buf) as (H1 & H2 & _ & H4 & _ & _).
  split; [exact H1 |]. split; [exact H4 |]. split; [exact H2 |].
  unfold pdf_calls.
  destruct (pdfParse w buf) as [pd | e].
  2: { left. split; [reflexivity |]. intros (pd & H & _). discriminate H. }
  destruct (negb (Nat.eqb (List.length (pdf_text pd)) 0)) eqn:Hne; cbn [andb].
  - destruct (Nat.ltb_spec 50 (List.length (trim (pdf_text pd)))) as [Hlt | Hge].
    + destruct (isConfigured (llmService w p)) eqn:Conf.
      * right. exists pd. auto.
      * left. split; [reflexivity |]. intros (pd' & _ & _ & H). discriminate H.
    + left. split; [reflexivity |]. intros (pd' & H & Hlt & _).
      injection H as Heq. subst pd'. lia.
  - left. split; [reflexivity |]. intros (pd' & H & Hlt & _).
    injection H as Heq. subst pd'.
    apply negb_false_iff, Nat.eqb_eq in Hne.
    destruct (pdf_text pd); [simpl in Hlt; lia | discriminate Hne].
Qed.

Section ImagePaths.

Variable w : World.
Variable p : Provider.

Let svc := llmService w p.

Lemma processImage_vision_run buf mime :
  enableLLMVision (config w) = true ->
  isConfigured svc = true ->
  processImage w svc buf mime
  = match extractWithVision svc (preprocessed w buf) mime with
    | (Returned result, tv) =>
        (Returned (extracted result "claude-vision" None),
         [EnterImageProcessor; Sharp buf] ++ tv)
    | (Threw visionError, tv) =>
        let (r, t) :=
          try_catch
            (if enableOCR (config w) then extractWithOCR w svc (preprocessed w buf)
             else throw visionError)
            (fun error =>
               throw (mkThrown (Some "IMAGE_PROCESSING_FAILED") (message error)
                        (Some (DText image_failed_details)))) in
        (r, [EnterImageProcessor; Sharp buf] ++ tv ++ t)
    | (Unmodelled, tv) => (Unmodelled, [EnterImageProcessor; Sharp buf] ++ tv)
    end.
Proof.
  intros V Conf. unfold processImage. rewrite preprocessImage_eq.
  fold (preprocessed w buf). cbn [call bind]. rewrite V, Conf. cbn [andb].
  destruct (extractWithVision svc (preprocessed w buf) mime) as [[res | e | ] tv];
    cbn [bind ret try_catch app]; rewrite ?app_nil_r; try reflexivity.
  destruct (enableOCR (config w)).
  - destruct (extractWithOCR w svc (preprocessed w buf)) as [[res | e' | ] t];
      cbn [try_catch throw app]; rewrite ?app_nil_r; reflexivity.
  - cbn [throw try_catch app]. rewrite ?app_nil_r. reflexivity.
Qed.

Lemma processImage_vision_success buf mime result :
  enableLLMVision (config w) = true ->
  isConfigured svc = true ->
  outcome (extractWithVision svc (preprocessed w buf) mime) = Returned result ->
  processImage w svc buf mime
  = (Returned (mkProcessed true (Some (llm_data result))
                 (Some (llm_metadata result)) (Some "claude-vision")
                 None None None),
     [EnterImageProcessor; Sharp buf;
      Chat p (VisionPrompt (preprocessed w buf) mime)]).
Proof.
  intros V Conf H.
  rewrite (processImage_vision_run buf mime V Conf).
  pose proof (extractWithVision_trace w p (preprocessed w buf) mime) as Ht.
  fold svc in Ht. rewrite Conf in Ht.
  destruct (extractWithVision svc (preprocessed w buf) mime) as [o tv].
  cbn [outcome fst] in H. cbn [trace snd] in Ht. subst o tv. reflexivity.
Qed.

End ImagePaths.

(** X11. When the vision request succeeds, OCR is not run: [processImage]
    returns the vision result, marked [claude-vision], after exactly the
    image library and the one vision request. *)
Theorem vision_success_skips_ocr
    (w : World) (p : Provider) (buf : Buffer) (mime : string)
    (result : LlmResult) :
  let svc := llmService w p in
  enableLLMVision (config w) = true ->
  isConfigured svc = true ->
  outcome (extractWithVision svc (preprocessed w buf) mime) = Returned result ->
  processImage w svc buf mime
  = (Returned (mkProcessed true (Some (llm_data result))
                 (Some (llm_metadata result)) (Some "claude-vision")
                 None None None),
     [EnterImageProcessor; Sharp buf;
      Chat p (VisionPrompt (preprocessed w buf) mime)]).
Proof.
  intros svc V Conf H.
  exact (processImage_vision_success w p buf mime result V Conf H).
Qed.

Lemma vision_success_skips_ocr_witness :
  let w := Samples.world Samples.no_pdf Samples.no_ocr
             (Samples.says (Samples.timetable_text EmptyString)) in
  processImage w (llmService w OpenAI) Samples.png "image/png"
  = (Returned (mkProcessed true (Some (Samples.timetable_value []))
                 (Some (mkLlmMeta "gpt-4o" 100)) (Some "claude-vision")
                 None None None),
     [EnterImageProcessor; Sharp Samples.png;
      Chat OpenAI (VisionPrompt Samples.png "image/png")]).
Proof.
  intros w.
  apply (vision_success_skips_ocr w OpenAI Samples.png "image/png"
           (mkLlmResult (Samples.timetable_value []) (mkLlmMeta "gpt-4o" 100))).
  - reflexivity.
  - reflexivity.
  - vm_compute. reflexivity.
Defined.

(** X14. A failure of the image library does not fail the request: the
    original buffer is used in place of the processed image, so the vision
    request that follows carries the uploaded bytes. *)
Theorem sharp_failure_uses_original_image
    (w : World) (p : Provider) (buf : Buffer) (mime : string) (e : Thrown) :
  let svc := llmService w p in
  sharp w buf = Err e ->
  enableLLMVision (config w) = true ->
  isConfigured svc = true ->
  exists rest,
    trace (processImage w svc buf mime)
    = [EnterImageProcessor; Sharp buf; Chat p (VisionPrompt buf mime)] ++ rest
    /\ (forall result,
          outcome (extractWithVision svc buf mime) = Returned result ->
          rest = []
          /\ outcome (processImage w svc buf mime)
             = Returned (mkProcessed true (Some (llm_data result))
                           (Some (llm_metadata result)) (Some "claude-vision")
                           None None None)).
Proof.
  intros svc Hs V Conf. subst svc.
  assert (preprocessed w buf = buf) as Hp by (unfold preprocessed; rewrite Hs; reflexivity).
  rewrite processImage_trace. unfold image_calls. rewrite Hp.
  rewrite V, Conf. cbn [andb app].
  eexists. split; [reflexivity |].
  intros result H. rewrite H. split; [reflexivity |].
  pose proof (processImage_vision_success w p buf mime result V Conf) as Hrun.
  rewrite Hp in Hrun. rewrite (Hrun H). reflexivity.
Qed.

Lemma sharp_failure_uses_original_image_witness :
  let w := with_failing_sharp
             (Samples.world Samples.no_pdf Samples.no_ocr
                (Samples.says (Samples.timetable_text EmptyString))) in
  let svc := llmService w OpenAI in
  exists rest,
    trace (processImage w svc Samples.png "image/png")
    = [EnterImageProcessor; Sharp Samples.png;
       Chat OpenAI (VisionPrompt Samples.png "image/png")] ++ rest
    /\ (forall result,
          outcome (extractWithVision svc Samples.png "image/png") = Returned result ->
          rest = []
          /\ outcome (processImage w svc Samples.png "image/png")
             = Returned (mkProcessed true (Some (llm_data result))
                           (Some (llm_metadata result)) (Some "claude-vision")
                           None None None)).
Proof.
  intros w svc.
  apply (sharp_failure_uses_original_image w OpenAI Samples.png "image/png"
           (Error "Input buffer contains unsupported image format"));
    reflexivity.
Defined.

(** X20. With OCR enabled and no API key, an image whose recognised text
    passes both quality checks still yields no data: the OCR path returns
    its raw-text object, which has no [data], so [processFile] returns the
    validation failure whose only issue is a wrong type at the root, with
    no partial data, after the image library and the OCR engine alone. *)
Theorem ocr_without_key_fails_validation
    (w : World) (p : Provider) (buf : Buffer) (mime name : string)
    (r : Recognized) :
  startsWith "image/" mime = true ->
  isConfigured (llmService w p) = false ->
  enableOCR (config w) = true ->
  recognize w (preprocessed w buf) = Ok r ->
  number_lt (number_div w (ocr_confidence r) 100)
    (ocrConfidenceThreshold (config w)) = false ->
  (50 <= List.length (trim (ocr_text r)))%nat ->
  processFile w (llmService w p) buf mime name
  = (Returned
       (ValidationFailed
          (mkThrown (Some "VALIDATION_FAILED")
             (Some "Extracted data failed validation")
             (Some (DReports [FieldReport EmptyString None invalid_type])))
          None None),
     [EnterImageProcessor; Sharp buf; Tesseract (preprocessed w buf)]).
Proof.
  intros Hs Conf Hocr Hr Hlow Hlen.
  assert (route w (llmService w p) buf mime
          = (Returned
               (mkProcessed false None None None
                  (Some (number_div w (ocr_confidence r) 100))
                  (Some "LLM not configured for text parsing")
                  (Some (ocr_text r))),
             [EnterImageProcessor; Sharp buf; Tesseract (preprocessed w buf)]))
    as Hroute.
  { unfold route. rewrite Hs. unfold processImage.
    rewrite preprocessImage_eq. fold (preprocessed w buf).
    cbn [call bind]. rewrite Conf, andb_false_r, Hocr.
    unfold extractWithOCR, performOCR. rewrite Hr.
    cbn [call bind ret try_catch app ocr_confidence ocr_text].
    rewrite Hlow.
    assert (Nat.eqb (List.length (ocr_text r)) 0 = false) as ->.
    { destruct (ocr_text r); [simpl in Hlen; lia | reflexivity]. }
    assert ((List.length (trim (ocr_text r)) <? 50)%nat = false) as ->
      by (apply Nat.ltb_ge; exact Hlen).
    cbn [orb]. rewrite Conf. reflexivity. }
  rewrite (processFile_returned w (llmService w p) buf mime name _ _
             (SchemaInvalid [FieldReport EmptyString None invalid_type]) Hroute);
    reflexivity.
Qed.

Lemma ocr_without_key_fails_validation_witness :
  let w := Samples.world Samples.no_pdf (Ok (mkRecognized Samples.long_text 90))
             (Samples.says (Samples.timetable_text EmptyString)) in
  processFile w (llmService w Anthropic) Samples.png "image/png" "week.png"
  = (Returned
       (ValidationFailed
          (mkThrown (Some "VALIDATION_FAILED")
             (Some "Extracted data failed validation")
             (Some (DReports [FieldReport EmptyString None invalid_type])))
          None None),
     [EnterImageProcessor; Sharp Samples.png; Tesseract Samples.png]).
Proof.
  intros w.
  apply (ocr_without_key_fails_validation w Anthropic Samples.png "image/png"
           "week.png" (mkRecognized Samples.long_text 90)).
  - reflexivity.
  - reflexivity.
  - reflexivity.
  - reflexivity.
  - vm_compute. reflexivity.
  - vm_compute. repeat constructor.
Defined.

(** X19. [hasExtractableText] never throws, and with a configured client it
    predicts [processPDF]: its answer is truthy exactly when [processPDF]
    sends the text of the same file to the LLM. *)
Theorem hasExtractableText_predicts_processPDF
    (w : World) (p : Provider) (buf : Buffer) :
  isConfigured (llmService w p) = true ->
  exists v,
    hasExtractableText w buf = (Returned v, [PdfParse buf])
    /\ (flag_truthy v = true <->
        count is_text_chat (trace (processPDF w (llmService w p) buf)) = 1%nat).
Proof.
  intros Conf. rewrite processPDF_trace.
  unfold hasExtractableText, pdf_calls.
  destruct (pdfParse w buf) as [pd | e]; cbn [call bind ret try_catch app].
  - eexists. split; [reflexivity |]. rewrite Conf.
    destruct (Nat.eqb (List.length (pdf_text pd)) 0); cbn [negb andb flag_truthy].
    + cbn. split; discriminate.
    + destruct (50 <? List.length (trim (pdf_text pd)))%nat; cbn;
        split; auto; discriminate.
  - eexists. split; [reflexivity |]. cbn. split; discriminate.
Qed.

Lemma hasExtractableText_predicts_processPDF_witness :
  let w := Samples.world (Ok (mkPdfData 1 Samples.long_text)) Samples.no_ocr
             (Samples.says (Samples.timetable_text EmptyString)) in
  exists v,
    hasExtractableText w Samples.pdf = (Returned v, [PdfParse Samples.pdf])
    /\ (flag_truthy v = true <->
        count is_text_chat (trace (processPDF w (llmService w OpenAI) Samples.pdf))
        = 1%nat).
Proof.
  intros w.
  apply (hasExtractableText_predicts_processPDF w OpenAI Samples.pdf).
  reflexivity.
Defined.

Lemma append_empty_r (s : string) : (s ++ EmptyString)%string = s.
Proof.
  induction s as [ | c s IH]; simpl; [reflexivity |]. rewrite IH. reflexivity.
Qed.

(** X15. On a reply that is nothing but an object, from its opening brace
    to its closing brace, the two clients agree: the brace pattern of the
    Anthropic client matches the whole reply, and both clients end the same
    way on it. *)
Theorem clients_agree_on_bare_objects
    (w : World) (prompt : Prompt) (reply : Reply) (inner : string) :
  openai_configured w = true ->
  anthropic_configured w = true ->
  create w OpenAI prompt = Ok reply ->
  create w Anthropic prompt = Ok reply ->
  reply_content reply = String "{" (inner ++ "}") ->
  brace_match (reply_content reply) = Some (reply_content reply)
  /\ outcome (anthropic_request w prompt) = outcome (openai_request w prompt).
Proof.
  intros Co Ca Ho Ha Hc.
  assert (brace_match (reply_content reply) = Some (reply_content reply)) as Hm.
  { apply brace_match_spec. exists EmptyString, inner, EmptyString.
    rewrite Hc. simpl. rewrite append_empty_r. auto. }
  split; [exact Hm |].
  unfold anthropic_request, openai_request.
  rewrite Co, Ca, Ho, Ha. cbn [negb call bind]. rewrite Hm.
  destruct (JSON_parse w (reply_content reply)); reflexivity.
Qed.

Lemma clients_agree_on_bare_objects_witness :
  let inner :=
    (Samples.member "metadata" "{}" ++ "," ++ Samples.member "timeblocks" "[]")%string in
  let reply := mkReply (String "{" (inner ++ "}")) 100 in
  let w := Samples.with_anthropic_key
             (Samples.world Samples.no_pdf Samples.no_ocr
                (fun _ _ => Ok reply)) in
  brace_match (reply_content reply) = Some (reply_content reply)
  /\ outcome (anthropic_request w (TextPrompt Samples.long_text))
     = outcome (openai_request w (TextPrompt Samples.long_text)).
Proof.
  intros inner reply w.
  apply (clients_agree_on_bare_objects w (TextPrompt Samples.long_text) reply inner);
    reflexivity.
Defined.

(** X16. What the brace pattern of the Anthropic client extracts is the
    part of the reply from its first opening brace to its last closing
    brace, and extracting again from that part gives it back unchanged. *)
Theorem brace_pattern_first_open_to_last_close (body m : string) :
  brace_match body = Some m ->
  (exists pre inner post,
     body = (pre ++ m ++ post)%string
     /\ m = String "{" (inner ++ "}")
     /\ has_char "{" pre = false
     /\ has_char "}" post = false)
  /\ brace_match m = Some m.
Proof.
  intros H. pose proof (proj1 (brace_match_spec body m) H) as Hs.
  split; [exact Hs |].
  destruct Hs as (pre & inner & post & _ & -> & _ & _).
  apply brace_match_spec. exists EmptyString, inner, EmptyString.
  simpl. rewrite append_empty_r. auto.
Qed.

Lemma brace_pattern_first_open_to_last_close_witness :
  (exists pre inner post,
     "Sure: {a} and {b}. Done" = (pre ++ "{a} and {b}" ++ post)%string
     /\ "{a} and {b}" = String "{" (inner ++ "}")
     /\ has_char "{" pre = false
     /\ has_char "}" post = false)
  /\ brace_match "{a} and {b}" = Some "{a} and {b}".
Proof.
  apply (brace_pattern_first_open_to_last_close "Sure: {a} and {b}. Done").
  reflexivity.
Defined.

(* ================================================================== *)
(** * Further properties of the upload filter and the supported types *)
(* ================================================================== *)

Section Inclusion.

Lemma mem_In s l : mem s l = true <-> In s l.
Proof.
  induction l as [ | x r IH]; simpl; [split; [discriminate | tauto] |].
  rewrite orb_true_iff, IH, String.eqb_eq. tauto.
Qed.

Lemma prefix_append t r : String.prefix t (t ++ r) = true.
Proof.
  induction t as [ | c t IH]; simpl; [destruct r; reflexivity |].
  destruct (ascii_dec c c) as [_ | Hne]; [exact IH | contradiction].
Qed.

Lemma includes_here t r : includes t (t ++ r) = true.
Proof.
  pose proof (prefix_append t r) as P.
  destruct (t ++ r)%string; cbn [includes]; rewrite P; reflexivity.
Qed.

Lemma includes_after a t s : includes t s = true -> includes t (a ++ s) = true.
Proof.
  intros H. induction a as [ | c a IH]; simpl; [exact H |].
  rewrite IH. apply orb_true_r.
Qed.

Lemma includes_join sep t l : In t l -> includes t (join sep l) = true.
Proof.
  induction l as [ | x r IH]; [contradiction |].
  intros [-> | Hin].
  - destruct r as [ | y r']; simpl join.
    + rewrite <- (append_empty_r t) at 2. apply includes_here.
    + apply includes_here.
  - destruct r as [ | y r']; [contradiction |].
    change (join sep (x :: y :: r'))
      with (x ++ sep ++ join sep (y :: r'))%string.
    apply includes_after, includes_after. exact (IH Hin).
Qed.

End Inclusion.

(** X17. The upload filter accepts a file exactly when its MIME type is an
    element of the configured list. When it refuses, the error has the code
    [UNSUPPORTED_FILE_TYPE] and a message that contains the refused type and
    every type of the configured list. *)
Theorem fileFilter_names_the_allowed_types (w : World) (file : Upload) :
  (fileFilter w file = Ok true
   <-> In (mimetype file) (allowedFileTypes (config w)))
  /\ (~ In (mimetype file) (allowedFileTypes (config w)) ->
      exists msg,
        fileFilter w file
        = Err (mkThrown (Some "UNSUPPORTED_FILE_TYPE") (Some msg) None)
        /\ includes (mimetype file) msg = true
        /\ forall t, In t (allowedFileTypes (config w)) -> includes t msg = true).
Proof.
  unfold fileFilter.
  destruct (mem (mimetype file) (allowedFileTypes (config w))) eqn:M; cbn [negb].
  - apply mem_In in M. split; [tauto |]. intros H. contradiction.
  - assert (~ In (mimetype file) (allowedFileTypes (config w))) as Hn.
    { intros H. apply mem_In in H. rewrite H in M. discriminate M. }
    split; [split; [discriminate | contradiction] |].
    intros _. eexists. split; [reflexivity |]. split.
    + apply (includes_after "File type "). apply includes_here.
    + intros t Ht.
      apply (includes_after "File type "), includes_after, includes_after.
      exact (includes_join ", " t _ Ht).
Qed.

Lemma fileFilter_names_the_allowed_types_witness :
  let w := Samples.world Samples.no_pdf Samples.no_ocr
             (Samples.says (Samples.timetable_text EmptyString)) in
  let file := Samples.upload "image/gif" "week.gif" Samples.gif in
  exists msg,
    fileFilter w file
    = Err (mkThrown (Some "UNSUPPORTED_FILE_TYPE") (Some msg) None)
    /\ includes (mimetype file) msg = true
    /\ forall t, In t (allowedFileTypes (config w)) -> includes t msg = true.
Proof.
  intros w file.
  apply (proj2 (fileFilter_names_the_allowed_types w file)).
  vm_compute. intuition discriminate.
Defined.

(** X18. Every type [isFileTypeSupported] accepts is one the router sends
    to a processor: for such a type [processFile] enters the image or the
    PDF processor first and never throws [UNSUPPORTED_FILE_TYPE]. The
    converse fails for the other [image/] types, which the router also
    sends to the image processor. *)
Theorem supported_types_are_routed
    (w : World) (svc : LlmService) (buf : Buffer) (mime name : string) :
  isFileTypeSupported mime = true ->
  exists o ev t,
    processFile w svc buf mime name = (o, ev :: t)
    /\ (ev = EnterImageProcessor \/ ev = EnterPdfProcessor)
    /\ forall e, o = Threw e -> code e <> Some "UNSUPPORTED_FILE_TYPE".
Proof.
  intros H. apply mem_In in H.
  destruct H as [<- | [<- | [<- | []]]].
  - destruct (processFile_image w svc buf "image/png" name eq_refl)
      as (o & t & Hp & Hc).
    exists o, EnterImageProcessor, t. split; [exact Hp |]. split; [auto |].
    intros e He. rewrite (Hc e He). discriminate.
  - destruct (processFile_image w svc buf "image/jpeg" name eq_refl)
      as (o & t & Hp & Hc).
    exists o, EnterImageProcessor, t. split; [exact Hp |]. split; [auto |].
    intros e He. rewrite (Hc e He). discriminate.
  - destruct (processFile_pdf w svc buf name) as (o & t & Hp & Hc).
    exists o, EnterPdfProcessor, t. split; [exact Hp |]. split; [auto |].
    intros e He. rewrite (Hc e He). discriminate.
Qed.

Lemma supported_types_are_routed_witness :
  let w := Samples.world (Ok (mkPdfData 1 Samples.short_text)) Samples.no_ocr
             (Samples.says (Samples.timetable_text EmptyString)) in
  exists o ev t,
    processFile w (llmService w OpenAI) Samples.pdf "application/pdf" "scan.pdf"
    = (o, ev :: t)
    /\ (ev = EnterImageProcessor \/ ev = EnterPdfProcessor)
    /\ forall e, o = Threw e -> code e <> Some "UNSUPPORTED_FILE_TYPE".
Proof.
  intros w.
  apply (supported_types_are_routed w (llmService w OpenAI) Samples.pdf
           "application/pdf" "scan.pdf").
  reflexivity.
Defined.

(* ================================================================== *)
(** * Further properties of validateExtraction and its caller *)
(* ================================================================== *)

Section Answers.

Lemma validateExtraction_warnings data enriched warnings blocks :
  validateExtraction data = Some (Valid enriched warnings) ->
  data_timeblocks data = Some blocks ->
  warnings
  = map (fun b => BlockReport (prop "subject" b)
                    "Time outside reasonable school hours")
      (filter out_of_hours blocks).
Proof.
  intros V Hd.
  destruct (Valid_inv _ _ _ V) as (_ & blocks' & errs & Hd' & R & _ & _ & _ & ->).
  rewrite Hd in Hd'. injection Hd' as <-.
  destruct (validateTimeRanges_filters _ _ R) as (_ & -> & _).
  rewrite map_map. reflexivity.
Qed.

End Answers.

(** X21. An invalid answer of [validateExtraction] always says why: its
    list of errors is not empty. After a schema failure every error is a
    field report; after a time-range failure every error is the report "End
    time must be after start time" for one of the candidate's blocks. *)
Theorem invalid_answers_carry_errors (data : option JSON) (v : Validated) :
  validateExtraction data = Some v ->
  isValid v = false ->
  validation_errors v <> []
  /\ ((exists errors,
         v = SchemaInvalid errors
         /\ Forall (fun r => exists path msg c, r = FieldReport path msg c) errors)
      \/ (exists errors warnings blocks,
            v = RangesInvalid errors warnings
            /\ data_timeblocks data = Some blocks
            /\ Forall (fun r => exists b,
                         In b blocks
                         /\ r = BlockReport (prop "subject" b)
                                  "End time must be after start time") errors)).
Proof.
  unfold validateExtraction, validateTimetable, safeParse. cbn [success error_errors].
  destruct (parse timetableExtractionSchema [] data) as [ | i rest] eqn:P;
    cbn [negb].
  - destruct (data_timeblocks data) as [blocks | ]; [| discriminate].
    destruct (validateTimeRanges blocks) as [errs | ] eqn:R; [| discriminate].
    destruct (0 <? List.length (filter is_error errs))%nat eqn:L.
    + intros H _. injection H as <-. cbn [validation_errors].
      split.
      { destruct (filter is_error errs); [discriminate L | discriminate]. }
      right. eexists _, _, blocks.
      split; [reflexivity |]. split; [reflexivity |].
      destruct (validateTimeRanges_filters _ _ R) as (H1 & _ & _).
      rewrite H1, map_map.
      apply Forall_forall. intros r Hr.
      apply in_map_iff in Hr as (b & <- & Hb).
      apply filter_In in Hb as [Hb _]. exists b. auto.
    + destruct (enrichTimeBlocks blocks); [| discriminate].
      intros H. injection H as <-. discriminate.
  - intros H _. injection H as <-. cbn [validation_errors].
    split; [discriminate |]. left. eexists. split; [reflexivity |].
    apply Forall_forall. intros r Hr.
    change (In r (map issue_report (i :: rest))) in Hr.
    apply in_map_iff in Hr as (x & <- & _). unfold issue_report. eauto.
Qed.

Lemma invalid_answers_carry_errors_witness :
  let b := Samples.block_value "10:30" "10:30" None in
  let v := RangesInvalid
             [BlockReport (Some (JStr "Maths")) "End time must be after start time"]
             [] in
  validation_errors v <> []
  /\ ((exists errors,
         v = SchemaInvalid errors
         /\ Forall (fun r => exists path msg c, r = FieldReport path msg c) errors)
      \/ (exists errors warnings blocks,
            v = RangesInvalid errors warnings
            /\ data_timeblocks (Some (Samples.timetable_value [b])) = Some blocks
            /\ Forall (fun r => exists b,
                         In b blocks
                         /\ r = BlockReport (prop "subject" b)
                                  "End time must be after start time") errors)).
Proof.
  intros b v.
  apply (invalid_answers_carry_errors (Some (Samples.timetable_value [b])) v).
  - vm_compute. reflexivity.
  - reflexivity.
Defined.

(** X22. The warnings of a valid answer are, in the order of the blocks, one
    report "Time outside reasonable school hours" for each block of the
    candidate that starts before hour 5 or ends after hour 23, under the
    block's subject. *)
Theorem warnings_follow_the_blocks
    (data : option JSON) (enriched : ExtractionResult) (warnings : list Report)
    (blocks : list JSON) :
  validateExtraction data = Some (Valid enriched warnings) ->
  data_timeblocks data = Some blocks ->
  warnings
  = map (fun b => BlockReport (prop "subject" b)
                    "Time outside reasonable school hours")
      (filter out_of_hours blocks).
Proof. exact (validateExtraction_warnings data enriched warnings blocks). Qed.

Lemma warnings_follow_the_blocks_witness :
  let early := Samples.block_value "4:30" "10:45" None in
  let fine := Samples.block_value "11:00" "12:00" None in
  [BlockReport (Some (JStr "Maths")) "Time outside reasonable school hours"]
  = map (fun b => BlockReport (prop "subject" b)
                    "Time outside reasonable school hours")
      (filter out_of_hours [early; fine]).
Proof.
  intros early fine.
  apply (warnings_follow_the_blocks (Some (Samples.timetable_value [early; fine]))
           (mkExtraction (Some (JObj []))
              [Samples.block_value "4:30" "10:45" (Some 375%Q);
               Samples.block_value "11:00" "12:00" (Some 60%Q)])).
  - vm_compute. reflexivity.
  - reflexivity.
Defined.

(** X23. [processFile] returns extracted data only for a candidate that
    passed validation: the data is the validator's enriched result for the
    [data] of what the processor returned, it has at least one block and as
    many as the candidate, and the metadata carries the validator's
    warnings, the file name and the MIME type. *)
Theorem extracted_data_passed_validation
    (w : World) (svc : LlmService) (buf : Buffer) (mime name : string)
    (d : ExtractionResult) (m : ResultMeta) :
  outcome (processFile w svc buf mime name) = Returned (Extracted d m) ->
  exists result blocks,
    outcome (route w svc buf mime) = Returned result
    /\ validateExtraction (p_data result) = Some (Valid d (validationWarnings m))
    /\ data_timeblocks (p_data result) = Some blocks
    /\ List.length (timeblocks d) = List.length blocks
    /\ (1 <= List.length blocks)%nat
    /\ rm_filename m = name /\ rm_fileType m = mime.
Proof.
  unfold processFile.
  destruct (route w svc buf mime) as [[result | e | ] t];
    cbn [bind try_catch outcome fst].
  - destruct (validateExtraction (p_data result)) as [v | ] eqn:V;
      cbn [modelled ret bind]; [| discriminate].
    destruct v as [errs | errs ws | enriched ws]; cbn [ret fst];
      intros H; try discriminate H.
    injection H as <- <-. cbn [validationWarnings rm_filename rm_fileType].
    destruct (Valid_inv _ _ _ V) as (S & blocks & errs & Hd & _ & _ & En & _ & _).
    destruct (schema_success_blocks _ _ S Hd) as [Hne _].
    exists result, blocks. repeat split; auto.
    + exact (eq_sym (Forall2_length (enrichTimeBlocks_Forall2 _ _ En))).
    + destruct blocks; [contradiction | simpl; lia].
  - destruct (truthy (code e)); cbn [throw fst]; discriminate.
  - discriminate.
Qed.

Lemma extracted_data_passed_validation_witness :
  let w := Samples.world (Ok (mkPdfData 1 Samples.long_text)) Samples.no_ocr
             (Samples.says
                (Samples.timetable_text (Samples.block_text "9:00" "9:30" None))) in
  let svc := llmService w OpenAI in
  let d := mkExtraction (Some (JObj []))
             [Samples.block_value "9:00" "9:30" (Some 30%Q)] in
  let m := mkResultMeta (Some (mkLlmMeta "gpt-4o" 100))
             (Some "pdf-parse + llm-text") "week.pdf" "application/pdf" [] in
  exists result blocks,
    outcome (route w svc Samples.pdf "application/pdf") = Returned result
    /\ validateExtraction (p_data result) = Some (Valid d (validationWarnings m))
    /\ data_timeblocks (p_data result) = Some blocks
    /\ List.length (timeblocks d) = List.length blocks
    /\ (1 <= List.length blocks)%nat
    /\ rm_filename m = "week.pdf" /\ rm_fileType m = "application/pdf".
Proof.
  intros w svc d m.
  apply (extracted_data_passed_validation w svc Samples.pdf "application/pdf"
           "week.pdf" d m).
  vm_compute. reflexivity.
Defined.
